(** * Verification of the staking engine of the coin-flip betting bot

    The development embeds [src/betting_engine.py] (class [BettingEngine]),
    the message fetch of [src/discord_client.py] and one cycle of the
    strategy loop of [src/main.py].

    Modelling conventions.
    - Python [int] values (counters, the stored bet) are [Z].
    - Python [float] values (balances, amounts, percentages, multipliers,
      rates) are binary64 numbers.  A float is modelled by the rational it
      denotes, and every operation on floats gives the binary64 value
      nearest to its exact result, ties to the even mantissa, with gradual
      underflow ([Py.fl], [Py.mul], [Py.div], [Py.sub]); so does the
      conversion of a digit string or of an [int] to a float.  The model has
      no infinity and no NaN: it follows the code as long as no result lies
      beyond the largest finite binary64 value, about 1.8e308.
    - Clock readings and the durations computed from them are exact
      rationals: they are parameters of the model.
    - Chat messages are ASCII strings.
    - The chat client is an oracle: its reply to the k-th fetch is either a
      batch of messages or a raised exception.
    - Wall-clock time enters [should_stop_betting] as a parameter [now],
      measured in hours; the pauses of the code do not appear.
    - Log output is left out, except the amount a won bet reports. *)

From Stdlib Require Import ZArith QArith Qround Qminmax Qpower Qreduction.
From Stdlib Require Import Bool List Lia Lqa.
From Stdlib Require Import Ascii String DecimalString.
From Stdlib Require Qcanon.
Import ListNotations.

Local Open Scope Z_scope.
Local Open Scope Q_scope.

(** ** Python numerics *)

Module Py.

(** [a < b] and [a <= b] on numbers, as booleans. *)
Definition ltb (a b : Q) : bool :=
  match Qcompare a b with Lt => true | _ => false end.

Definition leb (a b : Q) : bool :=
  match Qcompare a b with Gt => false | _ => true end.

Definition eqb (a b : Q) : bool :=
  match Qcompare a b with Eq => true | _ => false end.

(** [max(a, b)]: the first argument unless the second is strictly larger. *)
Definition max (a b : Q) : Q := if ltb a b then b else a.

(** [min(a, b)]: the first argument unless the second is strictly smaller. *)
Definition min (a b : Q) : Q := if ltb b a then b else a.

(** [round(x)] with one argument: nearest integer, ties to the even one. *)
Definition round (x : Q) : Z :=
  let f := Qfloor x in
  match Qcompare (x - inject_Z f) (1 # 2) with
  | Lt => f
  | Gt => (f + 1)%Z
  | Eq => if Z.even f then f else (f + 1)%Z
  end.

(** [2 ** e] *)
Definition pow2 (e : Z) : Q := 2 ^ e.

(** The binary exponent of a positive number [x]: the [k] with
    [2 ** k <= x < 2 ** (k + 1)]. *)
Definition exponent (x : Q) : Z :=
  let k := (Z.log2 (Qnum x) - Z.log2 (Zpos (Qden x)))%Z in
  if leb (pow2 k) x then k else (k - 1)%Z.

(** The exponent of the last of the 53 bits that binary64 keeps of a
    positive number; it does not go below that of the subnormal numbers. *)
Definition last_place (x : Q) : Z := Z.max (exponent x - 52) (-1074).

(** The binary64 value nearest to a positive number, ties to the even
    mantissa, as a reduced fraction. *)
Definition nearest (x : Q) : Q :=
  let e := last_place x in
  Qred (inject_Z (round (x / pow2 e)) * pow2 e).

(** The binary64 value nearest to a number: what a float operation makes
    of its exact result. *)
Definition fl (x : Q) : Q :=
  match Qcompare x 0 with
  | Eq => 0
  | Gt => nearest x
  | Lt => - nearest (- x)
  end.

(** [a * b], [a / b] and [a - b] on floats; an [int] operand is converted
    first, which leaves an [int] of up to 53 bits as it is.  Every division
    of the code has a divisor that is not zero: the constant 100, or a
    number tested to be positive before. *)
Definition mul (a b : Q) : Q := fl (a * b).
Definition div (a b : Q) : Q := fl (a / b).
Definition sub (a b : Q) : Q := fl (a - b).

(** The conversion of an [int] to a float. *)
Definition float_of_int (n : Z) : Q := fl (inject_Z n).

(** The largest finite binary64 value. *)
Definition max_float : Q := inject_Z ((2 ^ 53 - 1) * 2 ^ 971).

End Py.

(** ** Configuration ([config["betting"]], [config["risk_management"]]) *)

Record Betting := {
  initial_bet_percentage : Q;
  loss_multiplier : Q;
  min_bet_amount : Q;
  max_consecutive_losses : Z
}.

Record RiskManagement := {
  enable_stop_loss : bool;
  stop_loss_percentage : Q;
  enable_profit_target : bool;
  profit_target_percentage : Q;
  enable_max_bet_limit : bool;
  max_bet_percentage : Q;
  enable_session_time_limit : bool;
  session_time_limit_hours : Q
}.

Record Config := {
  betting : Betting;
  risk_management : RiskManagement
}.

(** [ConfigManager.get_default_config], the two groups the engine reads. *)
Definition get_default_config : Config := {|
  betting := {|
    initial_bet_percentage := 1;
    loss_multiplier := 5 # 2;
    min_bet_amount := 1;
    max_consecutive_losses := 10 |};
  risk_management := {|
    enable_stop_loss := true;
    stop_loss_percentage := 50;
    enable_profit_target := false;
    profit_target_percentage := 100;
    enable_max_bet_limit := true;
    max_bet_percentage := 10;
    enable_session_time_limit := false;
    session_time_limit_hours := 24 |}
|}.

(** ** Engine state (the fields set in [BettingEngine.__init__]) *)

Record BettingEngine := {
  current_cash : Q;
  starting_balance : Q;
  current_bet : Z;
  consecutive_losses : Z;
  total_bets : Z;
  total_wins : Z;
  total_losses : Z;
  total_profit : Q;
  session_start_time : Q;
  stop_loss_triggered : bool;
  profit_target_reached : bool;
  max_losses_reached : bool
}.

(** [BettingEngine.__init__], constructed at time [now]. *)
Definition init (now : Q) : BettingEngine := {|
  current_cash := 0;
  starting_balance := 0;
  current_bet := 0;
  consecutive_losses := 0;
  total_bets := 0;
  total_wins := 0;
  total_losses := 0;
  total_profit := 0;
  session_start_time := now;
  stop_loss_triggered := false;
  profit_target_reached := false;
  max_losses_reached := false
|}.

(** ** [BettingEngine.calculate_bet_amount] *)

Definition calculate_bet_amount (config : Config) (self : BettingEngine) : Z :=
  let bet_amount :=
    if (consecutive_losses self =? 0)%Z
    then Py.mul (current_cash self)
                (Py.div (initial_bet_percentage (betting config)) 100)
    else Py.mul (Py.float_of_int (current_bet self))
                (loss_multiplier (betting config)) in
  let bet_amount := Py.max bet_amount (min_bet_amount (betting config)) in
  let bet_amount :=
    if enable_max_bet_limit (risk_management config)
    then
      let max_bet :=
        Py.mul (current_cash self)
               (Py.div (max_bet_percentage (risk_management config)) 100) in
      Py.min bet_amount max_bet
    else bet_amount in
  Py.round bet_amount.

(** ** Python string operations used by the engine *)

Local Open Scope string_scope.

Module Text.

Definition is_upper (c : ascii) : bool :=
  (65 <=? nat_of_ascii c)%nat && (nat_of_ascii c <=? 90)%nat.

(** [\d] on ASCII text. *)
Definition is_digit (c : ascii) : bool :=
  (48 <=? nat_of_ascii c)%nat && (nat_of_ascii c <=? 57)%nat.

(** [\s] on ASCII text: tab, line feed, vertical tab, form feed, carriage
    return, the four separators 28..31 and the space. *)
Definition is_space (c : ascii) : bool :=
  ((9 <=? nat_of_ascii c)%nat && (nat_of_ascii c <=? 13)%nat)
  || ((28 <=? nat_of_ascii c)%nat && (nat_of_ascii c <=? 32)%nat).

Definition lower_char (c : ascii) : ascii :=
  if is_upper c then ascii_of_nat (nat_of_ascii c + 32) else c.

(** [s.lower()] *)
Fixpoint lower (s : string) : string :=
  match s with
  | EmptyString => EmptyString
  | String c s' => String (lower_char c) (lower s')
  end.

(** [s.startswith(p)], returning the rest of [s] after [p]. *)
Fixpoint strip_prefix (p s : string) : option string :=
  match p, s with
  | EmptyString, _ => Some s
  | String a p', String b s' =>
      if Ascii.eqb a b then strip_prefix p' s' else None
  | String _ _, EmptyString => None
  end.

Definition starts_with (p s : string) : bool :=
  match strip_prefix p s with Some _ => true | None => false end.

(** [needle in hay] *)
Fixpoint contains (needle hay : string) : bool :=
  starts_with needle hay ||
  match hay with
  | EmptyString => false
  | String _ hay' => contains needle hay'
  end.

(** [s.replace(c, '')] for a single character [c]. *)
Fixpoint remove_char (c : ascii) (s : string) : string :=
  match s with
  | EmptyString => EmptyString
  | String a s' =>
      if Ascii.eqb a c then remove_char c s' else String a (remove_char c s')
  end.

Definition digit_value (c : ascii) : Z := Z.of_nat (nat_of_ascii c - 48).

Fixpoint int_of_digits (acc : Z) (s : string) : Z :=
  match s with
  | EmptyString => acc
  | String c s' => int_of_digits (10 * acc + digit_value c) s'
  end.

(** [float(s)] on a string of decimal digits: the binary64 value nearest
    to the number written. *)
Definition float (s : string) : Q := Py.fl (inject_Z (int_of_digits 0 s)).

(** [str(n)] for an [int]. *)
Definition str (n : Z) : string := NilZero.string_of_int (Z.to_int n).

(** The tail of a number once its first digit is consumed: further
    digits, or a comma that a digit follows.  Returns the text consumed and
    the remaining input. *)
Fixpoint number_tail (s : string) : string * string :=
  match s with
  | String c s' =>
      if is_digit c then
        let (t, r) := number_tail s' in (String c t, r)
      else if Ascii.eqb c "," then
        match s' with
        | String d s'' =>
            if is_digit d then
              let (t, r) := number_tail s'' in (String c (String d t), r)
            else (EmptyString, s)
        | EmptyString => (EmptyString, s)
        end
      else (EmptyString, s)
  | EmptyString => (EmptyString, s)
  end.

(** A number anchored at the start of [s]: one or more digits, then any
    count of groups made of a comma and one or more digits. *)
Definition number (s : string) : option (string * string) :=
  match s with
  | String d s' =>
      if is_digit d then
        let (t, r) := number_tail s' in Some (String d t, r)
      else None
  | EmptyString => None
  end.

(** Leading white space, as much as there is. *)
Fixpoint skip_spaces (s : string) : string :=
  match s with
  | String c s' => if is_space c then skip_spaces s' else s
  | EmptyString => s
  end.

(** An optional pair of asterisks (the optional bold markers of the win
    pattern). *)
Definition skip_stars (s : string) : string :=
  match strip_prefix "**" s with Some r => r | None => s end.

(** The balance pattern of [check_cash] with [re.IGNORECASE], anchored at the
    start of [s]: the number (group 1), optional white space, the word
    [cowoncy]; the result is group 1.  Every quantifier of the pattern is
    followed by a character it cannot itself consume, so giving back input
    never turns a failed attempt into a match: the greedy attempt decides. *)
Definition match_cash_here (s : string) : option string :=
  match number s with
  | Some (group1, r) =>
      if starts_with "cowoncy" (lower (skip_spaces r)) then Some group1
      else None
  | None => None
  end.

(** [re.search] of the balance pattern in [s]: the match at the leftmost
    position that has one. *)
Fixpoint search_cash (s : string) : option string :=
  match match_cash_here s with
  | Some group1 => Some group1
  | None =>
      match s with
      | String _ s' => search_cash s'
      | EmptyString => None
      end
  end.

(** The win pattern anchored at the start of [s]: the words [you won] and a
    space, optional bold markers, the number (group 1), optional bold
    markers, two exclamation marks. *)
Definition match_won_here (s : string) : option string :=
  match strip_prefix "you won " s with
  | Some r =>
      match number (skip_stars r) with
      | Some (group1, r') =>
          if starts_with "!!" (skip_stars r') then Some group1 else None
      | None => None
      end
  | None => None
  end.

(** [re.search] of the win pattern in [s]. *)
Fixpoint search_won (s : string) : option string :=
  match match_won_here s with
  | Some group1 => Some group1
  | None =>
      match s with
      | String _ s' => search_won s'
      | EmptyString => None
      end
  end.

End Text.

(** ** Field updates of the engine ([self.field = v]) *)

Definition set_current_cash (v : Q) (self : BettingEngine) : BettingEngine :=
  {| current_cash := v;
     starting_balance := starting_balance self;
     current_bet := current_bet self;
     consecutive_losses := consecutive_losses self;
     total_bets := total_bets self;
     total_wins := total_wins self;
     total_losses := total_losses self;
     total_profit := total_profit self;
     session_start_time := session_start_time self;
     stop_loss_triggered := stop_loss_triggered self;
     profit_target_reached := profit_target_reached self;
     max_losses_reached := max_losses_reached self |}.

Definition set_starting_balance (v : Q) (self : BettingEngine) : BettingEngine :=
  {| current_cash := current_cash self;
     starting_balance := v;
     current_bet := current_bet self;
     consecutive_losses := consecutive_losses self;
     total_bets := total_bets self;
     total_wins := total_wins self;
     total_losses := total_losses self;
     total_profit := total_profit self;
     session_start_time := session_start_time self;
     stop_loss_triggered := stop_loss_triggered self;
     profit_target_reached := profit_target_reached self;
     max_losses_reached := max_losses_reached self |}.

Definition set_current_bet (v : Z) (self : BettingEngine) : BettingEngine :=
  {| current_cash := current_cash self;
     starting_balance := starting_balance self;
     current_bet := v;
     consecutive_losses := consecutive_losses self;
     total_bets := total_bets self;
     total_wins := total_wins self;
     total_losses := total_losses self;
     total_profit := total_profit self;
     session_start_time := session_start_time self;
     stop_loss_triggered := stop_loss_triggered self;
     profit_target_reached := profit_target_reached self;
     max_losses_reached := max_losses_reached self |}.

Definition set_consecutive_losses (v : Z) (self : BettingEngine) : BettingEngine :=
  {| current_cash := current_cash self;
     starting_balance := starting_balance self;
     current_bet := current_bet self;
     consecutive_losses := v;
     total_bets := total_bets self;
     total_wins := total_wins self;
     total_losses := total_losses self;
     total_profit := total_profit self;
     session_start_time := session_start_time self;
     stop_loss_triggered := stop_loss_triggered self;
     profit_target_reached := profit_target_reached self;
     max_losses_reached := max_losses_reached self |}.

Definition set_total_bets (v : Z) (self : BettingEngine) : BettingEngine :=
  {| current_cash := current_cash self;
     starting_balance := starting_balance self;
     current_bet := current_bet self;
     consecutive_losses := consecutive_losses self;
     total_bets := v;
     total_wins := total_wins self;
     total_losses := total_losses self;
     total_profit := total_profit self;
     session_start_time := session_start_time self;
     stop_loss_triggered := stop_loss_triggered self;
     profit_target_reached := profit_target_reached self;
     max_losses_reached := max_losses_reached self |}.

Definition set_total_wins (v : Z) (self : BettingEngine) : BettingEngine :=
  {| current_cash := current_cash self;
     starting_balance := starting_balance self;
     current_bet := current_bet self;
     consecutive_losses := consecutive_losses self;
     total_bets := total_bets self;
     total_wins := v;
     total_losses := total_losses self;
     total_profit := total_profit self;
     session_start_time := session_start_time self;
     stop_loss_triggered := stop_loss_triggered self;
     profit_target_reached := profit_target_reached self;
     max_losses_reached := max_losses_reached self |}.

Definition set_total_losses (v : Z) (self : BettingEngine) : BettingEngine :=
  {| current_cash := current_cash self;
     starting_balance := starting_balance self;
     current_bet := current_bet self;
     consecutive_losses := consecutive_losses self;
     total_bets := total_bets self;
     total_wins := total_wins self;
     total_losses := v;
     total_profit := total_profit self;
     session_start_time := session_start_time self;
     stop_loss_triggered := stop_loss_triggered self;
     profit_target_reached := profit_target_reached self;
     max_losses_reached := max_losses_reached self |}.

Definition set_total_profit (v : Q) (self : BettingEngine) : BettingEngine :=
  {| current_cash := current_cash self;
     starting_balance := starting_balance self;
     current_bet := current_bet self;
     consecutive_losses := consecutive_losses self;
     total_bets := total_bets self;
     total_wins := total_wins self;
     total_losses := total_losses self;
     total_profit := v;
     session_start_time := session_start_time self;
     stop_loss_triggered := stop_loss_triggered self;
     profit_target_reached := profit_target_reached self;
     max_losses_reached := max_losses_reached self |}.

Definition set_stop_loss_triggered (v : bool) (self : BettingEngine) : BettingEngine :=
  {| current_cash := current_cash self;
     starting_balance := starting_balance self;
     current_bet := current_bet self;
     consecutive_losses := consecutive_losses self;
     total_bets := total_bets self;
     total_wins := total_wins self;
     total_losses := total_losses self;
     total_profit := total_profit self;
     session_start_time := session_start_time self;
     stop_loss_triggered := v;
     profit_target_reached := profit_target_reached self;
     max_losses_reached := max_losses_reached self |}.

Definition set_profit_target_reached (v : bool) (self : BettingEngine) : BettingEngine :=
  {| current_cash := current_cash self;
     starting_balance := starting_balance self;
     current_bet := current_bet self;
     consecutive_losses := consecutive_losses self;
     total_bets := total_bets self;
     total_wins := total_wins self;
     total_losses := total_losses self;
     total_profit := total_profit self;
     session_start_time := session_start_time self;
     stop_loss_triggered := stop_loss_triggered self;
     profit_target_reached := v;
     max_losses_reached := max_losses_reached self |}.

Definition set_max_losses_reached (v : bool) (self : BettingEngine) : BettingEngine :=
  {| current_cash := current_cash self;
     starting_balance := starting_balance self;
     current_bet := current_bet self;
     consecutive_losses := consecutive_losses self;
     total_bets := total_bets self;
     total_wins := total_wins self;
     total_losses := total_losses self;
     total_profit := total_profit self;
     session_start_time := session_start_time self;
     stop_loss_triggered := stop_loss_triggered self;
     profit_target_reached := profit_target_reached self;
     max_losses_reached := v |}.

(** ** The chat client as the engine sees it *)

(** What [client.get_recent_messages(limit)] gives the caller: a batch of
    message texts, most recent first, or an exception. *)
Inductive reply :=
| Batch (messages : list string)
| Raise.

(** The reply to the k-th fetch of the session, for the limit asked. *)
Definition Client := nat -> nat -> reply.

(** The client side of the session: how many fetches were made and the
    commands sent so far, latest first, each with its command type. *)
Record World := {
  fetches : nat;
  sent : list (string * string)
}.

Definition new_world : World := {| fetches := 0; sent := [] |}.

Definition send_command (command command_type : string) (w : World) : World :=
  {| fetches := fetches w; sent := (command, command_type) :: sent w |}.

Definition fetch (client : Client) (limit : nat) (w : World) : reply * World :=
  (client (fetches w) limit, {| fetches := S (fetches w); sent := sent w |}).

(** [DiscordClient.get_recent_messages]: [dom] is the list of message
    elements on the page, oldest first, or [None] when waiting for them
    raised; the last [limit] of them, reversed.  The exception is caught
    here, so this client never raises. *)
Definition get_recent_messages (limit : nat) (dom : option (list string))
  : list string :=
  match dom with
  | Some messages =>
      match limit with
      | O => rev messages
      | S _ => rev (skipn (List.length messages - limit) messages)
      end
  | None => []
  end.

(** A [DiscordClient] over the successive states of the page. *)
Definition discord_client (page : nat -> option (list string)) : Client :=
  fun k limit => Batch (get_recent_messages limit (page k)).

(** ** [BettingEngine._check_risk_conditions] *)

Definition _check_risk_conditions (config : Config) (self : BettingEngine)
  : BettingEngine :=
  let self :=
    if enable_stop_loss (risk_management config)
       && Py.ltb 0 (starting_balance self)
    then
      let loss_percentage :=
        Py.mul
          (Py.div (Py.sub (starting_balance self) (current_cash self))
                  (starting_balance self))
          100 in
      if Py.leb (stop_loss_percentage (risk_management config)) loss_percentage
      then set_stop_loss_triggered true self
      else self
    else self in
  let self :=
    if enable_profit_target (risk_management config)
       && Py.ltb 0 (starting_balance self)
    then
      let profit_percentage :=
        Py.mul (Py.div (total_profit self) (starting_balance self)) 100 in
      if Py.leb (profit_target_percentage (risk_management config))
                profit_percentage
      then set_profit_target_reached true self
      else self
    else self in
  if (max_consecutive_losses (betting config) <=? consecutive_losses self)%Z
  then set_max_losses_reached true self
  else self.

(** ** [BettingEngine.check_cash] *)

(** The [for message_text in messages] loop of [check_cash]: [Some] of the
    returned balance and the updated engine when the loop returns, [None]
    when it runs to its end. *)
Fixpoint check_cash_loop (config : Config) (messages : list string)
  (self : BettingEngine) : option (Q * BettingEngine) :=
  match messages with
  | [] => None
  | message_text :: rest =>
      if Text.contains "cowoncy" (Text.lower message_text) then
        match Text.search_cash message_text with
        | Some group1 =>
            let cash_str := Text.remove_char "," group1 in
            let self := set_current_cash (Text.float cash_str) self in
            let self :=
              if Py.eqb (starting_balance self) 0
              then set_starting_balance (current_cash self) self
              else self in
            let self :=
              set_total_profit
                (Py.sub (current_cash self) (starting_balance self)) self in
            let self := _check_risk_conditions config self in
            Some (current_cash self, self)
        | None => check_cash_loop config rest self
        end
      else check_cash_loop config rest self
  end.

Definition check_cash (config : Config) (client : Client) (w : World)
  (self : BettingEngine) : Q * World * BettingEngine :=
  let w := send_command "w cash" "cash_check" w in
  let (r, w) := fetch client 10 w in
  match r with
  | Batch messages =>
      match check_cash_loop config messages self with
      | Some (cash, self) => (cash, w, self)
      | None => (0, w, self)
      end
  | Raise => (0, w, self)
  end.

(** ** [BettingEngine.place_coinflip_bet] *)

(** The value returned by [place_coinflip_bet], together with the amount
    its win branch reports: the local [win_amount] of the first pass (a
    string when the pattern matched, the integer [amount * 2] otherwise) or
    the [amount * 2] of the last pass. *)
Inductive bet_result :=
| BetWon (win_amount : string + Z)
| BetLost
| BetUnknown.

(** The Python value: [True], [False] or [None]. *)
Definition returned (r : bet_result) : option bool :=
  match r with
  | BetWon _ => Some true
  | BetLost => Some false
  | BetUnknown => None
  end.

(** The win branch: [total_wins += 1] and the loss streak reset. *)
Definition record_win (self : BettingEngine) : BettingEngine :=
  let self := set_total_wins (total_wins self + 1) self in
  if (0 <? consecutive_losses self)%Z
  then set_consecutive_losses 0 self
  else self.

(** The loss branch: [total_losses += 1; consecutive_losses += 1]. *)
Definition record_loss (self : BettingEngine) : BettingEngine :=
  let self := set_total_losses (total_losses self + 1) self in
  set_consecutive_losses (consecutive_losses self + 1) self.

(** The [for updated_text in updated_messages] loop. *)
Fixpoint updated_loop (amount : Z) (updated_messages : list string)
  (self : BettingEngine) : option (bet_result * BettingEngine) :=
  match updated_messages with
  | [] => None
  | updated_text :: rest =>
      let updated_lower := Text.lower updated_text in
      if Text.contains "you won" updated_lower then
        let win_amount :=
          match Text.search_won updated_lower with
          | Some group1 => inl (Text.remove_char "," group1)
          | None => inr (amount * 2)%Z
          end in
        Some (BetWon win_amount, record_win self)
      else if Text.contains "lost it all" updated_lower then
        Some (BetLost, record_loss self)
      else updated_loop amount rest self
  end.

(** How a loop of [place_coinflip_bet] ends. *)
Inductive loop_end :=
| Returns (r : bet_result) (self : BettingEngine)
| Falls_through
| Raises.

(** The [for message_text in messages] loop of the first pass; each message
    about the coin flip costs one more fetch. *)
Fixpoint messages_loop (client : Client) (amount : Z) (messages : list string)
  (w : World) (self : BettingEngine) : loop_end * World :=
  match messages with
  | [] => (Falls_through, w)
  | message_text :: rest =>
      let message_lower := Text.lower message_text in
      if Text.contains "spent" message_lower
         && Text.contains "coin spins" message_lower
      then
        let (r, w) := fetch client 5 w in
        match r with
        | Batch updated_messages =>
            match updated_loop amount updated_messages self with
            | Some (res, self) => (Returns res self, w)
            | None => messages_loop client amount rest w self
            end
        | Raise => (Raises, w)
        end
      else messages_loop client amount rest w self
  end.

(** The [for message_text in final_messages] loop of the last pass. *)
Fixpoint final_loop (amount : Z) (final_messages : list string)
  (self : BettingEngine) : option (bet_result * BettingEngine) :=
  match final_messages with
  | [] => None
  | message_text :: rest =>
      let message_lower := Text.lower message_text in
      if Text.contains "you won" message_lower
         && Text.contains (Text.str amount) message_text
      then Some (BetWon (inr (amount * 2)%Z), record_win self)
      else if Text.contains "lost it all" message_lower
              && Text.contains (Text.str amount) message_text
      then Some (BetLost, record_loss self)
      else final_loop amount rest self
  end.

Definition place_coinflip_bet (client : Client) (amount : Q) (w : World)
  (self : BettingEngine) : bet_result * World * BettingEngine :=
  let amount := Py.round amount in
  let self := set_current_bet amount self in
  let self := set_total_bets (total_bets self + 1) self in
  let w := send_command ("w cf " ++ Text.str amount) "bet" w in
  let (r, w) := fetch client 5 w in
  match r with
  | Raise => (BetUnknown, w, self)
  | Batch messages =>
      match messages_loop client amount messages w self with
      | (Returns res self, w) => (res, w, self)
      | (Raises, w) => (BetUnknown, w, self)
      | (Falls_through, w) =>
          let (r, w) := fetch client 10 w in
          match r with
          | Raise => (BetUnknown, w, self)
          | Batch final_messages =>
              match final_loop amount final_messages self with
              | Some (res, self) => (res, w, self)
              | None => (BetUnknown, w, self)
              end
          end
      end
  end.

(** ** [BettingEngine.should_stop_betting] *)

Definition should_stop_betting (config : Config) (now : Q)
  (self : BettingEngine) : bool * string :=
  if stop_loss_triggered self then (true, "Stop loss triggered")
  else if profit_target_reached self then (true, "Profit target reached")
  else if max_losses_reached self
  then (true, "Maximum consecutive losses reached")
  else if Py.leb (current_cash self) 0 then (true, "Insufficient funds")
  else if enable_session_time_limit (risk_management config)
          && Py.leb (session_time_limit_hours (risk_management config))
                    (now - session_start_time self)
  then (true, "Session time limit reached")
  else (false, "").

(** ** One pass of the loop of [DiscordCoinflipBot.run_betting_strategy] *)

(** What the verification monitor tells the loop in a pass. *)
Inductive verification := Inactive | Resolved_in_time | Timed_out.

(** The orchestrator's cap: a bet above the balance becomes the balance. *)
Definition cap_to_balance (bet_amount current_cash : Q) : Q :=
  if Py.ltb current_cash bet_amount then current_cash else bet_amount.

Inductive pass_end :=
| Stop (reason : string)
| Verification_timeout
| Insufficient_funds
| Bet (bet_amount : Q) (result : bet_result).

Definition betting_pass (config : Config) (client : Client) (now : Q)
  (v : verification) (w : World) (self : BettingEngine)
  : pass_end * World * BettingEngine :=
  let (should_stop, reason) := should_stop_betting config now self in
  if should_stop then (Stop reason, w, self)
  else
    match v with
    | Timed_out => (Verification_timeout, w, self)
    | _ =>
        let '(cash, w, self) := check_cash config client w self in
        if Py.leb cash 0 then (Insufficient_funds, w, self)
        else
          let bet_amount := inject_Z (calculate_bet_amount config self) in
          let bet_amount := cap_to_balance bet_amount cash in
          let '(result, w, self) := place_coinflip_bet client bet_amount w self in
          (Bet bet_amount result, w, self)
    end.

(** The loop, for at most [passes] passes starting with pass number [k] (the
    loop also ends when the shutdown flag is raised from outside).  [clock]
    gives the time of the stop check of each pass and [monitor] what the
    verification monitor reports in it; the trace lists how each pass
    ended, first pass first. *)
Fixpoint betting_loop (passes : nat) (config : Config) (client : Client)
  (clock : nat -> Q) (monitor : nat -> verification) (k : nat)
  (w : World) (self : BettingEngine) : list pass_end * World * BettingEngine :=
  match passes with
  | O => ([], w, self)
  | S passes' =>
      let '(e, w, self) :=
        betting_pass config client (clock k) (monitor k) w self in
      match e with
      | Bet _ _ =>
          let '(es, w, self) :=
            betting_loop passes' config client clock monitor (S k) w self in
          (e :: es, w, self)
      | _ => ([e], w, self)
      end
  end.

(** [run_betting_strategy]: the first balance check, then the loop. *)
Definition run_betting_strategy (passes : nat) (config : Config)
  (client : Client) (clock : nat -> Q) (monitor : nat -> verification)
  (w : World) (self : BettingEngine)
  : list pass_end * World * BettingEngine :=
  let '(initial_cash, w, self) := check_cash config client w self in
  if Py.leb initial_cash 0 then ([], w, self)
  else betting_loop passes config client clock monitor 0 w self.

(** ** A scripted session *)

(** A client that answers the k-th fetch with the k-th batch of a script
    and with an empty batch once the script is over. *)
Definition scripted (script : list (list string)) : Client :=
  fun k _ => Batch (nth k script []).

(** The bets of a trace, in order. *)
Fixpoint bets_of (trace : list pass_end) : list Q :=
  match trace with
  | [] => []
  | Bet bet_amount _ :: rest => bet_amount :: bets_of rest
  | _ :: rest => bets_of rest
  end.

(** The default configuration with the max-bet limit switched off. *)
Definition config_no_limit : Config := {|
  betting := betting get_default_config;
  risk_management := {|
    enable_stop_loss := true;
    stop_loss_percentage := 50;
    enable_profit_target := false;
    profit_target_percentage := 100;
    enable_max_bet_limit := false;
    max_bet_percentage := 10;
    enable_session_time_limit := false;
    session_time_limit_hours := 24 |}
|}.

(** Balance 1000, three lost bets, one won bet, then the balance read of a
    fifth pass whose bet stays unresolved.  Each bet takes the balance read
    of its pass, the batch showing the bet and the refreshed batch showing
    its outcome. *)
Definition three_losses_then_win : list (list string) :=
  [ ["You currently have 1,000 cowoncy!"];
    ["You currently have 1,000 cowoncy!"];
    ["user spent 10 and chose heads. The coin spins..."];
    ["user spent 10 and chose heads. The coin spins... and you lost it all... :c"];
    ["You currently have 990 cowoncy!"];
    ["user spent 25 and chose heads. The coin spins..."];
    ["user spent 25 and chose heads. The coin spins... and you lost it all... :c"];
    ["You currently have 965 cowoncy!"];
    ["user spent 62 and chose heads. The coin spins..."];
    ["user spent 62 and chose heads. The coin spins... and you lost it all... :c"];
    ["You currently have 903 cowoncy!"];
    ["user spent 155 and chose heads. The coin spins..."];
    ["user spent 155 and chose heads. The coin spins... and you won 310!!"];
    ["You currently have 1,058 cowoncy!"] ].

(** ** The bet as the specification words it *)

(** The amount before any limit: a share of the balance at the start of a
    cycle, the stored bet times the loss multiplier after a loss.  The
    numbers are floats; the percentage is divided by 100 before it
    multiplies the balance, which in binary64 is not the same as dividing
    the product. *)
Definition spec_base (config : Config) (self : BettingEngine) : Q :=
  if (consecutive_losses self =? 0)%Z
  then Py.mul (current_cash self)
              (Py.div (initial_bet_percentage (betting config)) 100)
  else Py.mul (Py.float_of_int (current_bet self))
              (loss_multiplier (betting config)).

(** The upper end of the interval, [currentBalance * maxBetPercentage / 100]
    in floats, grouped in the same way. *)
Definition spec_cap (config : Config) (self : BettingEngine) : Q :=
  Py.mul (current_cash self)
         (Py.div (max_bet_percentage (risk_management config)) 100).

(** The clamp: at least the minimum bet, and at most the cap when the
    max-bet limit is enabled. *)
Definition spec_clamp (config : Config) (self : BettingEngine) (x : Q) : Q :=
  let x := Qmax x (min_bet_amount (betting config)) in
  if enable_max_bet_limit (risk_management config)
  then Qmin x (spec_cap config self)
  else x.

(** The rounded base amount, clamped: rounding first. *)
Definition spec_round_then_clamp (config : Config) (self : BettingEngine) : Q :=
  spec_clamp config self (inject_Z (Py.round (spec_base config self))).

(** The clamped base amount, rounded: rounding last. *)
Definition spec_clamp_then_round (config : Config) (self : BettingEngine) : Z :=
  Py.round (spec_clamp config self (spec_base config self)).

(** ** States used as concrete inputs *)

(** One lost bet of 100 behind, balance 1003. *)
Definition after_loss_of_100 : BettingEngine :=
  set_consecutive_losses 1 (set_current_bet 100 (set_current_cash 1003 (init 0))).

(** A fresh cycle with a balance of 4. *)
Definition balance_of_4 : BettingEngine := set_current_cash 4 (init 0).

(** A fresh cycle with a balance of 50. *)
Definition balance_of_50 : BettingEngine := set_current_cash 50 (init 0).

(** The limit switched off and a minimum bet of 100. *)
Definition config_min_100 : Config := {|
  betting := {|
    initial_bet_percentage := 1;
    loss_multiplier := 5 # 2;
    min_bet_amount := 100;
    max_consecutive_losses := 10 |};
  risk_management := risk_management config_no_limit
|}.

(** The max-bet limit switched off, a minimum bet of 1 and an initial share
    of [share] percent. *)
Definition config_share (share : Q) : Config := {|
  betting := {|
    initial_bet_percentage := share;
    loss_multiplier := 5 # 2;
    min_bet_amount := 1;
    max_consecutive_losses := 10 |};
  risk_management := risk_management config_no_limit
|}.

(** ** The stop decision as the specification words it *)

(** The checks in their priority order, each with its reason. *)
Definition stop_checks (config : Config) (now : Q) (self : BettingEngine)
  : list (bool * string) :=
  [ (stop_loss_triggered self, "Stop loss triggered");
    (profit_target_reached self, "Profit target reached");
    (max_losses_reached self, "Maximum consecutive losses reached");
    (Qle_bool (current_cash self) 0, "Insufficient funds");
    (enable_session_time_limit (risk_management config)
     && Qle_bool (session_time_limit_hours (risk_management config))
                 (now - session_start_time self),
     "Session time limit reached") ].

(** True with the reason of the first check that applies, false with the
    empty reason when none does. *)
Fixpoint first_applicable (checks : list (bool * string)) : bool * string :=
  match checks with
  | [] => (false, "")
  | (true, reason) :: _ => (true, reason)
  | (false, _) :: rest => first_applicable rest
  end.

(** ** Sessions: sequences of engine operations *)

Inductive operation :=
| Check_cash
| Place_coinflip_bet (amount : Q)
| Check_risk_conditions
| Betting_pass (now : Q) (v : verification).

(** One operation; the list holds the result of the bet it placed, if it
    placed one. *)
Definition perform (config : Config) (client : Client) (op : operation)
  (w : World) (self : BettingEngine) : list bet_result * World * BettingEngine :=
  match op with
  | Check_cash =>
      let '(_, w, self) := check_cash config client w self in ([], w, self)
  | Place_coinflip_bet amount =>
      let '(r, w, self) := place_coinflip_bet client amount w self in
      ([r], w, self)
  | Check_risk_conditions => ([], w, _check_risk_conditions config self)
  | Betting_pass now v =>
      let '(e, w, self) := betting_pass config client now v w self in
      match e with
      | Bet _ r => ([r], w, self)
      | _ => ([], w, self)
      end
  end.

(** A session: the operations in order, with the results of all bets. *)
Fixpoint session (config : Config) (client : Client) (ops : list operation)
  (w : World) (self : BettingEngine) : list bet_result * World * BettingEngine :=
  match ops with
  | [] => ([], w, self)
  | op :: rest =>
      let '(rs, w, self) := perform config client op w self in
      let '(rs', w, self) := session config client rest w self in
      ((rs ++ rs')%list, w, self)
  end.

Definition is_unknown (r : bet_result) : bool :=
  match r with BetUnknown => true | _ => false end.

(** The number of bets whose outcome could not be determined. *)
Definition undetermined (rs : list bet_result) : Z :=
  Z.of_nat (List.length (filter is_unknown rs)).

(** ** Summaries of the state changes, used in the proofs *)

(** What [check_cash] does to the engine when it reads the balance [v]. *)
Definition record_balance (config : Config) (v : Q) (self : BettingEngine)
  : BettingEngine :=
  let self := set_current_cash v self in
  let self :=
    if Py.eqb (starting_balance self) 0
    then set_starting_balance (current_cash self) self
    else self in
  let self :=
    set_total_profit (Py.sub (current_cash self) (starting_balance self))
      self in
  _check_risk_conditions config self.

(** What [place_coinflip_bet] does to the engine before it looks for the
    outcome. *)
Definition record_placement (amount : Q) (self : BettingEngine)
  : BettingEngine :=
  set_total_bets (total_bets self + 1) (set_current_bet (Py.round amount) self).

(** What the outcome found does to the engine. *)
Definition record_result (r : bet_result) (self : BettingEngine)
  : BettingEngine :=
  match r with
  | BetWon _ => record_win self
  | BetLost => record_loss self
  | BetUnknown => self
  end.

Definition is_won (r : bet_result) : bool :=
  match r with BetWon _ => true | _ => false end.

Definition is_lost (r : bet_result) : bool :=
  match r with BetLost => true | _ => false end.

Definition won (rs : list bet_result) : Z :=
  Z.of_nat (List.length (filter is_won rs)).

Definition lost (rs : list bet_result) : Z :=
  Z.of_nat (List.length (filter is_lost rs)).

(** Every risk flag set in [s] is still set in [s']. *)
Definition flags_kept (s s' : BettingEngine) : Prop :=
  (stop_loss_triggered s = true -> stop_loss_triggered s' = true)
  /\ (profit_target_reached s = true -> profit_target_reached s' = true)
  /\ (max_losses_reached s = true -> max_losses_reached s' = true).

(** The counters of [s'] are those of [s] plus the bets with results [rs]. *)
Definition counted (rs : list bet_result) (s s' : BettingEngine) : Prop :=
  total_bets s' = (total_bets s + Z.of_nat (List.length rs))%Z
  /\ total_wins s' = (total_wins s + won rs)%Z
  /\ total_losses s' = (total_losses s + lost rs)%Z.

(** Started at 1000 and down to 400: the stop loss of 50 percent is hit. *)
Definition stop_loss_tripped : BettingEngine :=
  record_balance get_default_config 400
    (record_balance get_default_config 1000 (init 0)).

(** A balance read of 1000 and nothing else. *)
Definition balance_back_to_1000 : list (list string) :=
  [ ["You currently have 1,000 cowoncy!"] ].

(** A bet of 100 that no message speaks of. *)
Definition unrelated_chatter : list (list string) :=
  [ ["hello there"; "nice weather today"];
    ["hello there"; "nice weather today"] ].

(** The strategy run on that script for a number of passes. *)
Definition scenario (passes : nat) : list pass_end * World * BettingEngine :=
  run_betting_strategy passes config_no_limit (scripted three_losses_then_win)
    (fun _ => 0) (fun _ => Inactive) new_world (init 0).

(** A first balance read of 0 and a second one of 500. *)
Definition zero_then_500 : list (list string) :=
  [ ["You currently have 0 cowoncy!"];
    ["You currently have 500 cowoncy!"] ].

(** The starting balance of [s], once it is not zero, is that of [s']. *)
Definition start_kept (s s' : BettingEngine) : Prop :=
  ~ starting_balance s == 0 -> starting_balance s' = starting_balance s.

(** No message of the batch matches the balance pattern of [check_cash]:
    each lacks the currency word or a number right before it. *)
Definition no_balance_in (messages : list string) : Prop :=
  Forall (fun message_text =>
            Text.contains "cowoncy" (Text.lower message_text) = false
            \/ Text.search_cash message_text = None) messages.

(** ** The shape of a balance message *)

(** What may follow the first digit of a number: digits, and groups made of
    a comma and digits. *)
Inductive number_rest : string -> Prop :=
| rest_end : number_rest ""
| rest_digit d t :
    Text.is_digit d = true -> number_rest t -> number_rest (String d t)
| rest_group d t :
    Text.is_digit d = true -> number_rest t ->
    number_rest (String "," (String d t)).

(** A thousands-separated integer token: digits, with single commas between
    digits. *)
Inductive comma_number : string -> Prop :=
| comma_number_intro d t :
    Text.is_digit d = true -> number_rest t -> comma_number (String d t).

Fixpoint all_space (s : string) : bool :=
  match s with
  | EmptyString => true
  | String c s' => Text.is_space c && all_space s'
  end.

(** [s] ends with a digit, or with a digit and a comma: a number token put
    after [s] would not be the whole number. *)
Fixpoint ends_in_number (s : string) : bool :=
  match s with
  | EmptyString => false
  | String c s' =>
      match s' with
      | EmptyString => Text.is_digit c
      | String d s'' =>
          (Text.is_digit c && Ascii.eqb d ","
           && match s'' with EmptyString => true | _ => false end)
          || ends_in_number s'
      end
  end.

(** The character [c] occurs in [s]. *)
Fixpoint occurs (c : ascii) (s : string) : bool :=
  match s with
  | EmptyString => false
  | String a s' => Ascii.eqb a c || occurs c s'
  end.

(** A batch in which no message has the currency word. *)
Definition no_keyword_in (messages : list string) : Prop :=
  Forall (fun message_text =>
            Text.contains "cowoncy" (Text.lower message_text) = false)
         messages.

(** The text [r] cannot continue a number: it does not start with a digit
    nor with a comma. *)
Definition stops_number (r : string) : Prop :=
  match r with
  | EmptyString => True
  | String c _ => Text.is_digit c = false /\ Ascii.eqb c "," = false
  end.

(** The batch of the specification's example. *)
Definition one_balance_message : list (list string) :=
  [ ["You have 1,234,567 cowoncy"] ].

(** A balance message after a message without the currency word; the name
    before the number holds digits. *)
Definition balance_after_chatter : list (list string) :=
  [ ["good luck all"; "user42, you currently have 12,345 cowoncy!"] ].

(** The whole number that a thousands-separated token writes. *)
Definition token_value (token : string) : Z :=
  Text.int_of_digits 0 (Text.remove_char "," token).

(** A balance of [2 ** 53 + 1], which is not a binary64 value. *)
Definition balance_beyond_53_bits : list (list string) :=
  [ ["You have 9,007,199,254,740,993 cowoncy"] ].

(** ** The shape of the coin-flip messages *)

(** The message is about a coin flip: it has both phrases of the first
    pass of [place_coinflip_bet]. *)
Definition spend_phrase (message_text : string) : bool :=
  Text.contains "spent" (Text.lower message_text)
  && Text.contains "coin spins" (Text.lower message_text).

Definition no_spend_in (messages : list string) : Prop :=
  Forall (fun message_text => spend_phrase message_text = false) messages.

(** No message of the batch has a win marker or a loss marker. *)
Definition no_marker_in (messages : list string) : Prop :=
  Forall (fun message_text =>
            Text.contains "you won" (Text.lower message_text) = false
            /\ Text.contains "lost it all" (Text.lower message_text) = false)
         messages.

(** A bet of 100 shown in the first batch and won in the refreshed one. *)
Definition won_200 : list (list string) :=
  [ ["user spent 100 and chose heads. The coin spins..."];
    ["You won **200**!!"] ].

(** ** Further notions used in the statements on the engine *)

(** The stored profit is the balance minus the starting balance. *)
Definition profit_consistent (s : BettingEngine) : Prop :=
  total_profit s == Py.sub (current_cash s) (starting_balance s).

(** The losses at the start of a list of results. *)
Fixpoint leading_losses (rs : list bet_result) : nat :=
  match rs with
  | BetLost :: rs' => S (leading_losses rs')
  | _ => O
  end.

(** The length of the run of losses that ends the resolved bets of [rs]
    (bets of unknown outcome are passed over). *)
Definition trailing_losses (rs : list bet_result) : Z :=
  Z.of_nat
    (leading_losses (rev (filter (fun r => negb (is_unknown r)) rs))).

(** The loss streak [c] carried through the results [rs], used in the
    proofs. *)
Fixpoint streak_after (c : Z) (rs : list bet_result) : Z :=
  match rs with
  | [] => c
  | BetWon _ :: rs' => streak_after 0 rs'
  | BetLost :: rs' => streak_after (c + 1) rs'
  | BetUnknown :: rs' => streak_after c rs'
  end.

(** The two percentages of [_check_risk_conditions], as it computes them
    from the starting balance and from the balance or the stored profit. *)
Definition computed_loss_percentage (starting_balance current_cash : Q) : Q :=
  Py.mul (Py.div (Py.sub starting_balance current_cash) starting_balance) 100.

Definition computed_profit_percentage (starting_balance total_profit : Q) : Q :=
  Py.mul (Py.div total_profit starting_balance) 100.

(** The default configuration with a stop loss of [percentage] percent. *)
Definition config_stop_loss (percentage : Q) : Config := {|
  betting := betting get_default_config;
  risk_management := {|
    enable_stop_loss := true;
    stop_loss_percentage := percentage;
    enable_profit_target := false;
    profit_target_percentage := 100;
    enable_max_bet_limit := true;
    max_bet_percentage := 10;
    enable_session_time_limit := false;
    session_time_limit_hours := 24 |}
|}.

(** Some risk flag of [s] is set. *)
Definition flagged (s : BettingEngine) : bool :=
  stop_loss_triggered s || profit_target_reached s || max_losses_reached s.

(** Started at 1000 with nothing lost yet; the next balance read is 400. *)
Definition started_at_1000 : BettingEngine :=
  record_balance get_default_config 1000 (init 0).

Definition drop_to_400 : list (list string) :=
  [ ["You currently have 400 cowoncy!"];
    ["user spent 4 and chose heads. The coin spins..."];
    ["user spent 4 and chose heads. The coin spins... and you lost it all... :c"] ].

(** ** [BettingEngine.get_statistics] *)

(** [int(x)] on a float: the integer part, rounding toward zero. *)
Definition truncate (x : Q) : Z :=
  if Qle_bool 0 x then Qfloor x else Qceiling x.

(** [divmod(x, d)] on floats, for a positive [d]: the floor of the quotient
    and what is left. *)
Definition divmod (x d : Q) : Z * Q :=
  let q := Qfloor (x / d) in (q, x - inject_Z q * d).

(** The format [02d]: at least two characters, padded with a zero. *)
Definition pad2 (n : Z) : string :=
  if (0 <=? n)%Z && (n <? 10)%Z then "0" ++ Text.str n else Text.str n.

(** The dictionary returned by [get_statistics]. *)
Module Stats.
Record t := {
  runtime : string;
  starting_balance : Q;
  current_balance : Q;
  total_profit : Q;
  total_bets : Z;
  total_wins : Z;
  total_losses : Z;
  win_rate : Q;
  consecutive_losses : Z;
  current_bet : Z
}.
End Stats.

(** The three numbers of the runtime: hours, minutes, seconds. *)
Definition runtime_parts (now : Q) (self : BettingEngine) : Z * Z * Z :=
  let total_seconds := (now - session_start_time self) * 3600 in
  let (hours, remainder) := divmod total_seconds 3600 in
  let (minutes, seconds) := divmod remainder 60 in
  (hours, minutes, truncate seconds).

Definition get_statistics (now : Q) (self : BettingEngine) : Stats.t :=
  let '(hours, minutes, seconds) := runtime_parts now self in
  let win_rate :=
    if (0 <? total_bets self)%Z
    then Py.mul (Py.div (inject_Z (total_wins self))
                        (inject_Z (total_bets self))) 100
    else 0 in
  {| Stats.runtime := pad2 hours ++ ":" ++ pad2 minutes ++ ":" ++ pad2 seconds;
     Stats.starting_balance := starting_balance self;
     Stats.current_balance := current_cash self;
     Stats.total_profit := total_profit self;
     Stats.total_bets := total_bets self;
     Stats.total_wins := total_wins self;
     Stats.total_losses := total_losses self;
     Stats.win_rate := win_rate;
     Stats.consecutive_losses := consecutive_losses self;
     Stats.current_bet := current_bet self |}.

(** ** The last pass of [place_coinflip_bet] *)

(** The tests of the last pass on a message, for a bet of [amount]. *)
Definition final_win (amount : Z) (message_text : string) : bool :=
  Text.contains "you won" (Text.lower message_text)
  && Text.contains (Text.str amount) message_text.

Definition final_loss (amount : Z) (message_text : string) : bool :=
  Text.contains "lost it all" (Text.lower message_text)
  && Text.contains (Text.str amount) message_text.

(** No message of the batch decides the last pass for a bet of [amount]. *)
Definition no_decision_in (amount : Z) (messages : list string) : Prop :=
  Forall (fun message_text =>
            final_win amount message_text = false
            /\ final_loss amount message_text = false) messages.

(** A bet that the first batch does not show, with one message in the last
    batch. *)
Definition last_batch_of_one (message_text : string) : list (list string) :=
  [ ["nice weather today"]; [message_text] ].

(** A bet of 100 shown in the first batch; the refreshed batch has a
    message with both markers and no payout to extract. *)
Definition both_markers : list (list string) :=
  [ ["user spent 100 and chose heads. The coin spins..."];
    ["lol you won? i lost it all"] ].

(** A bet of 100 that the first batch does not show; the last batch has a
    loss message without the amount, then a win message of an older bet
    that happens to hold the digits 100. *)
Definition old_win_with_100 : list (list string) :=
  [ ["nice weather today"];
    ["and you lost it all... :c"; "you won 1,100!!"] ].

(** A page that always shows the same two messages. *)
Definition quiet_page : nat -> option (list string) :=
  fun _ => Some ["nice weather today"; "hello there"].

(** ** [DiscordClient.send_random_command] *)

(** [config["automation"]] *)
Record Automation := {
  enable_random_commands : bool;
  random_command_chance : Q;
  random_command_cooldown : Q;
  bet_delay_min : Q;
  bet_delay_max : Q;
  command_delay_min : Q;
  command_delay_max : Q
}.

Definition default_automation : Automation := {|
  enable_random_commands := true;
  random_command_chance := 3 # 10;
  random_command_cooldown := 15;
  bet_delay_min := 8;
  bet_delay_max := 15;
  command_delay_min := 1;
  command_delay_max := 4
|}.

(** The dictionary [last_command_time]: keys in insertion order.  A lookup
    of a missing key is [None], where Python raises [KeyError]. *)
Fixpoint dict_get (d : list (string * Q)) (k : string) : option Q :=
  match d with
  | [] => None
  | (k', v) :: d' => if String.eqb k' k then Some v else dict_get d' k
  end.

(** [d[k] = v]: the value of an existing key is replaced, a new key goes
    to the end. *)
Fixpoint dict_set (d : list (string * Q)) (k : string) (v : Q)
  : list (string * Q) :=
  match d with
  | [] => [(k, v)]
  | (k', v') :: d' =>
      if String.eqb k' k then (k, v) :: d' else (k', v') :: dict_set d' k v
  end.

(** The part of the client that [send_random_command] reads and writes. *)
Record DiscordClient := {
  last_command_time : list (string * Q)
}.

(** [DiscordClient.__init__] *)
Definition new_client : DiscordClient :=
  {| last_command_time := [("w b", 0); ("w h", 0)] |}.

(** The loop over the two commands that collects those off cooldown. *)
Fixpoint available_loop (cooldown current_time : Q) (self : DiscordClient)
  (commands : list string) : option (list string) :=
  match commands with
  | [] => Some []
  | cmd :: rest =>
      match dict_get (last_command_time self) cmd with
      | None => None
      | Some last =>
          match available_loop cooldown current_time self rest with
          | None => None
          | Some available =>
              if Py.leb cooldown (current_time - last)
              then Some (cmd :: available)
              else Some available
          end
      end
  end.

(** [send_random_command] at the time [current_time]; [pick] stands for
    the draw of [random.choice].  [None] stands for a raised [KeyError]. *)
Definition send_random_command (automation : Automation) (current_time : Q)
  (pick : nat) (w : World) (self : DiscordClient)
  : option (bool * World * DiscordClient) :=
  if negb (enable_random_commands automation) then Some (false, w, self)
  else
    let cooldown := random_command_cooldown automation in
    match available_loop cooldown current_time self ["w b"; "w h"] with
    | None => None
    | Some [] => Some (false, w, self)
    | Some available_commands =>
        let chosen_command :=
          nth (pick mod List.length available_commands) available_commands "" in
        let self :=
          {| last_command_time :=
               dict_set (last_command_time self) chosen_command current_time |} in
        Some (true, send_command chosen_command "random" w, self)
    end.

(** A run of calls, each with its time and its draw; the result lists the
    commands sent with their times, first call first. *)
Fixpoint random_commands (automation : Automation) (calls : list (Q * nat))
  (w : World) (self : DiscordClient)
  : option (list (Q * string) * World * DiscordClient) :=
  match calls with
  | [] => Some ([], w, self)
  | (current_time, pick) :: rest =>
      match send_random_command automation current_time pick w self with
      | None => None
      | Some (was_sent, w', self') =>
          match random_commands automation rest w' self' with
          | None => None
          | Some (events, w'', self'') =>
              let events :=
                if was_sent
                then
                  match sent w' with
                  | (command, _) :: _ => (current_time, command) :: events
                  | [] => events
                  end
                else events in
              Some (events, w'', self'')
          end
      end
  end.

(** Any two sends of one command are at least [cooldown] apart. *)
Fixpoint separated (cooldown : Q) (events : list (Q * string)) : Prop :=
  match events with
  | [] => True
  | (t, c) :: rest =>
      Forall (fun e => snd e = c -> cooldown <= fst e - t) rest
      /\ separated cooldown rest
  end.

(** The dictionary has both commands. *)
Definition has_both_keys (self : DiscordClient) : Prop :=
  dict_get (last_command_time self) "w b" <> None
  /\ dict_get (last_command_time self) "w h" <> None.

(** ** Regular expressions, for [re.search] used as a truth value *)

Module Re.

(** Patterns without anchors, groups to refer back to or look-around: for
    these [re.search(p, s)] is true exactly when some part of [s] is in the
    language of [p], which matching by derivatives decides. *)
Inductive regex :=
| Never
| Empty
| Class (p : ascii -> bool)
| Seq (r1 r2 : regex)
| Or (r1 r2 : regex)
| Many (r : regex).

Fixpoint nullable (r : regex) : bool :=
  match r with
  | Never => false
  | Empty => true
  | Class _ => false
  | Seq r1 r2 => nullable r1 && nullable r2
  | Or r1 r2 => nullable r1 || nullable r2
  | Many _ => true
  end.

Fixpoint deriv (c : ascii) (r : regex) : regex :=
  match r with
  | Never => Never
  | Empty => Never
  | Class p => if p c then Empty else Never
  | Seq r1 r2 =>
      if nullable r1
      then Or (Seq (deriv c r1) r2) (deriv c r2)
      else Seq (deriv c r1) r2
  | Or r1 r2 => Or (deriv c r1) (deriv c r2)
  | Many r1 => Seq (deriv c r1) (Many r1)
  end.

(** The whole of [s] is in the language of [r]. *)
Fixpoint matches (r : regex) (s : string) : bool :=
  match s with
  | EmptyString => nullable r
  | String c s' => matches (deriv c r) s'
  end.

Definition anything : regex := Many (Class (fun _ => true)).

(** [re.search(r, s)] as a truth value. *)
Definition search (r : regex) (s : string) : bool :=
  matches (Seq anything (Seq r anything)) s.

(** A character of the pattern under [re.IGNORECASE] (the patterns are in
    lower case). *)
Definition char (c : ascii) : regex :=
  Class (fun x => Ascii.eqb (Text.lower_char x) c).

(** A literal piece of a pattern. *)
Fixpoint lit (s : string) : regex :=
  match s with
  | EmptyString => Empty
  | String c s' => Seq (char c) (lit s')
  end.

(** One or more. *)
Definition plus (r : regex) : regex := Seq r (Many r).

(** The dot: any character but the line feed. *)
Definition dot : regex := Class (fun x => negb (Ascii.eqb x "010")).

(** The class of word characters on ASCII text: letters, digits and the
    underscore. *)
Definition word : regex :=
  Class (fun x =>
           Text.is_digit x || Text.is_upper x
           || ((97 <=? nat_of_ascii x)%nat && (nat_of_ascii x <=? 122)%nat)
           || Ascii.eqb x "_").

Definition digit : regex := Class Text.is_digit.
Definition space : regex := Class Text.is_space.

End Re.

(** ** [VerificationMonitor] *)

(** [config["verification"]] *)
Record Verification := {
  enable_verification_protection : bool;
  verification_check_interval : Q;
  enable_verification_alerts : bool
}.

Definition default_verification : Verification := {|
  enable_verification_protection := true;
  verification_check_interval := 5;
  enable_verification_alerts := true
|}.

(** [self.verification_patterns] *)
Definition verification_patterns : list Re.regex :=
  [ Re.Seq (Re.char "@")
      (Re.Seq (Re.plus Re.word)
         (Re.Seq (Re.char ",")
            (Re.Seq (Re.Many Re.space)
               (Re.Seq (Re.lit "are you a real human?")
                  (Re.Seq (Re.Many Re.dot) (Re.lit "verify"))))));
    Re.lit "please use the link below so i can check";
    Re.Seq (Re.lit "please complete this within ")
      (Re.Seq (Re.plus Re.digit) (Re.lit " minutes"));
    Re.Seq (Re.lit "verify")
      (Re.Seq (Re.Many Re.dot)
         (Re.Seq (Re.lit "within")
            (Re.Seq (Re.Many Re.dot)
               (Re.Seq (Re.lit "minutes")
                  (Re.Seq (Re.Many Re.dot) (Re.lit "ban")))))) ].

(** The [for pattern in self.verification_patterns] loop. *)
Fixpoint pattern_loop (patterns : list Re.regex) (message_lower : string)
  : bool :=
  match patterns with
  | [] => false
  | pattern :: rest =>
      if Re.search pattern message_lower then true
      else pattern_loop rest message_lower
  end.

(** The test on keyword combinations. *)
Definition keyword_combination (message_text : string) : bool :=
  let message_lower := Text.lower message_text in
  (Text.contains "human" message_lower && Text.contains "verify" message_lower)
  || (Text.contains "@" message_text
      && Text.contains "verify" message_lower
      && Text.contains "minutes" message_lower).

(** The [for message_text in messages] loop of [check_for_verification]. *)
Fixpoint verification_loop (messages : list string) : bool :=
  match messages with
  | [] => false
  | message_text :: rest =>
      let message_lower := Text.lower message_text in
      if pattern_loop verification_patterns message_lower then true
      else if keyword_combination message_text then true
      else verification_loop rest
  end.

Definition check_for_verification (verification : Verification)
  (client : Client) (w : World) : bool * World :=
  if negb (enable_verification_protection verification) then (false, w)
  else
    let (r, w) := fetch client 15 w in
    match r with
    | Batch messages => (verification_loop messages, w)
    | Raise => (false, w)
    end.

(** The state of the monitor that its loops read and write. *)
Record VerificationMonitor := {
  verification_detected : bool;
  should_stop_monitoring : bool
}.

(** The text of the alert with number [ping_count]; the first four bytes
    are the UTF-8 encoding of the siren sign. *)
Definition alert_message (ping_count : nat) : string :=
  "🚨 VERIFICATION NEEDED! CHECK DISCORD NOW! (Alert #"
  ++ Text.str (Z.of_nat ping_count) ++ ")".

(** The [while] loop of [_alert_loop], with [remaining] the number of
    alerts left before [max_pings] and [stop k] the value of
    [should_stop_monitoring] read when [k] alerts have been sent (another
    thread sets it).  Returns the number of alerts sent. *)
Fixpoint alert_while (verification : Verification) (client : Client)
  (stop : nat -> bool) (remaining ping_count : nat) (w : World)
  (self : VerificationMonitor) : nat * World * VerificationMonitor :=
  match remaining with
  | O => (ping_count, w, self)
  | S remaining' =>
      if stop ping_count then (ping_count, w, self)
      else
        let (found, w) := check_for_verification verification client w in
        if found then
          let ping_count := S ping_count in
          let w := send_command (alert_message ping_count) "alert" w in
          alert_while verification client stop remaining' ping_count w self
        else if verification_detected self then
          (ping_count, w,
           {| verification_detected := false;
              should_stop_monitoring := should_stop_monitoring self |})
        else (ping_count, w, self)
  end.

(** [_alert_loop]: [max_pings] is 50. *)
Definition _alert_loop (verification : Verification) (client : Client)
  (stop : nat -> bool) (w : World) (self : VerificationMonitor)
  : nat * World * VerificationMonitor :=
  alert_while verification client stop 50 0 w self.

(** The message of the specification's example. *)
Definition verify_or_ban : list (list string) :=
  [ ["nice weather today";
     "Please verify within 10 minutes or you will be banned"] ].

(** A message that [check_for_verification] takes for a verification
    request: one of the patterns is found in its lower-case text, or it has
    one of the keyword combinations. *)
Definition verification_hit (message_text : string) : Prop :=
  (exists pattern,
      In pattern verification_patterns
      /\ Re.search pattern (Text.lower message_text) = true)
  \/ keyword_combination message_text = true.

(** The alerts with the numbers [1] to [n], latest first, as they stand in
    the list of sent commands. *)
Definition alerts_sent (first n : nat) : list (string * string) :=
  map (fun k => (alert_message k, "alert")) (rev (seq first n)).

(** A client whose page always shows the verification request. *)
Definition always_asking : Client :=
  fun _ _ => Batch ["@user, are you a real human? Please verify"].

(** ** The choice of a configuration in [ConfigManager.load_config] *)

(** [s.rstrip()] and [s.strip()] on ASCII text. *)
Fixpoint rstrip (s : string) : string :=
  match s with
  | EmptyString => EmptyString
  | String c s' =>
      match rstrip s' with
      | EmptyString => if Text.is_space c then EmptyString else String c EmptyString
      | r => String c r
      end
  end.

Definition strip (s : string) : string := rstrip (Text.skip_spaces s).

(** The digits of an [int] literal after a digit: digits, each one
    possibly after a single underscore. *)
Fixpoint int_tail (acc : Z) (s : string) : option Z :=
  match s with
  | EmptyString => Some acc
  | String c s' =>
      if Text.is_digit c then int_tail (10 * acc + Text.digit_value c) s'
      else if Ascii.eqb c "_" then
        match s' with
        | String d s'' =>
            if Text.is_digit d
            then int_tail (10 * acc + Text.digit_value d) s''
            else None
        | EmptyString => None
        end
      else None
  end.

Definition int_digits (s : string) : option Z :=
  match s with
  | String d s' =>
      if Text.is_digit d then int_tail (Text.digit_value d) s' else None
  | EmptyString => None
  end.

(** [int(s)] on a stripped ASCII string: an optional sign and decimal
    digits; [None] stands for [ValueError]. *)
Definition py_int (s : string) : option Z :=
  match s with
  | String c s' =>
      if Ascii.eqb c "+" then int_digits s'
      else if Ascii.eqb c "-" then option_map Z.opp (int_digits s')
      else int_digits s
  | EmptyString => None
  end.

(** [l[i]]: a negative index counts from the end; [None] stands for
    [IndexError]. *)
Definition py_index {A : Type} (l : list A) (i : Z) : option A :=
  let n := Z.of_nat (List.length l) in
  if (0 <=? i)%Z then nth_error l (Z.to_nat i)
  else if (- n <=? i)%Z then nth_error l (Z.to_nat (n + i))
  else None.

(** The name chosen by [load_config] from the sorted list [configs] for
    what the user typed; [None] stands for the [IndexError] raised by
    [configs[0]] on an empty list. *)
Definition chosen_config (typed : string) (configs : list string)
  : option string :=
  let choice := strip typed in
  let idx :=
    match choice with
    | EmptyString => Some 0%Z
    | _ => option_map (fun n => (n - 1)%Z) (py_int choice)
    end in
  match idx with
  | Some i =>
      match py_index configs i with
      | Some config_name => Some config_name
      | None => hd_error configs
      end
  | None => hd_error configs
  end.

(** ** The rest of a pass of [run_betting_strategy] *)

(** [config["logging"]] *)
Record Logging := {
  log_level : string;
  log_statistics_interval : Z;
  enable_file_logging : bool;
  enable_console_logging : bool
}.

Definition default_logging : Logging := {|
  log_level := "INFO";
  log_statistics_interval := 10;
  enable_file_logging := true;
  enable_console_logging := true
|}.

(** What the loop logs about a resolved bet. *)
Inductive result_note :=
| Recovery_successful (losses : Z)
| Continuing_winning_streak
| Loss_streak (losses : Z).

(** The branches of [if result:] after a resolved bet. *)
Definition note_result (won : bool) (self : BettingEngine) : result_note :=
  if won then
    if (0 <? consecutive_losses self)%Z
    then Recovery_successful (consecutive_losses self)
    else Continuing_winning_streak
  else Loss_streak (consecutive_losses self).

(** What a pass takes from outside for its random command: the value of
    [random.random()], the time and the draw of [random.choice]. *)
Record Draw := {
  random_value : Q;
  time_value : Q;
  choice_index : nat
}.

(** The state of the loop: the client side, the engine, the Discord client,
    the local [bet_count], the notes logged (latest first) and the values
    of [bet_count] at which [log_statistics] was called (latest first). *)
Record Bot := {
  bot_world : World;
  bot_engine : BettingEngine;
  bot_client : DiscordClient;
  bet_count : Z;
  notes : list result_note;
  statistics_logged : list Z
}.

Definition new_bot (now : Q) : Bot := {|
  bot_world := new_world;
  bot_engine := init now;
  bot_client := new_client;
  bet_count := 0;
  notes := [];
  statistics_logged := []
|}.

(** How a pass leaves the loop body: on to the next pass, out by [break],
    or out by an exception, which the [except] around the loop catches. *)
Inductive pass_step :=
| Goes_on
| Breaks (e : pass_end)
| Fails.

(** A whole pass of the loop: the bet as in [betting_pass], then the note
    on the result, the count of resolved bets, the statistics every
    [log_statistics_interval] resolved bets (a [%] by zero raises) and the
    random command. *)
Definition strategy_pass (config : Config) (automation : Automation)
  (logging : Logging) (client : Client) (now : Q) (v : verification)
  (draw : Draw) (bot : Bot) : pass_step * Bot :=
  let '(e, w, self) :=
    betting_pass config client now v (bot_world bot) (bot_engine bot) in
  match e with
  | Bet _ result =>
      match returned result with
      | None =>
          (Goes_on,
           {| bot_world := w; bot_engine := self;
              bot_client := bot_client bot; bet_count := bet_count bot;
              notes := notes bot;
              statistics_logged := statistics_logged bot |})
      | Some won =>
          let notes := note_result won self :: notes bot in
          let bet_count := (bet_count bot + 1)%Z in
          if (log_statistics_interval logging =? 0)%Z then
            (Fails,
             {| bot_world := w; bot_engine := self;
                bot_client := bot_client bot; bet_count := bet_count;
                notes := notes;
                statistics_logged := statistics_logged bot |})
          else
            let statistics_logged :=
              if (bet_count mod log_statistics_interval logging =? 0)%Z
              then bet_count :: statistics_logged bot
              else statistics_logged bot in
            if enable_random_commands automation
               && Py.ltb (random_value draw) (random_command_chance automation)
            then
              match send_random_command automation (time_value draw)
                      (choice_index draw) w (bot_client bot) with
              | Some (_, w, discord) =>
                  (Goes_on,
                   {| bot_world := w; bot_engine := self;
                      bot_client := discord; bet_count := bet_count;
                      notes := notes;
                      statistics_logged := statistics_logged |})
              | None =>
                  (Fails,
                   {| bot_world := w; bot_engine := self;
                      bot_client := bot_client bot; bet_count := bet_count;
                      notes := notes;
                      statistics_logged := statistics_logged |})
              end
            else
              (Goes_on,
               {| bot_world := w; bot_engine := self;
                  bot_client := bot_client bot; bet_count := bet_count;
                  notes := notes;
                  statistics_logged := statistics_logged |})
      end
  | _ =>
      (Breaks e,
       {| bot_world := w; bot_engine := self;
          bot_client := bot_client bot; bet_count := bet_count bot;
          notes := notes bot;
          statistics_logged := statistics_logged bot |})
  end.

(** The loop of whole passes, for at most [passes] passes from pass [k]. *)
Fixpoint strategy_loop (passes : nat) (config : Config)
  (automation : Automation) (logging : Logging) (client : Client)
  (clock : nat -> Q) (monitor : nat -> verification) (draws : nat -> Draw)
  (k : nat) (bot : Bot) : pass_step * Bot :=
  match passes with
  | O => (Goes_on, bot)
  | S passes' =>
      let (step, bot) :=
        strategy_pass config automation logging client (clock k) (monitor k)
          (draws k) bot in
      match step with
      | Goes_on =>
          strategy_loop passes' config automation logging client clock
            monitor draws (S k) bot
      | _ => (step, bot)
      end
  end.

(** The bets resolved so far, as the engine counts them. *)
Definition resolved (self : BettingEngine) : Z :=
  (total_wins self + total_losses self)%Z.

(** Three bets of 10, each lost, with a balance of 1000 before each. *)
Definition three_lost_bets : list (list string) :=
  [ ["You currently have 1,000 cowoncy!"];
    ["user spent 10 and chose heads. The coin spins..."];
    ["user spent 10 and chose heads. The coin spins... and you lost it all... :c"];
    ["You currently have 1,000 cowoncy!"];
    ["user spent 25 and chose heads. The coin spins..."];
    ["user spent 25 and chose heads. The coin spins... and you lost it all... :c"];
    ["You currently have 1,000 cowoncy!"];
    ["user spent 62 and chose heads. The coin spins..."];
    ["user spent 62 and chose heads. The coin spins... and you lost it all... :c"] ].

Definition no_random_command : Draw :=
  {| random_value := 1; time_value := 0; choice_index := 0 |}.

Definition logging_every (interval : Z) : Logging := {|
  log_level := "INFO";
  log_statistics_interval := interval;
  enable_file_logging := true;
  enable_console_logging := true
|}.

(** [run_betting_strategy] with whole passes: the first balance check, then
    the loop.  When the first check finds no balance the method returns at
    once, which is noted here like a break for lack of funds. *)
Definition run_whole_strategy (passes : nat) (config : Config)
  (automation : Automation) (logging : Logging) (client : Client)
  (clock : nat -> Q) (monitor : nat -> verification) (draws : nat -> Draw)
  (bot : Bot) : pass_step * Bot :=
  let '(initial_cash, w, self) :=
    check_cash config client (bot_world bot) (bot_engine bot) in
  let bot :=
    {| bot_world := w; bot_engine := self;
       bot_client := bot_client bot; bet_count := bet_count bot;
       notes := notes bot;
       statistics_logged := statistics_logged bot |} in
  if Py.leb initial_cash 0 then (Breaks Insufficient_funds, bot)
  else
    strategy_loop passes config automation logging client clock monitor
      draws 0 bot.

(** The run of three lost bets with statistics every [interval] bets. *)
Definition three_losses_run (interval : Z) : pass_step * Bot :=
  run_whole_strategy 3 config_no_limit default_automation
    (logging_every interval)
    (scripted (["You currently have 1,000 cowoncy!"] :: three_lost_bets))
    (fun _ => 0) (fun _ => Inactive) (fun _ => no_random_command)
    (new_bot 0).

(** How the counts, notes and statistics of [bot'] stand to those of [bot]
    after passes that ended with [step], for statistics every [interval]
    resolved bets. *)
Definition passes_relation (interval : Z) (bot : Bot) (step : pass_step)
  (bot' : Bot) : Prop :=
  (bet_count bot <= bet_count bot')%Z
  /\ (bet_count bot' - bet_count bot
      = resolved (bot_engine bot') - resolved (bot_engine bot))%Z
  /\ (forall losses,
         In (Recovery_successful losses) (notes bot') ->
         In (Recovery_successful losses) (notes bot))
  /\ (interval = 0%Z ->
      (bet_count bot' <= bet_count bot + 1)%Z
      /\ statistics_logged bot' = statistics_logged bot
      /\ (bet_count bot' = (bet_count bot + 1)%Z -> step = Fails))
  /\ (interval <> 0%Z ->
      forall c,
        In c (statistics_logged bot')
        <-> In c (statistics_logged bot)
            \/ ((bet_count bot < c <= bet_count bot')%Z
                /\ (c mod interval = 0)%Z)).

(** ** [ConfigManager.create_config], the groups the engine reads *)

(** What the user types at the prompts of [create_config], in their order.
    The two percentages after a yes-or-no question are asked only after a
    yes. *)
Record Answers := {
  typed_bet_percentage : string;
  typed_multiplier : string;
  typed_max_losses : string;
  typed_stop_loss : string;
  typed_stop_loss_percentage : string;
  typed_profit_target : string;
  typed_profit_target_percentage : string;
  typed_max_bet : string
}.

Section Create_config.

(** [float(s)] on a stripped string, a binary64 value; [None] stands for
    [ValueError]. *)
Variable float_of : string -> option Q.

(** A prompt for a float: nothing typed or something that does not parse
    keeps the current value. *)
Definition ask_float (typed : string) (current : Q) : Q :=
  match strip typed with
  | EmptyString => current
  | answer =>
      match float_of answer with
      | Some x => x
      | None => current
      end
  end.

Definition ask_int (typed : string) (current : Z) : Z :=
  match strip typed with
  | EmptyString => current
  | answer =>
      match py_int answer with
      | Some n => n
      | None => current
      end
  end.

(** [input(...).strip().lower() in ['y', 'yes']] *)
Definition said_yes (typed : string) : bool :=
  let answer := Text.lower (strip typed) in
  String.eqb answer "y" || String.eqb answer "yes".

(** The betting and risk-management groups of the configuration that
    [create_config] builds from the default one. *)
Definition create_config (answers : Answers) : Config :=
  let config := get_default_config in
  let stop_loss := said_yes (typed_stop_loss answers) in
  let profit_target := said_yes (typed_profit_target answers) in
  {| betting := {|
       initial_bet_percentage :=
         ask_float (typed_bet_percentage answers)
           (initial_bet_percentage (betting config));
       loss_multiplier :=
         ask_float (typed_multiplier answers)
           (loss_multiplier (betting config));
       min_bet_amount := min_bet_amount (betting config);
       max_consecutive_losses :=
         ask_int (typed_max_losses answers)
           (max_consecutive_losses (betting config)) |};
     risk_management := {|
       enable_stop_loss := stop_loss;
       stop_loss_percentage :=
         if stop_loss
         then ask_float (typed_stop_loss_percentage answers)
                (stop_loss_percentage (risk_management config))
         else stop_loss_percentage (risk_management config);
       enable_profit_target := profit_target;
       profit_target_percentage :=
         if profit_target
         then ask_float (typed_profit_target_percentage answers)
                (profit_target_percentage (risk_management config))
         else profit_target_percentage (risk_management config);
       enable_max_bet_limit :=
         enable_max_bet_limit (risk_management config);
       max_bet_percentage :=
         ask_float (typed_max_bet answers)
           (max_bet_percentage (risk_management config));
       enable_session_time_limit :=
         enable_session_time_limit (risk_management config);
       session_time_limit_hours :=
         session_time_limit_hours (risk_management config) |} |}.

End Create_config.

(** The default configuration with the stop loss switched off. *)
Definition default_without_stop_loss : Config := {|
  betting := betting get_default_config;
  risk_management := {|
    enable_stop_loss := false;
    stop_loss_percentage := 50;
    enable_profit_target := false;
    profit_target_percentage := 100;
    enable_max_bet_limit := true;
    max_bet_percentage := 10;
    enable_session_time_limit := false;
    session_time_limit_hours := 24 |}
|}.

(** Nothing but white space typed at a prompt. *)
Definition nothing_typed (typed : string) : Prop := strip typed = "".

(** The return key at every prompt. *)
Definition all_enter : Answers := {|
  typed_bet_percentage := "";
  typed_multiplier := "";
  typed_max_losses := "";
  typed_stop_loss := "";
  typed_stop_loss_percentage := "";
  typed_profit_target := "";
  typed_profit_target_percentage := "";
  typed_max_bet := ""
|}.

Definition is_recovery (note : result_note) : bool :=
  match note with Recovery_successful _ => true | _ => false end.

(** * Proofs *)

(** ** Comparisons, [max], [min] and [round] *)

Lemma ltb_spec (a b : Q) : Py.ltb a b = true <-> a < b.
Proof.
  unfold Py.ltb. rewrite Qlt_alt.
  destruct (Qcompare a b); split; congruence.
Qed.

Lemma ltb_false (a b : Q) : Py.ltb a b = false <-> b <= a.
Proof.
  unfold Py.ltb. rewrite Qle_alt, <- Qgt_alt, Qlt_alt.
  destruct (Qcompare a b); split; congruence.
Qed.

Lemma leb_spec (a b : Q) : Py.leb a b = true <-> a <= b.
Proof.
  unfold Py.leb. rewrite Qle_alt.
  destruct (Qcompare a b); split; congruence.
Qed.

Lemma leb_false (a b : Q) : Py.leb a b = false <-> b < a.
Proof.
  unfold Py.leb. rewrite Qgt_alt.
  destruct (Qcompare a b); split; congruence.
Qed.

Lemma eqb_spec (a b : Q) : Py.eqb a b = true <-> a == b.
Proof.
  unfold Py.eqb. rewrite Qeq_alt.
  destruct (Qcompare a b); split; congruence.
Qed.

Lemma max_is_Qmax (a b : Q) : Py.max a b == Qmax a b.
Proof.
  unfold Py.max. destruct (Py.ltb a b) eqn:E.
  - apply ltb_spec in E. symmetry. apply Q.max_r. now apply Qlt_le_weak.
  - apply ltb_false in E. symmetry. now apply Q.max_l.
Qed.

Lemma min_is_Qmin (a b : Q) : Py.min a b == Qmin a b.
Proof.
  unfold Py.min. destruct (Py.ltb b a) eqn:E.
  - apply ltb_spec in E. symmetry. apply Q.min_r. now apply Qlt_le_weak.
  - apply ltb_false in E. symmetry. now apply Q.min_l.
Qed.

Lemma round_comp (x y : Q) : x == y -> Py.round x = Py.round y.
Proof.
  intros E. unfold Py.round.
  rewrite (Qfloor_comp _ _ E).
  assert (C : Qcompare (x - inject_Z (Qfloor y)) (1 # 2)
              = Qcompare (y - inject_Z (Qfloor y)) (1 # 2))
    by (apply Qcompare_comp; [now rewrite E | reflexivity]).
  now rewrite C.
Qed.

Lemma round_whole (n : Z) : Py.round (inject_Z n) = n.
Proof.
  unfold Py.round. rewrite Qfloor_Z.
  assert (C : Qcompare (inject_Z n - inject_Z n) (1 # 2) = Lt).
  { apply Qlt_alt. setoid_replace (inject_Z n - inject_Z n) with 0 by ring.
    reflexivity. }
  now rewrite C.
Qed.

(** The rounded value is the floor or the floor plus one. *)
Lemma round_floor (x : Q) :
  (Qfloor x <= Py.round x <= Qfloor x + 1)%Z.
Proof.
  unfold Py.round.
  destruct (Qcompare (x - inject_Z (Qfloor x)) (1 # 2));
    [destruct (Z.even (Qfloor x))| |]; lia.
Qed.

Lemma inject_Z_succ (n : Z) : inject_Z (n + 1) == inject_Z n + 1.
Proof. rewrite inject_Z_plus. reflexivity. Qed.

(** [round] is a nearest integer: it is within one half of its argument. *)
Lemma round_nearest (x : Q) :
  inject_Z (Py.round x) - (1 # 2) <= x <= inject_Z (Py.round x) + (1 # 2).
Proof.
  pose proof (Qfloor_le x) as Hlo.
  pose proof (Qlt_floor x) as Hhi.
  pose proof (inject_Z_succ (Qfloor x)) as Hs.
  unfold Py.round.
  destruct (Qcompare (x - inject_Z (Qfloor x)) (1 # 2)) eqn:C.
  - apply Qeq_alt in C.
    destruct (Z.even (Qfloor x)); split; lra.
  - apply Qlt_alt in C. split; lra.
  - apply Qgt_alt in C. split; lra.
Qed.

(** Turn the result of a comparison into the order fact it stands for. *)
Ltac order_of_compare H :=
  first [ apply Qeq_alt in H | apply Qlt_alt in H | apply Qgt_alt in H ].

Lemma round_mono (x y : Q) : x <= y -> (Py.round x <= Py.round y)%Z.
Proof.
  intros Hxy.
  pose proof (Qfloor_resp_le _ _ Hxy) as Hf.
  destruct (Z.eq_dec (Qfloor x) (Qfloor y)) as [E | N].
  - unfold Py.round. rewrite E.
    destruct (Qcompare (x - inject_Z (Qfloor y)) (1 # 2)) eqn:Cx;
    destruct (Qcompare (y - inject_Z (Qfloor y)) (1 # 2)) eqn:Cy;
      try (destruct (Z.even (Qfloor y))); try lia; exfalso;
      order_of_compare Cx; order_of_compare Cy; lra.
  - pose proof (round_floor x). pose proof (round_floor y). lia.
Qed.

(** ** Binary64 rounding *)

Lemma pow2_pos (e : Z) : 0 < Py.pow2 e.
Proof. apply Qpower_0_lt. reflexivity. Qed.

Lemma pow2_add (a b : Z) : Py.pow2 (a + b) == Py.pow2 a * Py.pow2 b.
Proof. apply Qpower_plus. discriminate. Qed.

Lemma pow2_le (a b : Z) : (a <= b)%Z -> Py.pow2 a <= Py.pow2 b.
Proof. intros H. apply Qpower_le_compat_l; [exact H | discriminate]. Qed.

Lemma pow2_whole (e : Z) : (0 <= e)%Z -> Py.pow2 e == inject_Z (2 ^ e).
Proof. intros H. symmetry. now apply (Zpower_Qpower 2 e). Qed.

(** Dividing by a power of two is multiplying by the opposite power. *)
Lemma div_pow2 (x : Q) (e : Z) : x / Py.pow2 e == x * Py.pow2 (- e).
Proof. unfold Py.pow2. rewrite Qpower_opp. reflexivity. Qed.

Lemma exponent_spec (x : Q) :
  0 < x -> Py.pow2 (Py.exponent x) <= x < Py.pow2 (Py.exponent x + 1).
Proof.
  intros Hx. unfold Py.exponent.
  set (a := Z.log2 (Qnum x)). set (b := Z.log2 (Z.pos (Qden x))).
  assert (Hn : (0 < Qnum x)%Z).
  { destruct x as [n d]. unfold Qlt in Hx. cbn in *. lia. }
  destruct (Z.log2_spec (Qnum x) Hn) as [Ha1 Ha2]. fold a in Ha1, Ha2.
  destruct (Z.log2_spec (Z.pos (Qden x)) eq_refl) as [Hb1 Hb2].
  fold b in Hb1, Hb2.
  assert (Ha0 : (0 <= a)%Z) by apply Z.log2_nonneg.
  assert (Hb0 : (0 <= b)%Z) by apply Z.log2_nonneg.
  assert (Ex : x == inject_Z (Qnum x) / inject_Z (Z.pos (Qden x))).
  { destruct x as [n d]. cbn [Qnum Qden]. apply Qmake_Qdiv. }
  assert (Hd : 0 < inject_Z (Z.pos (Qden x))) by reflexivity.
  assert (Lo : Py.pow2 (a - b - 1) <= x).
  { replace (a - b - 1)%Z with (a - (b + 1))%Z by lia.
    unfold Py.pow2. rewrite Qpower_minus by discriminate.
    fold (Py.pow2 a). fold (Py.pow2 (b + 1)).
    rewrite (pow2_whole a Ha0), (pow2_whole (b + 1)) by lia.
    rewrite Ex.
    apply Qle_shift_div_l; [exact Hd |].
    unfold Qdiv. rewrite <- Qmult_assoc, (Qmult_comm (/ _)), Qmult_assoc.
    apply Qle_shift_div_r.
    { change 0 with (inject_Z 0). rewrite <- Zlt_Qlt. lia. }
    rewrite <- !inject_Z_mult, <- Zle_Qle.
    replace (Z.succ b) with (b + 1)%Z in Hb2 by lia. nia. }
  assert (Hi : x < Py.pow2 (a - b + 1)).
  { replace (a - b + 1)%Z with (a + 1 - b)%Z by lia.
    unfold Py.pow2. rewrite Qpower_minus by discriminate.
    fold (Py.pow2 (a + 1)). fold (Py.pow2 b).
    rewrite (pow2_whole (a + 1)), (pow2_whole b Hb0) by lia.
    rewrite Ex.
    apply Qlt_shift_div_l.
    { change 0 with (inject_Z 0). rewrite <- Zlt_Qlt. lia. }
    unfold Qdiv. rewrite <- Qmult_assoc, (Qmult_comm (/ _)), Qmult_assoc.
    apply Qlt_shift_div_r; [exact Hd |].
    rewrite <- !inject_Z_mult, <- Zlt_Qlt.
    replace (Z.succ a) with (a + 1)%Z in Ha2 by lia. nia. }
  destruct (Py.leb (Py.pow2 (a - b)) x) eqn:E.
  - apply leb_spec in E. split; assumption.
  - apply leb_false in E. split; [exact Lo |].
    replace (a - b - 1 + 1)%Z with (a - b)%Z by lia. exact E.
Qed.

Lemma exponent_mono (x y : Q) :
  0 < x -> x <= y -> (Py.exponent x <= Py.exponent y)%Z.
Proof.
  intros Hx Hxy.
  assert (Hy : 0 < y) by lra.
  destruct (exponent_spec x Hx) as [X1 X2].
  destruct (exponent_spec y Hy) as [Y1 Y2].
  destruct (Z_le_gt_dec (Py.exponent x) (Py.exponent y)) as [L | G];
    [exact L | exfalso].
  assert (P : Py.pow2 (Py.exponent y + 1) <= Py.pow2 (Py.exponent x))
    by (apply pow2_le; lia).
  lra.
Qed.

Lemma exponent_comp (x y : Q) :
  0 < x -> x == y -> Py.exponent x = Py.exponent y.
Proof.
  intros Hx E.
  assert (Hy : 0 < y) by lra.
  pose proof (exponent_mono x y Hx ltac:(lra)).
  pose proof (exponent_mono y x Hy ltac:(lra)). lia.
Qed.

Lemma nearest_eq (x : Q) :
  Py.nearest x
  == inject_Z (Py.round (x / Py.pow2 (Py.last_place x)))
     * Py.pow2 (Py.last_place x).
Proof. unfold Py.nearest. apply Qred_correct. Qed.

Lemma nearest_comp (x y : Q) : 0 < x -> x == y -> Py.nearest x = Py.nearest y.
Proof.
  intros Hx E. unfold Py.nearest, Py.last_place.
  rewrite <- (exponent_comp x y Hx E).
  apply Qred_complete.
  rewrite (round_comp (x / _)
             (y / Py.pow2 (Z.max (Py.exponent x - 52) (-1074)))).
  - reflexivity.
  - apply Qdiv_comp; [exact E | reflexivity].
Qed.

Lemma scaled_le (x y : Q) (e : Z) : x <= y -> x / Py.pow2 e <= y / Py.pow2 e.
Proof.
  intros H. rewrite !div_pow2.
  apply Qmult_le_compat_r; [exact H |]. apply Qlt_le_weak, pow2_pos.
Qed.

(** A positive number scaled to its last place is below [2 ** 53], and at
    least [2 ** 52] unless the last place is the smallest one. *)
Lemma scaled_bounds (x : Q) :
  0 < x ->
  0 < x / Py.pow2 (Py.last_place x) < inject_Z (2 ^ 53)
  /\ ((-1074 < Py.last_place x)%Z ->
      inject_Z (2 ^ 52) <= x / Py.pow2 (Py.last_place x)).
Proof.
  intros Hx. destruct (exponent_spec x Hx) as [X1 X2].
  pose proof (pow2_pos (- Py.last_place x)) as Hp.
  pose proof (div_pow2 x (Py.last_place x)) as E.
  split; [split |]; [rewrite E .. | intros Hl; rewrite E; revert Hl].
  - apply Qmult_lt_0_compat; assumption.
  - rewrite <- (pow2_whole 53) by lia.
    apply Qlt_le_trans
      with (Py.pow2 (Py.exponent x + 1) * Py.pow2 (- Py.last_place x)).
    + apply Qmult_lt_compat_r; assumption.
    + rewrite <- pow2_add. apply pow2_le. unfold Py.last_place. lia.
  - intros Hl. rewrite <- (pow2_whole 52) by lia.
    apply Qle_trans
      with (Py.pow2 (Py.exponent x) * Py.pow2 (- Py.last_place x)).
    + rewrite <- pow2_add. apply pow2_le. unfold Py.last_place in *. lia.
    + apply Qmult_le_compat_r; [exact X1 | now apply Qlt_le_weak].
Qed.

Lemma round_bounds (x : Q) (lo hi : Z) :
  inject_Z lo <= x -> x <= inject_Z hi -> (lo <= Py.round x <= hi)%Z.
Proof.
  intros H1 H2. split.
  - rewrite <- (round_whole lo). now apply round_mono.
  - rewrite <- (round_whole hi). now apply round_mono.
Qed.

Lemma nearest_nonneg (x : Q) : 0 < x -> 0 <= Py.nearest x.
Proof.
  intros Hx. rewrite nearest_eq.
  destruct (scaled_bounds x Hx) as [[S1 S2] _].
  assert (R : (0 <= Py.round (x / Py.pow2 (Py.last_place x)) <= 2 ^ 53)%Z)
    by (apply round_bounds; [apply Qlt_le_weak; exact S1 | lra]).
  apply Qmult_le_0_compat.
  - change 0 with (inject_Z 0). rewrite <- Zle_Qle. lia.
  - apply Qlt_le_weak, pow2_pos.
Qed.

Lemma nearest_mono (x y : Q) :
  0 < x -> x <= y -> Py.nearest x <= Py.nearest y.
Proof.
  intros Hx Hxy. assert (Hy : 0 < y) by lra.
  rewrite (nearest_eq x), (nearest_eq y).
  pose proof (exponent_mono x y Hx Hxy) as He.
  destruct (scaled_bounds x Hx) as [[X1 X2] _].
  destruct (scaled_bounds y Hy) as [_ Y3].
  destruct (Z.eq_dec (Py.last_place x) (Py.last_place y)) as [E | N].
  - rewrite E. apply Qmult_le_compat_r; [| apply Qlt_le_weak, pow2_pos].
    rewrite <- Zle_Qle. apply round_mono. rewrite <- E. now apply scaled_le.
  - assert (L : (Py.last_place x + 1 <= Py.last_place y)%Z)
      by (unfold Py.last_place in *; lia).
    assert (Rx : (0 <= Py.round (x / Py.pow2 (Py.last_place x)) <= 2 ^ 53)%Z)
      by (apply round_bounds; [apply Qlt_le_weak; exact X1 | lra]).
    assert (Ry : (2 ^ 52 <= Py.round (y / Py.pow2 (Py.last_place y)))%Z).
    { rewrite <- (round_whole (2 ^ 52)). apply round_mono. apply Y3.
      unfold Py.last_place in *. lia. }
    apply Qle_trans with (inject_Z (2 ^ 53) * Py.pow2 (Py.last_place x)).
    { apply Qmult_le_compat_r; [rewrite <- Zle_Qle; lia |].
      apply Qlt_le_weak, pow2_pos. }
    apply Qle_trans with (inject_Z (2 ^ 52) * Py.pow2 (Py.last_place y)).
    2: { apply Qmult_le_compat_r; [now rewrite <- Zle_Qle |].
         apply Qlt_le_weak, pow2_pos. }
    apply Qle_trans with (inject_Z (2 ^ 52) * Py.pow2 (Py.last_place x + 1)).
    + rewrite pow2_add.
      change (Py.pow2 1) with 2.
      change (inject_Z (2 ^ 53)) with (inject_Z (2 ^ 52) * 2).
      set (p := Py.pow2 (Py.last_place x)).
      setoid_replace (inject_Z (2 ^ 52) * 2 * p)
        with (inject_Z (2 ^ 52) * (p * 2)) by ring.
      apply Qle_refl.
    + apply Qmult_le_l; [reflexivity |]. now apply pow2_le.
Qed.

Lemma fl_comp (x y : Q) : x == y -> Py.fl x = Py.fl y.
Proof.
  intros E. unfold Py.fl.
  assert (C0 : Qcompare x 0 = Qcompare y 0)
    by (apply Qcompare_comp; [exact E | reflexivity]).
  rewrite C0.
  destruct (Qcompare y 0) eqn:C; [reflexivity | |].
  - apply Qlt_alt in C. f_equal. apply nearest_comp; [lra | now rewrite E].
  - apply Qgt_alt in C. apply nearest_comp; [lra | exact E].
Qed.

Lemma fl_nonneg (x : Q) : 0 <= x -> 0 <= Py.fl x.
Proof.
  intros H. unfold Py.fl. destruct (Qcompare x 0) eqn:C.
  - apply Qle_refl.
  - apply Qlt_alt in C. lra.
  - apply Qgt_alt in C. now apply nearest_nonneg.
Qed.

Lemma fl_nonpos (x : Q) : x <= 0 -> Py.fl x <= 0.
Proof.
  intros H. unfold Py.fl. destruct (Qcompare x 0) eqn:C.
  - apply Qle_refl.
  - apply Qlt_alt in C.
    assert (N : 0 <= Py.nearest (- x)) by (apply nearest_nonneg; lra). lra.
  - apply Qgt_alt in C. lra.
Qed.

(** Rounding to binary64 keeps the order. *)
Lemma fl_mono (x y : Q) : x <= y -> Py.fl x <= Py.fl y.
Proof.
  intros H.
  destruct (Qlt_le_dec 0 x) as [Px | Nx].
  - unfold Py.fl.
    assert (Cx : Qcompare x 0 = Gt)
      by (apply (proj1 (Qgt_alt x 0)); exact Px).
    assert (Cy : Qcompare y 0 = Gt)
      by (apply (proj1 (Qgt_alt y 0)); lra).
    rewrite Cx, Cy. now apply nearest_mono.
  - destruct (Qlt_le_dec y 0) as [Ny | Py0].
    + unfold Py.fl.
      assert (Cx : Qcompare x 0 = Lt)
        by (apply (proj1 (Qlt_alt x 0)); lra).
      assert (Cy : Qcompare y 0 = Lt)
        by (apply (proj1 (Qlt_alt y 0)); exact Ny).
      rewrite Cx, Cy.
      assert (M : Py.nearest (- y) <= Py.nearest (- x))
        by (apply nearest_mono; lra).
      lra.
    + apply Qle_trans with 0; [now apply fl_nonpos | now apply fl_nonneg].
Qed.

Lemma pow2_lt_inv (a b : Z) : Py.pow2 a < Py.pow2 b -> (a < b)%Z.
Proof.
  intros H. apply (Qpower_lt_compat_l_inv 2); [exact H | reflexivity].
Qed.

Lemma Qred_whole (q : Q) (k : Z) : q == inject_Z k -> Qred q = inject_Z k.
Proof.
  intros E. rewrite (Qred_complete _ _ E).
  apply Qcanon.Qred_identity. cbn. apply Z.gcd_1_r.
Qed.

(** A value of [fl] that is a whole number is that number, numerator and
    denominator: the values of [fl] are reduced fractions. *)
Lemma fl_whole_value (x : Q) (k : Z) :
  Py.fl x == inject_Z k -> Py.fl x = inject_Z k.
Proof.
  unfold Py.fl, Py.nearest. destruct (Qcompare x 0).
  - intros E. assert (k = 0%Z) as ->; [| reflexivity].
    apply inject_Z_injective. symmetry. exact E.
  - set (q := inject_Z _ * _). intros E.
    assert (E' : Qred q == inject_Z (- k)).
    { rewrite inject_Z_opp, <- E. ring. }
    rewrite Qred_correct in E'. rewrite (Qred_whole q (- k) E').
    unfold inject_Z, Qopp. cbn [Qnum Qden]. now rewrite Z.opp_involutive.
  - set (q := inject_Z _ * _). intros E.
    rewrite Qred_correct in E. now apply Qred_whole.
Qed.

(** A positive number with at most 53 significant bits and a last place that
    binary64 has is left as it is. *)
Lemma nearest_exact (m e : Z) :
  (0 < m < 2 ^ 53)%Z -> (-1074 <= e)%Z ->
  Py.nearest (inject_Z m * Py.pow2 e) == inject_Z m * Py.pow2 e.
Proof.
  intros Hm He.
  set (x := inject_Z m * Py.pow2 e).
  assert (Hx : 0 < x).
  { apply Qmult_lt_0_compat; [| apply pow2_pos].
    change 0 with (inject_Z 0). rewrite <- Zlt_Qlt. lia. }
  destruct (exponent_spec x Hx) as [X1 _].
  assert (Hlt : x < Py.pow2 (e + 53)).
  { rewrite Z.add_comm, pow2_add. unfold x.
    apply Qmult_lt_compat_r; [apply pow2_pos |].
    rewrite (pow2_whole 53) by lia. rewrite <- Zlt_Qlt. lia. }
  assert (Hexp : (Py.exponent x < e + 53)%Z).
  { apply pow2_lt_inv. lra. }
  assert (Hlp : (Py.last_place x <= e)%Z) by (unfold Py.last_place; lia).
  rewrite nearest_eq.
  set (lp := Py.last_place x) in *. clearbody lp.
  assert (Hs : x / Py.pow2 lp == inject_Z (m * 2 ^ (e - lp))).
  { rewrite div_pow2. unfold x.
    rewrite <- Qmult_assoc, <- pow2_add.
    replace (e + - lp)%Z with (e - lp)%Z by lia.
    rewrite (pow2_whole (e - lp)) by lia. now rewrite inject_Z_mult. }
  rewrite (round_comp _ _ Hs), round_whole.
  rewrite inject_Z_mult, <- (pow2_whole (e - lp)) by lia.
  rewrite <- Qmult_assoc, <- pow2_add.
  replace (e - lp + lp)%Z with e by lia.
  reflexivity.
Qed.

Lemma sign_of_scaled (m : Z) (p : Q) :
  0 < p ->
  (inject_Z m * p < 0 -> (m < 0)%Z) /\ (0 < inject_Z m * p -> (0 < m)%Z).
Proof.
  intros Hp. split; intros C.
  - destruct (Z_lt_ge_dec m 0) as [L | G]; [exact L | exfalso].
    assert (0 <= inject_Z m)
      by (change 0 with (inject_Z 0); rewrite <- Zle_Qle; lia).
    assert (0 <= inject_Z m * p)
      by (apply Qmult_le_0_compat; [assumption | lra]).
    lra.
  - destruct (Z_lt_ge_dec 0 m) as [L | G]; [exact L | exfalso].
    assert (inject_Z m <= 0)
      by (change 0 with (inject_Z 0); rewrite <- Zle_Qle; lia).
    assert (inject_Z m * p <= 0 * p)
      by (apply Qmult_le_compat_r; [assumption | lra]).
    lra.
Qed.

Lemma fl_exact (m e : Z) :
  (Z.abs m < 2 ^ 53)%Z -> (-1074 <= e)%Z ->
  Py.fl (inject_Z m * Py.pow2 e) == inject_Z m * Py.pow2 e.
Proof.
  intros Hm He.
  destruct (sign_of_scaled m (Py.pow2 e) (pow2_pos e)) as [Sneg Spos].
  unfold Py.fl.
  destruct (Qcompare (inject_Z m * Py.pow2 e) 0) eqn:C.
  - apply Qeq_alt in C. now rewrite C.
  - apply (proj2 (Qlt_alt _ _)) in C. specialize (Sneg C).
    assert (E : - (inject_Z m * Py.pow2 e) == inject_Z (- m) * Py.pow2 e)
      by (rewrite inject_Z_opp; ring).
    assert (P : 0 < - (inject_Z m * Py.pow2 e)).
    { clear E. set (y := inject_Z m * Py.pow2 e) in *. clearbody y. lra. }
    rewrite (nearest_comp _ _ P E), nearest_exact by lia.
    rewrite inject_Z_opp. ring.
  - apply (proj2 (Qgt_alt _ _)) in C. specialize (Spos C).
    apply nearest_exact; lia.
Qed.

(** Whole numbers up to [2 ** 53] are binary64 values. *)
Lemma fl_small_int (n : Z) :
  (Z.abs n <= 2 ^ 53)%Z -> Py.fl (inject_Z n) = inject_Z n.
Proof.
  intros Hn.
  destruct (Z.eq_dec (Z.abs n) (2 ^ 53)) as [E | N].
  - destruct (Z.abs_eq_or_opp n) as [A | A]; rewrite A in E.
    + rewrite E. vm_compute. reflexivity.
    + assert (n = (- 2 ^ 53)%Z) as -> by lia. vm_compute. reflexivity.
  - apply fl_whole_value.
    assert (X : inject_Z n == inject_Z n * Py.pow2 0)
      by (change (Py.pow2 0) with 1; ring).
    rewrite (fl_comp _ _ X), fl_exact by lia.
    symmetry. exact X.
Qed.

(** The binary64 value nearest to a whole number is a whole number. *)
Lemma nearest_of_whole (n : Z) :
  (0 < n)%Z -> exists m : Z, Py.nearest (inject_Z n) == inject_Z m.
Proof.
  intros Hn. set (x := inject_Z n).
  exists (if (0 <=? Py.last_place x)%Z
          then (Py.round (x / Py.pow2 (Py.last_place x))
                * 2 ^ Py.last_place x)%Z
          else n).
  rewrite nearest_eq.
  set (lp := Py.last_place x). clearbody lp.
  destruct (0 <=? lp)%Z eqn:P.
  - apply Z.leb_le in P.
    rewrite inject_Z_mult, <- (pow2_whole lp) by exact P. reflexivity.
  - apply Z.leb_gt in P.
    assert (Hs : x / Py.pow2 lp == inject_Z (n * 2 ^ (- lp))).
    { rewrite div_pow2. unfold x.
      rewrite (pow2_whole (- lp)) by lia. now rewrite inject_Z_mult. }
    rewrite (round_comp _ _ Hs), round_whole.
    rewrite inject_Z_mult, <- (pow2_whole (- lp)) by lia.
    rewrite <- Qmult_assoc, <- pow2_add.
    replace (- lp + lp)%Z with 0%Z by lia.
    change (Py.pow2 0) with 1. ring.
Qed.

Lemma fl_of_whole (n : Z) : exists m : Z, Py.fl (inject_Z n) = inject_Z m.
Proof.
  destruct (Z.lt_trichotomy n 0) as [L | [-> | G]].
  - destruct (nearest_of_whole (- n) ltac:(lia)) as [m Hm].
    exists (- m)%Z. apply fl_whole_value. unfold Py.fl.
    assert (C : Qcompare (inject_Z n) 0 = Lt).
    { apply (proj1 (Qlt_alt _ _)). change 0 with (inject_Z 0).
      rewrite <- Zlt_Qlt. exact L. }
    rewrite C.
    assert (E : - inject_Z n == inject_Z (- n)) by now rewrite inject_Z_opp.
    assert (P : 0 < - inject_Z n).
    { rewrite <- inject_Z_opp. change 0 with (inject_Z 0).
      rewrite <- Zlt_Qlt. lia. }
    rewrite (nearest_comp _ _ P E).
    rewrite Hm. now rewrite inject_Z_opp.
  - exists 0%Z. reflexivity.
  - destruct (nearest_of_whole n G) as [m Hm].
    exists m. apply fl_whole_value. unfold Py.fl.
    assert (C : Qcompare (inject_Z n) 0 = Gt).
    { apply (proj1 (Qgt_alt _ _)). change 0 with (inject_Z 0).
      rewrite <- Zlt_Qlt. exact G. }
    rewrite C. exact Hm.
Qed.

(** Rounding to binary64 keeps a number between two whole numbers of up to
    53 bits. *)
Lemma fl_between (x : Q) (lo hi : Z) :
  (Z.abs lo <= 2 ^ 53)%Z -> (Z.abs hi <= 2 ^ 53)%Z ->
  inject_Z lo <= x <= inject_Z hi ->
  inject_Z lo <= Py.fl x <= inject_Z hi.
Proof.
  intros Hlo Hhi [H1 H2].
  pose proof (fl_mono _ _ H1) as M1. pose proof (fl_mono _ _ H2) as M2.
  rewrite (fl_small_int lo Hlo) in M1. rewrite (fl_small_int hi Hhi) in M2.
  split; assumption.
Qed.

Lemma div_le (x y d : Q) : 0 < d -> x <= y -> x / d <= y / d.
Proof.
  intros Hd H. unfold Qdiv.
  apply Qmult_le_compat_r; [exact H |].
  now apply Qlt_le_weak, Qinv_lt_0_compat.
Qed.

Lemma int_of_digits_nonneg (s : string) :
  forall acc, (0 <= acc)%Z -> (0 <= Text.int_of_digits acc s)%Z.
Proof.
  induction s as [| c s IH]; intros acc Hacc; cbn [Text.int_of_digits];
    [exact Hacc |].
  apply IH. unfold Text.digit_value.
  pose proof (Nat2Z.is_nonneg (nat_of_ascii c - 48)). lia.
Qed.

(** ** The bet computed by [calculate_bet_amount] *)

(** The code's bet is the clamped base amount, rounded. *)
Lemma bet_is_rounded_clamp (config : Config) (self : BettingEngine) :
  calculate_bet_amount config self
  = Py.round (spec_clamp config self (spec_base config self)).
Proof.
  unfold calculate_bet_amount, spec_clamp, spec_base, spec_cap.
  apply round_comp.
  destruct (enable_max_bet_limit (risk_management config)).
  - rewrite min_is_Qmin, max_is_Qmax. reflexivity.
  - rewrite max_is_Qmax. reflexivity.
Qed.

(** C1, as the code has it: the base amount (the stored bet times the loss
    multiplier after a loss, the initial share of the balance otherwise,
    both computed in binary64) is first clamped (raised to the minimum bet,
    then lowered to the cap when the max-bet limit is enabled) and the
    clamped amount is rounded last, to an integer within one half of it. *)
Theorem calculate_bet_amount_clamps_then_rounds
  (config : Config) (self : BettingEngine) :
  calculate_bet_amount config self = spec_clamp_then_round config self
  /\ inject_Z (calculate_bet_amount config self) - (1 # 2)
     <= spec_clamp config self (spec_base config self)
     <= inject_Z (calculate_bet_amount config self) + (1 # 2).
Proof.
  split.
  - apply bet_is_rounded_clamp.
  - rewrite bet_is_rounded_clamp. apply round_nearest.
Qed.

(** C1 as worded (the rounded base amount, clamped) fails: with the default
    configuration, a balance of 1003 and a lost bet of 100, the code returns
    100 where the wording gives the cap, 100.30000000000001. *)
Lemma round_then_clamp_differs :
  ~ (forall config self,
       inject_Z (calculate_bet_amount config self)
       == spec_round_then_clamp config self).
Proof.
  intros H. specialize (H get_default_config after_loss_of_100).
  vm_compute in H. discriminate H.
Qed.

(** The amounts are binary64 products: 7 percent of 150 is
    10.500000000000002 there and the bet is 11, where the exact 10.5 would
    be a tie and round to 10; 29 percent of 750 is 217.49999999999997 and
    the bet is 217, where the exact 217.5 would round to 218. *)
Lemma bets_follow_binary64 :
  calculate_bet_amount (config_share 7) (set_current_cash 150 (init 0)) = 11%Z
  /\ Py.round (150 * (7 / 100)) = 10%Z
  /\ calculate_bet_amount (config_share 29) (set_current_cash 750 (init 0))
     = 217%Z
  /\ Py.round (750 * (29 / 100)) = 218%Z.
Proof. vm_compute. repeat split. Qed.

(** With whole-number bounds the order of rounding and clamping does not
    matter, and the wording of C1 agrees with the code. *)
Lemma round_then_clamp_on_whole_bounds
  (config : Config) (self : BettingEngine) (lo hi : Z) :
  min_bet_amount (betting config) == inject_Z lo ->
  (enable_max_bet_limit (risk_management config) = true ->
   spec_cap config self == inject_Z hi) ->
  inject_Z (calculate_bet_amount config self)
  == spec_round_then_clamp config self.
Proof.
  intros Hlo Hhi.
  rewrite bet_is_rounded_clamp.
  unfold spec_round_then_clamp, spec_clamp.
  set (f := fun x => inject_Z (Py.round x)).
  assert (Pf : Proper (Qeq ==> Qeq) f).
  { intros a b E. unfold f. now rewrite (round_comp a b E). }
  assert (Mf : Proper (Qle ==> Qle) f).
  { intros a b L. unfold f. rewrite <- Zle_Qle. now apply round_mono. }
  assert (Ff : forall n, f (inject_Z n) == inject_Z n).
  { intros n. unfold f. now rewrite round_whole. }
  change (inject_Z (Py.round ?x)) with (f x).
  destruct (enable_max_bet_limit (risk_management config)).
  - rewrite Hlo, (Hhi eq_refl).
    rewrite <- (Q.min_mono f Pf Mf), <- (Q.max_mono f Pf Mf).
    now rewrite !Ff.
  - rewrite Hlo. rewrite <- (Q.max_mono f Pf Mf). now rewrite Ff.
Qed.

(** ** The minimum bet *)

Lemma max_ge_r (a b : Q) : b <= Py.max a b.
Proof.
  unfold Py.max. destruct (Py.ltb a b) eqn:E.
  - apply Qle_refl.
  - now apply ltb_false in E.
Qed.

Lemma min_glb (a b c : Q) : c <= a -> c <= b -> c <= Py.min a b.
Proof. intros Ha Hb. unfold Py.min. now destruct (Py.ltb b a). Qed.

(** C3, as the code has it: for a whole-number minimum bet, the computed
    bet is at least the minimum when the max-bet limit is disabled or its
    cap is not below the minimum; the orchestrator's cap to the balance
    keeps the bound when the balance is not below the minimum. *)
Theorem bet_at_least_minimum
  (config : Config) (self : BettingEngine) (lo : Z) :
  min_bet_amount (betting config) == inject_Z lo ->
  enable_max_bet_limit (risk_management config) = false
  \/ min_bet_amount (betting config)
     <= Py.mul (current_cash self)
               (Py.div (max_bet_percentage (risk_management config)) 100) ->
  min_bet_amount (betting config)
  <= inject_Z (calculate_bet_amount config self)
  /\ forall cash,
       min_bet_amount (betting config) <= cash ->
       min_bet_amount (betting config)
       <= cap_to_balance (inject_Z (calculate_bet_amount config self)) cash.
Proof.
  intros Hlo Hcap.
  assert (B : min_bet_amount (betting config)
              <= inject_Z (calculate_bet_amount config self)).
  { rewrite Hlo, <- Zle_Qle.
    rewrite <- (round_whole lo). apply round_mono. rewrite <- Hlo.
    destruct (enable_max_bet_limit (risk_management config)).
    - destruct Hcap as [Hoff | Hcap]; [discriminate Hoff |].
      apply min_glb; [apply max_ge_r | exact Hcap].
    - apply max_ge_r. }
  split; [exact B |].
  intros cash Hcash. unfold cap_to_balance.
  now destruct (Py.ltb cash (inject_Z (calculate_bet_amount config self))).
Qed.

Lemma bet_at_least_minimum_witness :
  min_bet_amount (betting config_no_limit)
  <= inject_Z (calculate_bet_amount config_no_limit balance_of_50)
  /\ forall cash,
       min_bet_amount (betting config_no_limit) <= cash ->
       min_bet_amount (betting config_no_limit)
       <= cap_to_balance
            (inject_Z (calculate_bet_amount config_no_limit balance_of_50)) cash.
Proof.
  apply (bet_at_least_minimum config_no_limit balance_of_50 1).
  - reflexivity.
  - left. reflexivity.
Defined.

(** C3 as worded fails with the max-bet limit enabled: with the default
    configuration (minimum 1, cap 10 percent) and a balance of 4 the cap is
    0.4 and the computed bet is 0. *)
Lemma bet_below_minimum_under_limit :
  ~ (forall config self,
       min_bet_amount (betting config)
       <= inject_Z (calculate_bet_amount config self)).
Proof.
  intros H. specialize (H get_default_config balance_of_4).
  vm_compute in H. apply H. reflexivity.
Qed.

(** The orchestrator's cap can also take a bet below the minimum: with a
    minimum of 100 and a balance of 50 the bet of 100 is capped to 50. *)
Lemma capped_bet_below_minimum :
  calculate_bet_amount config_min_100 balance_of_50 = 100%Z
  /\ cap_to_balance
       (inject_Z (calculate_bet_amount config_min_100 balance_of_50))
       (current_cash balance_of_50) = 50.
Proof. split; vm_compute; reflexivity. Qed.

(** A minimum that is not a whole number is not kept by the rounding. *)
Lemma fractional_minimum_not_kept :
  Py.round (Py.max 0 (14 # 10)) = 1%Z.
Proof. reflexivity. Qed.

(** ** The stop decision *)

Lemma leb_is_Qle_bool (a b : Q) : Py.leb a b = Qle_bool a b.
Proof.
  destruct (Py.leb a b) eqn:E; symmetry.
  - apply Qle_bool_iff. now apply leb_spec.
  - apply leb_false in E. destruct (Qle_bool a b) eqn:F; [| reflexivity].
    apply Qle_bool_iff in F. exfalso. apply (Qlt_not_le _ _ E F).
Qed.

(** C4: [should_stop_betting] answers with the first reason that applies in
    the order stop-loss flag, profit-target flag, max-losses flag,
    non-positive balance, session time limit (when enabled), and with
    (false, empty reason) when none applies; with no flag set and a balance
    of at most 0 the answer is (true, Insufficient funds). *)
Theorem should_stop_first_applicable
  (config : Config) (now : Q) (self : BettingEngine) :
  should_stop_betting config now self
  = first_applicable (stop_checks config now self)
  /\ (stop_loss_triggered self = false ->
      profit_target_reached self = false ->
      max_losses_reached self = false ->
      current_cash self <= 0 ->
      should_stop_betting config now self = (true, "Insufficient funds")).
Proof.
  split.
  - unfold should_stop_betting, stop_checks. cbn.
    rewrite <- (leb_is_Qle_bool (current_cash self) 0).
    rewrite <- (leb_is_Qle_bool
                  (session_time_limit_hours (risk_management config))
                  (now - session_start_time self)).
    destruct (stop_loss_triggered self); [reflexivity |].
    destruct (profit_target_reached self); [reflexivity |].
    destruct (max_losses_reached self); [reflexivity |].
    destruct (Py.leb (current_cash self) 0); [reflexivity |].
    destruct (enable_session_time_limit (risk_management config)
              && Py.leb (session_time_limit_hours (risk_management config))
                        (now - session_start_time self)); reflexivity.
  - intros H1 H2 H3 Hcash. unfold should_stop_betting.
    rewrite H1, H2, H3. apply leb_spec in Hcash. now rewrite Hcash.
Qed.

Lemma should_stop_first_applicable_witness :
  should_stop_betting get_default_config 0 (init 0)
  = (true, "Insufficient funds").
Proof.
  apply (proj2 (should_stop_first_applicable get_default_config 0 (init 0)));
    try reflexivity.
  discriminate.
Defined.

(** ** What the operations do to the engine *)

Lemma updated_loop_effect amount updated_messages self r self' :
  updated_loop amount updated_messages self = Some (r, self') ->
  self' = record_result r self /\ r <> BetUnknown.
Proof.
  induction updated_messages as [| updated_text rest IH]; cbn; [discriminate |].
  destruct (Text.contains "you won" (Text.lower updated_text)).
  - intros [= <- <-]. split; [reflexivity | discriminate].
  - destruct (Text.contains "lost it all" (Text.lower updated_text)).
    + intros [= <- <-]. split; [reflexivity | discriminate].
    + exact IH.
Qed.

Lemma final_loop_effect amount final_messages self r self' :
  final_loop amount final_messages self = Some (r, self') ->
  self' = record_result r self /\ r <> BetUnknown.
Proof.
  induction final_messages as [| message_text rest IH]; cbn; [discriminate |].
  destruct (Text.contains "you won" (Text.lower message_text)
            && Text.contains (Text.str amount) message_text).
  - intros [= <- <-]. split; [reflexivity | discriminate].
  - destruct (Text.contains "lost it all" (Text.lower message_text)
              && Text.contains (Text.str amount) message_text).
    + intros [= <- <-]. split; [reflexivity | discriminate].
    + exact IH.
Qed.

Lemma messages_loop_effect client amount messages w self r self' w' :
  messages_loop client amount messages w self = (Returns r self', w') ->
  self' = record_result r self /\ r <> BetUnknown.
Proof.
  revert w. induction messages as [| message_text rest IH]; intros w; cbn;
    [discriminate |].
  destruct (Text.contains "spent" (Text.lower message_text)
            && Text.contains "coin spins" (Text.lower message_text)).
  - destruct (client (fetches w) 5%nat) as [updated_messages |];
      [| discriminate].
    destruct (updated_loop amount updated_messages self)
      as [[r0 self0] |] eqn:U.
    + intros [= <- <- <-]. now apply updated_loop_effect in U.
    + apply IH.
  - apply IH.
Qed.

(** The engine after a bet: the placement, then the effect of the result. *)
Lemma place_coinflip_bet_effect client amount w self r w' self' :
  place_coinflip_bet client amount w self = (r, w', self') ->
  self' = record_result r (record_placement amount self).
Proof.
  unfold place_coinflip_bet, record_placement, fetch.
  set (self0 := set_total_bets _ _).
  change (set_total_bets _ _) with self0.
  set (w0 := send_command _ _ w).
  destruct (client (fetches w0) 5%nat) as [messages |];
    [| now intros [= <- <- <-]].
  destruct (messages_loop client (Py.round amount) messages _ self0)
    as [[r1 self1 | |] w1] eqn:M.
  - intros [= <- <- <-]. now apply messages_loop_effect in M.
  - destruct (client (fetches w1) 10%nat) as [final_messages |];
      [| now intros [= <- <- <-]].
    destruct (final_loop (Py.round amount) final_messages self0)
      as [[r1 self1] |] eqn:F; [| now intros [= <- <- <-]].
    intros [= <- <- <-]. now apply final_loop_effect in F.
  - now intros [= <- <- <-].
Qed.

Lemma check_cash_loop_effect config messages self cash self' :
  check_cash_loop config messages self = Some (cash, self') ->
  exists v, self' = record_balance config v self /\ cash = current_cash self'.
Proof.
  induction messages as [| message_text rest IH]; cbn; [discriminate |].
  destruct (Text.contains "cowoncy" (Text.lower message_text)); [| exact IH].
  destruct (Text.search_cash message_text) as [group1 |]; [| exact IH].
  intros [= <- <-]. eexists. split; reflexivity.
Qed.

(** The engine after [check_cash]: untouched, or a balance recorded. *)
Lemma check_cash_effect config client w self cash w' self' :
  check_cash config client w self = (cash, w', self') ->
  self' = self \/ exists v, self' = record_balance config v self.
Proof.
  unfold check_cash, fetch.
  destruct (client _ 10%nat) as [messages |];
    [| intros [= <- <- <-]; now left].
  destruct (check_cash_loop config messages self) as [[cash1 self1] |] eqn:L;
    intros [= <- <- <-]; [| now left].
  apply check_cash_loop_effect in L. destruct L as [v [L _]].
  right. now exists v.
Qed.

(** ** Properties kept along a session *)

Section Session_relation.

(** A relation between the engine before and after, indexed by the results
    of the bets placed in between, that every change of state respects. *)
Variable R : list bet_result -> BettingEngine -> BettingEngine -> Prop.
Variable config : Config.

Hypothesis R_nil : forall s, R [] s s.
Hypothesis R_app :
  forall l1 l2 a b c, R l1 a b -> R l2 b c -> R (l1 ++ l2)%list a c.
Hypothesis R_balance : forall v s, R [] s (record_balance config v s).
Hypothesis R_risk : forall s, R [] s (_check_risk_conditions config s).
Hypothesis R_bet :
  forall amount r s, R [r] s (record_result r (record_placement amount s)).

Lemma check_cash_related client w self cash w' self' :
  check_cash config client w self = (cash, w', self') -> R [] self self'.
Proof.
  intros H. apply check_cash_effect in H.
  destruct H as [-> | [v ->]]; [apply R_nil | apply R_balance].
Qed.

Lemma place_coinflip_bet_related client amount w self r w' self' :
  place_coinflip_bet client amount w self = (r, w', self') -> R [r] self self'.
Proof.
  intros H. apply place_coinflip_bet_effect in H. subst self'. apply R_bet.
Qed.

Lemma perform_related client op w self rs w' self' :
  perform config client op w self = (rs, w', self') -> R rs self self'.
Proof.
  destruct op as [| amount | | now v]; unfold perform.
  - destruct (check_cash config client w self) as [[cash w1] self1] eqn:C.
    intros [= <- <- <-]. eapply check_cash_related, C.
  - destruct (place_coinflip_bet client amount w self) as [[r w1] self1] eqn:P.
    intros [= <- <- <-]. eapply place_coinflip_bet_related, P.
  - intros [= <- <- <-]. apply R_risk.
  - unfold betting_pass.
    destruct (should_stop_betting config now self) as [should_stop reason].
    destruct should_stop; [intros [= <- <- <-]; apply R_nil |].
    destruct v; try (intros [= <- <- <-]; apply R_nil);
      destruct (check_cash config client w self) as [[cash w1] self1] eqn:C;
      apply check_cash_related in C;
      (destruct (Py.leb cash 0); [intros [= <- <- <-]; exact C |]);
      destruct (place_coinflip_bet client _ w1 self1)
        as [[r w2] self2] eqn:P;
      apply place_coinflip_bet_related in P;
      intros [= <- <- <-]; apply (R_app [] [r] _ _ _ C P).
Qed.

Lemma session_related client ops :
  forall w self rs w' self',
    session config client ops w self = (rs, w', self') -> R rs self self'.
Proof.
  induction ops as [| op rest IH]; intros w self rs w' self'; cbn.
  - intros [= <- <- <-]. apply R_nil.
  - destruct (perform config client op w self) as [[rs1 w1] self1] eqn:P.
    destruct (session config client rest w1 self1) as [[rs2 w2] self2] eqn:S.
    intros [= <- <- <-].
    eapply R_app; [eapply perform_related, P | eapply IH, S].
Qed.

End Session_relation.

(** ** Risk flags are one-way *)

Ltac split_ifs :=
  repeat match goal with
         | |- context [if ?b then _ else _] => destruct b
         end.

Lemma flags_kept_refl s : flags_kept s s.
Proof. unfold flags_kept. tauto. Qed.

Lemma flags_kept_trans a b c : flags_kept a b -> flags_kept b c -> flags_kept a c.
Proof. unfold flags_kept. tauto. Qed.

Lemma flags_kept_risk config s : flags_kept s (_check_risk_conditions config s).
Proof.
  unfold flags_kept, _check_risk_conditions. split_ifs; cbn; tauto.
Qed.

Lemma flags_kept_balance config v s : flags_kept s (record_balance config v s).
Proof.
  unfold record_balance.
  eapply flags_kept_trans; [| apply flags_kept_risk].
  unfold flags_kept. split_ifs; cbn; tauto.
Qed.

Lemma flags_kept_bet amount r s :
  flags_kept s (record_result r (record_placement amount s)).
Proof.
  unfold flags_kept, record_result, record_win, record_loss, record_placement.
  destruct r; split_ifs; cbn; tauto.
Qed.

(** C5: along every sequence of balance reads, bets, risk checks and loop
    passes of one session, a risk flag that is set stays set. *)
Theorem risk_flags_stay_set config client ops w self rs w' self' :
  session config client ops w self = (rs, w', self') ->
  (stop_loss_triggered self = true -> stop_loss_triggered self' = true)
  /\ (profit_target_reached self = true -> profit_target_reached self' = true)
  /\ (max_losses_reached self = true -> max_losses_reached self' = true).
Proof.
  apply (session_related (fun _ => flags_kept) config).
  - apply flags_kept_refl.
  - intros _ _. apply flags_kept_trans.
  - apply flags_kept_balance.
  - apply flags_kept_risk.
  - apply flags_kept_bet.
Qed.

(** The stop-loss flag stays set when the balance is back at its start. *)
Lemma risk_flags_stay_set_witness :
  stop_loss_triggered stop_loss_tripped = true
  /\ current_cash
       (snd (session get_default_config (scripted balance_back_to_1000)
               [Check_cash] new_world stop_loss_tripped)) == 1000
  /\ stop_loss_triggered
       (snd (session get_default_config (scripted balance_back_to_1000)
               [Check_cash] new_world stop_loss_tripped)) = true.
Proof.
  split; [reflexivity |]. split; [reflexivity |].
  apply (risk_flags_stay_set get_default_config
           (scripted balance_back_to_1000) [Check_cash] new_world
           stop_loss_tripped _ _ _ eq_refl).
  reflexivity.
Defined.

(** ** Counting bets *)

Lemma results_partition (rs : list bet_result) :
  Z.of_nat (List.length rs) = (won rs + lost rs + undetermined rs)%Z.
Proof.
  unfold won, lost, undetermined.
  induction rs as [| r rs IH]; [reflexivity |].
  destruct r; cbn [filter is_won is_lost is_unknown List.length]; lia.
Qed.

Lemma count_app (p : bet_result -> bool) (l1 l2 : list bet_result) :
  Z.of_nat (List.length (filter p (l1 ++ l2)))
  = (Z.of_nat (List.length (filter p l1))
     + Z.of_nat (List.length (filter p l2)))%Z.
Proof. rewrite filter_app, length_app. lia. Qed.

Lemma counted_refl s : counted [] s s.
Proof. unfold counted, won, lost. cbn. lia. Qed.

Lemma counted_app l1 l2 a b c :
  counted l1 a b -> counted l2 b c -> counted (l1 ++ l2) a c.
Proof.
  unfold counted, won, lost. rewrite !count_app, length_app. lia.
Qed.

Lemma counted_risk config s : counted [] s (_check_risk_conditions config s).
Proof.
  unfold counted, won, lost, _check_risk_conditions.
  split_ifs; cbn; lia.
Qed.

Lemma counted_balance config v s : counted [] s (record_balance config v s).
Proof.
  unfold record_balance.
  apply (counted_app [] [] _ _ _) with (2 := counted_risk config _).
  unfold counted, won, lost. split_ifs; cbn; lia.
Qed.

Lemma counted_bet amount r s :
  counted [r] s (record_result r (record_placement amount s)).
Proof.
  unfold counted, won, lost, record_result, record_win, record_loss,
    record_placement.
  destruct r; split_ifs; cbn; lia.
Qed.

(** C6: a bet adds exactly one to [total_bets] whatever its outcome; an
    undetermined outcome leaves [total_wins], [total_losses] and
    [consecutive_losses] as they were; and in every session started from
    a new engine, [total_bets] is the sum of [total_wins], [total_losses]
    and the number of undetermined bets. *)
Theorem bets_counted_at_placement (config : Config) (client : Client) :
  (forall amount w self r w' self',
      place_coinflip_bet client amount w self = (r, w', self') ->
      total_bets self' = (total_bets self + 1)%Z
      /\ (returned r = None ->
          total_wins self' = total_wins self
          /\ total_losses self' = total_losses self
          /\ consecutive_losses self' = consecutive_losses self))
  /\ (forall ops now w rs w' self',
        session config client ops w (init now) = (rs, w', self') ->
        total_bets self' = Z.of_nat (List.length rs)
        /\ total_bets self'
           = (total_wins self' + total_losses self' + undetermined rs)%Z).
Proof.
  split.
  - intros amount w self r w' self' H.
    apply place_coinflip_bet_effect in H. subst self'. split.
    + destruct r; unfold record_result, record_win, record_loss;
        split_ifs; reflexivity.
    + destruct r; cbn [returned]; try discriminate. intros _.
      repeat split.
  - intros ops now w rs w' self' H.
    apply (session_related counted config) in H.
    + destruct H as (Hb & Hw & Hl). cbn in Hb, Hw, Hl.
      pose proof (results_partition rs). lia.
    + apply counted_refl.
    + apply counted_app.
    + apply counted_balance.
    + apply counted_risk.
    + apply counted_bet.
Qed.

(** A bet that stays undetermined in a new session: counted as a bet, not
    as a win nor as a loss. *)
Lemma bets_counted_at_placement_witness :
  returned
    (fst (fst (place_coinflip_bet (scripted unrelated_chatter) 100
                 new_world (init 0)))) = None
  /\ total_bets
       (snd (place_coinflip_bet (scripted unrelated_chatter) 100
               new_world (init 0))) = (total_bets (init 0) + 1)%Z
  /\ total_wins
       (snd (place_coinflip_bet (scripted unrelated_chatter) 100
               new_world (init 0))) = total_wins (init 0)
  /\ total_losses
       (snd (place_coinflip_bet (scripted unrelated_chatter) 100
               new_world (init 0))) = total_losses (init 0)
  /\ consecutive_losses
       (snd (place_coinflip_bet (scripted unrelated_chatter) 100
               new_world (init 0))) = consecutive_losses (init 0).
Proof.
  split; [reflexivity |].
  destruct (bets_counted_at_placement get_default_config
              (scripted unrelated_chatter)) as [Hbet _].
  destruct (Hbet 100 new_world (init 0) _ _ _ eq_refl) as [Hbets Hunknown].
  split; [exact Hbets | exact (Hunknown eq_refl)].
Defined.

(** ** Three losses, then a win *)

(** After a lost bet of 25 the recovery bet is 62 whatever the balance:
    62.5 is a tie and goes to the even neighbour. *)
Lemma recovery_bet_after_25 (self : BettingEngine) :
  consecutive_losses self <> 0%Z ->
  current_bet self = 25%Z ->
  calculate_bet_amount config_no_limit self = 62%Z.
Proof.
  intros Hloss Hbet. unfold calculate_bet_amount.
  apply Z.eqb_neq in Hloss. rewrite Hloss, Hbet. vm_compute. reflexivity.
Qed.

(** C2, as the code has it: from a balance of 1000 with an initial share of
    1 percent, a multiplier of 2.5 and no clamp binding, three losses and a
    win see the bets 10, 25, 62, 155; after the win the loss streak is 0 and
    the next bet is 1 percent of the new balance 1058, rounded: 11. *)
Theorem three_losses_then_win_bets :
  fst (fst (scenario 4))
  = [ Bet 10 BetLost; Bet 25 BetLost; Bet 62 BetLost;
      Bet 155 (BetWon (inl "310")) ]
  /\ consecutive_losses (snd (scenario 4)) = 0%Z
  /\ bets_of (fst (fst (scenario 5))) = [10; 25; 62; 155; 11]
  /\ current_cash (snd (scenario 5)) = 1058
  /\ Py.round
       (Py.mul (current_cash (snd (scenario 5)))
               (Py.div (initial_bet_percentage (betting config_no_limit)) 100))
     = 11%Z.
Proof. vm_compute. repeat split. Qed.

(** C2 as worded fails: the bets are not 10, 25, 63, 158. *)
Lemma bets_are_not_10_25_63_158 :
  bets_of (fst (fst (scenario 4))) <> [10; 25; 63; 158].
Proof. vm_compute. discriminate. Qed.

(** ** Balance reads *)

Lemma risk_keeps_balances config s :
  current_cash (_check_risk_conditions config s) = current_cash s
  /\ starting_balance (_check_risk_conditions config s) = starting_balance s.
Proof. unfold _check_risk_conditions. split_ifs; cbn; split; reflexivity. Qed.

Lemma check_cash_loop_not_found config messages self :
  no_balance_in messages -> check_cash_loop config messages self = None.
Proof.
  induction 1 as [| message_text rest Hm _ IH]; cbn; [reflexivity |].
  destruct Hm as [Hm | Hm]; rewrite Hm; [exact IH |].
  destruct (Text.contains "cowoncy" (Text.lower message_text)); exact IH.
Qed.

Lemma record_balance_cash config v s :
  current_cash (record_balance config v s) = v.
Proof.
  unfold record_balance. rewrite (proj1 (risk_keeps_balances config _)).
  cbn. destruct (Py.eqb (starting_balance s) 0); reflexivity.
Qed.

(** The loop of [check_cash] at a first message that holds a balance. *)
Lemma check_cash_loop_found config message_text rest self group1 :
  Text.contains "cowoncy" (Text.lower message_text) = true ->
  Text.search_cash message_text = Some group1 ->
  check_cash_loop config (message_text :: rest) self
  = Some (Text.float (Text.remove_char "," group1),
          record_balance config (Text.float (Text.remove_char "," group1)) self).
Proof.
  intros Hk Hm. cbn [check_cash_loop]. rewrite Hk, Hm.
  set (v := Text.float (Text.remove_char "," group1)).
  change (Some (current_cash (record_balance config v self),
                record_balance config v self)
          = Some (v, record_balance config v self)).
  now rewrite record_balance_cash.
Qed.

(** The loop of [check_cash] skips the messages without a balance. *)
Lemma check_cash_loop_skip config pre rest self :
  no_balance_in pre ->
  check_cash_loop config (pre ++ rest) self = check_cash_loop config rest self.
Proof.
  induction 1 as [| message_text pre' Hm _ IH]; [reflexivity |].
  cbn [app check_cash_loop].
  destruct Hm as [Hm | Hm]; rewrite Hm; [exact IH |].
  destruct (Text.contains "cowoncy" (Text.lower message_text)); exact IH.
Qed.

(** C10: when the fetch raises, or no fetched message matches the balance
    pattern, [check_cash] returns 0 and leaves the engine as it was; a read
    of a balance of 0 returns 0 as well. *)
Theorem failed_read_returns_zero_and_keeps_state
  (config : Config) (client : Client) (w : World) (self : BettingEngine) :
  (client (fetches w) 10%nat = Raise
   \/ (exists messages,
         client (fetches w) 10%nat = Batch messages
         /\ no_balance_in messages) ->
   check_cash config client w self
   = (0, snd (fetch client 10 (send_command "w cash" "cash_check" w)), self))
  /\ fst (fst (check_cash config (scripted zero_then_500) new_world self)) = 0.
Proof.
  split.
  - unfold check_cash, fetch. cbn [fetches send_command snd].
    intros [E | [messages [E Hno]]]; rewrite E; [reflexivity |].
    now rewrite (check_cash_loop_not_found config messages self Hno).
  - unfold check_cash, fetch, scripted, zero_then_500.
    cbn [nth fetches send_command new_world].
    rewrite (check_cash_loop_found config _ _ self "0");
      [reflexivity | vm_compute; reflexivity | vm_compute; reflexivity].
Qed.

Lemma failed_read_returns_zero_and_keeps_state_witness :
  check_cash get_default_config (scripted unrelated_chatter) new_world
    stop_loss_tripped
  = (0,
     snd (fetch (scripted unrelated_chatter) 10
            (send_command "w cash" "cash_check" new_world)),
     stop_loss_tripped).
Proof.
  apply (proj1 (failed_read_returns_zero_and_keeps_state get_default_config
                  (scripted unrelated_chatter) new_world stop_loss_tripped)).
  right. exists (nth 0 unrelated_chatter []). split; [reflexivity |].
  repeat constructor.
Defined.

(** ** The starting balance *)

Lemma start_kept_refl s : start_kept s s.
Proof. intros _. reflexivity. Qed.

Lemma start_kept_trans a b c : start_kept a b -> start_kept b c -> start_kept a c.
Proof.
  unfold start_kept. intros Hab Hbc Ha.
  specialize (Hab Ha). rewrite Hab in Hbc. exact (Hbc Ha).
Qed.

Lemma start_kept_risk config s : start_kept s (_check_risk_conditions config s).
Proof. intros _. apply risk_keeps_balances. Qed.

Lemma start_kept_balance config v s : start_kept s (record_balance config v s).
Proof.
  intros Hs. unfold record_balance.
  rewrite (proj2 (risk_keeps_balances config _)). cbn.
  destruct (Py.eqb (starting_balance s) 0) eqn:E; [| reflexivity].
  apply eqb_spec in E. contradiction.
Qed.

Lemma start_kept_bet amount r s :
  start_kept s (record_result r (record_placement amount s)).
Proof.
  intros _. unfold record_result, record_win, record_loss, record_placement.
  destruct r; split_ifs; reflexivity.
Qed.

(** Once the starting balance is not zero, no operation changes it. *)
Lemma starting_balance_kept_once_nonzero config client ops w self rs w' self' :
  session config client ops w self = (rs, w', self') ->
  ~ starting_balance self == 0 ->
  starting_balance self' = starting_balance self.
Proof.
  apply (session_related (fun _ => start_kept) config).
  - apply start_kept_refl.
  - intros _ _. apply start_kept_trans.
  - apply start_kept_balance.
  - apply start_kept_risk.
  - apply start_kept_bet.
Qed.

(** The first read sets the starting balance: a read of [v] while the
    starting balance is still zero makes it [v]. *)
Lemma first_read_sets_starting_balance config v s :
  starting_balance s == 0 ->
  starting_balance (record_balance config v s) = v.
Proof.
  intros Hs. unfold record_balance.
  rewrite (proj2 (risk_keeps_balances config _)). cbn.
  apply eqb_spec in Hs. now rewrite Hs.
Qed.

Lemma betting_pass_start_kept config client now v w self :
  start_kept self (snd (betting_pass config client now v w self)).
Proof.
  pose proof (perform_related (fun _ => start_kept) config start_kept_refl
                (fun _ _ => start_kept_trans) (start_kept_balance config)
                (start_kept_risk config) start_kept_bet
                client (Betting_pass now v) w self) as H.
  unfold perform in H.
  destruct (betting_pass config client now v w self) as [[e w1] self1].
  cbn [snd]. destruct e; eapply H; reflexivity.
Qed.

Lemma betting_loop_start_kept passes config client clock monitor :
  forall k w self,
    start_kept self
      (snd (betting_loop passes config client clock monitor k w self)).
Proof.
  induction passes as [| passes IH]; intros k w self; cbn [betting_loop].
  - apply start_kept_refl.
  - pose proof (betting_pass_start_kept config client (clock k) (monitor k)
                  w self) as H1.
    destruct (betting_pass config client (clock k) (monitor k) w self)
      as [[e w1] self1].
    cbn [snd] in H1. destruct e; try exact H1.
    specialize (IH (S k) w1 self1).
    destruct (betting_loop passes config client clock monitor (S k) w1 self1)
      as [[es w2] self2].
    cbn [snd] in *. eapply start_kept_trans; eassumption.
Qed.

(** What [check_cash] returns and leaves: the sentinel 0 and the engine as
    it was, or the balance read and the engine with that balance recorded. *)
Lemma check_cash_read config client w self cash w' self' :
  check_cash config client w self = (cash, w', self') ->
  (cash = 0 /\ self' = self) \/ self' = record_balance config cash self.
Proof.
  unfold check_cash, fetch.
  destruct (client _ 10%nat) as [messages |];
    [| intros [= <- <- <-]; now left].
  destruct (check_cash_loop config messages self) as [[cash1 self1] |] eqn:L;
    intros [= <- <- <-]; [| now left].
  apply check_cash_loop_effect in L. destruct L as (v & -> & ->).
  right. now rewrite record_balance_cash.
Qed.

(** C9, in the runs of the program.  [check_cash] is called at the start
    of [run_betting_strategy] and once in every pass of its loop, and the
    run ends as soon as a call returns a balance that is not positive.  So
    in every run from a new engine, after any number of passes, the starting
    balance is what the first call left: the value [v] of the first read
    when that read succeeded, also for [v = 0], where the run ends with that
    call and no later read can move it. *)
Theorem starting_balance_set_once_in_every_run
  (passes : nat) (config : Config) (client : Client) (clock : nat -> Q)
  (monitor : nat -> verification) (w : World) (now : Q) :
  starting_balance
    (snd (run_betting_strategy passes config client clock monitor w
            (init now)))
  = starting_balance (snd (check_cash config client w (init now)))
  /\ (forall messages v self1,
        client (fetches w) 10%nat = Batch messages ->
        check_cash_loop config messages (init now) = Some (v, self1) ->
        starting_balance
          (snd (run_betting_strategy passes config client clock monitor w
                  (init now))) = v)
  /\ (fst (fst (check_cash config client w (init now))) <= 0 ->
      run_betting_strategy passes config client clock monitor w (init now)
      = ([], snd (fst (check_cash config client w (init now))),
         snd (check_cash config client w (init now)))).
Proof.
  unfold run_betting_strategy.
  destruct (check_cash config client w (init now)) as [[cash0 w0] s0] eqn:C.
  cbn [fst snd].
  assert (H1 : starting_balance
                 (snd (if Py.leb cash0 0 then ([], w0, s0)
                       else betting_loop passes config client clock monitor
                              0 w0 s0))
               = starting_balance s0).
  { destruct (Py.leb cash0 0) eqn:E; [reflexivity |].
    apply leb_false in E. apply betting_loop_start_kept.
    apply check_cash_read in C. destruct C as [[-> _] | ->].
    - now apply Qlt_irrefl in E.
    - rewrite first_read_sets_starting_balance by reflexivity.
      intros Z0. rewrite Z0 in E. now apply Qlt_irrefl in E. }
  split; [exact H1 |]. split.
  - intros messages v self1 Hc Hl. rewrite H1.
    unfold check_cash, fetch in C. cbn [fetches send_command] in C.
    rewrite Hc, Hl in C. injection C as <- <- <-.
    apply check_cash_loop_effect in Hl. destruct Hl as (v' & -> & ->).
    rewrite record_balance_cash.
    apply first_read_sets_starting_balance. reflexivity.
  - intros Hle. apply leb_spec in Hle. now rewrite Hle.
Qed.

(** A first read of 0 ends the run: the balance of 500 that the chat would
    show next is never read, and the starting balance is 0.  In the run of
    three losses and a win the starting balance is 1000 after every pass. *)
Lemma starting_balance_set_once_in_every_run_witness :
  run_betting_strategy 3 get_default_config (scripted zero_then_500)
    (fun _ => 0) (fun _ => Inactive) new_world (init 0)
  = ([], {| fetches := 1; sent := [("w cash", "cash_check")] |},
     record_balance get_default_config 0 (init 0))
  /\ starting_balance
       (snd (run_betting_strategy 3 get_default_config (scripted zero_then_500)
               (fun _ => 0) (fun _ => Inactive) new_world (init 0))) = 0
  /\ starting_balance (snd (scenario 5)) = 1000.
Proof.
  split; [| split].
  - rewrite (proj2 (proj2 (starting_balance_set_once_in_every_run 3
                             get_default_config (scripted zero_then_500)
                             (fun _ => 0) (fun _ => Inactive) new_world 0))).
    + vm_compute. reflexivity.
    + vm_compute. discriminate.
  - apply (proj1 (proj2 (starting_balance_set_once_in_every_run 3
                           get_default_config (scripted zero_then_500)
                           (fun _ => 0) (fun _ => Inactive) new_world 0))
             (nth 0 zero_then_500 []) 0
             (record_balance get_default_config 0 (init 0)));
      vm_compute; reflexivity.
  - apply (proj1 (proj2 (starting_balance_set_once_in_every_run 5
                           config_no_limit (scripted three_losses_then_win)
                           (fun _ => 0) (fun _ => Inactive) new_world 0))
             (nth 0 three_losses_then_win []) 1000
             (record_balance config_no_limit 1000 (init 0)));
      vm_compute; reflexivity.
Defined.

(** Outside a run, [check_cash] called twice in a row: after a first read
    of 0, which succeeds, returns 0 and leaves the starting balance at 0,
    a second read of 500 moves the starting balance to 500.  No run of the
    program makes this second call. *)
Lemma starting_balance_moves_after_zero_read :
  check_cash_loop get_default_config (nth 0 zero_then_500 []) (init 0) <> None
  /\ fst (fst (check_cash get_default_config (scripted zero_then_500)
                 new_world (init 0))) = 0
  /\ starting_balance
       (snd (session get_default_config (scripted zero_then_500)
               [Check_cash] new_world (init 0))) = 0
  /\ starting_balance
       (snd (session get_default_config (scripted zero_then_500)
               [Check_cash; Check_cash] new_world (init 0))) = 500.
Proof. vm_compute. repeat split. discriminate. Qed.

(** ** Text lemmas *)

Ltac all_chars c :=
  destruct c as [[] [] [] [] [] [] [] []]; vm_compute; try reflexivity;
  try discriminate; try tauto.

Lemma digit_not_space c : Text.is_digit c = true -> Text.is_space c = false.
Proof. all_chars c. Qed.

Lemma digit_not_in_keyword c :
  Text.is_digit c = true -> occurs (Text.lower_char c) "cowoncy" = false.
Proof. all_chars c. Qed.

Lemma space_stops_number c :
  Text.is_space c = true -> Text.is_digit c = false /\ Ascii.eqb c "," = false.
Proof. all_chars c. Qed.

Lemma keyword_start_stops_number c :
  Text.lower_char c = "c"%char ->
  Text.is_digit c = false /\ Ascii.eqb c "," = false
  /\ Text.is_space c = false.
Proof. all_chars c. Qed.

Lemma comma_not_digit : Text.is_digit "," = false.
Proof. reflexivity. Qed.

Lemma lower_app (a b : string) :
  Text.lower (a ++ b) = Text.lower a ++ Text.lower b.
Proof. induction a as [| c a IH]; cbn; [reflexivity | now rewrite IH]. Qed.

Lemma strip_prefix_app (p x : string) : Text.strip_prefix p (p ++ x) = Some x.
Proof.
  induction p as [| c p IH]; cbn; [now destruct x |].
  now rewrite Ascii.eqb_refl.
Qed.

Lemma starts_with_app (p x : string) : Text.starts_with p (p ++ x) = true.
Proof. unfold Text.starts_with. now rewrite strip_prefix_app. Qed.

Lemma contains_unfold (p s : string) :
  Text.contains p s
  = Text.starts_with p s
    || match s with
       | EmptyString => false
       | String _ s' => Text.contains p s'
       end.
Proof. destruct s; reflexivity. Qed.

Lemma contains_app (p a b : string) : Text.contains p (a ++ p ++ b) = true.
Proof.
  induction a as [| c a IH]; rewrite contains_unfold.
  - cbn [append]. now rewrite starts_with_app.
  - cbn [append]. rewrite IH. apply orb_true_r.
Qed.

Lemma contains_false_head (p s : string) :
  Text.contains p s = false -> Text.starts_with p s = false.
Proof. rewrite contains_unfold. now intros [H _]%orb_false_iff. Qed.

Lemma contains_false_tail (p : string) c s :
  Text.contains p (String c s) = false -> Text.contains p s = false.
Proof. rewrite contains_unfold. now intros [_ H]%orb_false_iff. Qed.

(** A prefix match that reaches beyond [a] uses the character after it. *)
Lemma starts_with_beyond (p a : string) d t :
  Text.starts_with p (a ++ String d t) = true ->
  Text.starts_with p a = true \/ occurs d p = true.
Proof.
  unfold Text.starts_with. revert a.
  induction p as [| pc p IH]; intros a; [now left |].
  destruct a as [| ac a]; cbn.
  - destruct (Ascii.eqb pc d); [now right | discriminate].
  - destruct (Ascii.eqb pc ac); [| discriminate].
    intros H. destruct (IH a H) as [H1 | H1]; [now left |].
    right. rewrite H1. apply orb_true_r.
Qed.

(** ** The balance pattern finds the number before the first currency word *)

Section Before_the_number.

(** The text from the number on: its first character is a digit. *)
Variable d0 : ascii.
Variable rest0 : string.
Hypothesis d0_digit : Text.is_digit d0 = true.

Local Abbreviation tail0 := (String d0 rest0).

Lemma keyword_not_across (x : string) :
  Text.contains "cowoncy" (Text.lower x) = false ->
  Text.starts_with "cowoncy" (Text.lower (x ++ tail0)) = false.
Proof.
  intros K.
  destruct (Text.starts_with "cowoncy" (Text.lower (x ++ tail0))) eqn:E;
    [| reflexivity].
  rewrite lower_app in E. cbn [Text.lower] in E.
  apply starts_with_beyond in E. destruct E as [E | E].
  - apply contains_false_head in K. congruence.
  - rewrite (digit_not_in_keyword d0 d0_digit) in E. discriminate.
Qed.

Lemma keyword_not_after_spaces (x : string) :
  Text.contains "cowoncy" (Text.lower x) = false ->
  Text.starts_with "cowoncy" (Text.lower (Text.skip_spaces (x ++ tail0)))
  = false.
Proof.
  induction x as [| c x IH]; intros K.
  - cbn [append Text.skip_spaces].
    rewrite (digit_not_space d0 d0_digit).
    apply (keyword_not_across "" K).
  - cbn [append Text.skip_spaces]. destruct (Text.is_space c).
    + apply IH. cbn [Text.lower] in K. now apply contains_false_tail in K.
    + apply (keyword_not_across (String c x) K).
Qed.

Lemma ends_in_number_tail c x :
  ends_in_number (String c x) = false -> ends_in_number x = false.
Proof.
  destruct x as [| d x]; [reflexivity |].
  cbn [ends_in_number]. now intros [_ H]%orb_false_iff.
Qed.

(** A number that starts before the text [x ++ tail0] and runs into it
    stops inside [x], and the currency word does not follow. *)
Lemma number_stops_inside (n : nat) :
  forall x dprev,
    (String.length x <= n)%nat ->
    Text.is_digit dprev = true ->
    ends_in_number (String dprev x) = false ->
    Text.contains "cowoncy" (Text.lower x) = false ->
    Text.starts_with "cowoncy"
      (Text.lower (Text.skip_spaces (snd (Text.number_tail (x ++ tail0)))))
    = false.
Proof.
  induction n as [| n IH]; intros x dprev Hn Hd M K.
  - destruct x; [| cbn in Hn; lia]. cbn in M. congruence.
  - destruct x as [| c x]; [cbn in M; congruence |].
    pose proof (ends_in_number_tail _ _ M) as Mx.
    pose proof K as Kx. cbn [Text.lower] in Kx.
    apply contains_false_tail in Kx.
    cbn [String.length] in Hn.
    cbn [append Text.number_tail].
    destruct (Text.is_digit c) eqn:Dc.
    + specialize (IH x c ltac:(lia) Dc Mx Kx).
      destruct (Text.number_tail (x ++ tail0)) as [t r]. exact IH.
    + destruct (Ascii.eqb c ",") eqn:Cc;
        [| apply (keyword_not_after_spaces (String c x) K)].
      apply Ascii.eqb_eq in Cc. subst c.
      destruct x as [| d x].
      * cbn in M. rewrite Hd in M. discriminate.
      * cbn [append]. destruct (Text.is_digit d) eqn:Dd;
          [| apply (keyword_not_after_spaces (String "," (String d x)) K)].
        pose proof (ends_in_number_tail _ _ Mx) as Mxx.
        cbn [Text.lower] in Kx. apply contains_false_tail in Kx.
        cbn [String.length] in Hn.
        specialize (IH x d ltac:(lia) Dd Mxx Kx).
        destruct (Text.number_tail (x ++ tail0)) as [t r]. exact IH.
Qed.

(** No match of the balance pattern starts inside [x]. *)
Lemma no_match_inside (x : string) :
  x <> "" ->
  ends_in_number x = false ->
  Text.contains "cowoncy" (Text.lower x) = false ->
  Text.match_cash_here (x ++ tail0) = None.
Proof.
  intros Hx M K. destruct x as [| c x]; [congruence |].
  unfold Text.match_cash_here, Text.number. cbn [append].
  destruct (Text.is_digit c) eqn:Dc; [| reflexivity].
  pose proof (number_stops_inside (String.length x) x c (le_n _) Dc M) as H.
  cbn [Text.lower] in K. apply contains_false_tail in K. specialize (H K).
  destruct (Text.number_tail (x ++ tail0)) as [t r]. cbn [snd] in H.
  now rewrite H.
Qed.

(** The search skips a prefix that holds no currency word and does not end
    in a number. *)
Lemma search_cash_skips (x : string) :
  ends_in_number x = false ->
  Text.contains "cowoncy" (Text.lower x) = false ->
  Text.search_cash (x ++ tail0) = Text.search_cash tail0.
Proof.
  induction x as [| c x IH]; intros M K; [reflexivity |].
  change (Text.search_cash (String c x ++ tail0))
    with (match Text.match_cash_here (String c x ++ tail0) with
          | Some group1 => Some group1
          | None => Text.search_cash (x ++ tail0)
          end).
  rewrite (no_match_inside (String c x)) by (congruence || assumption).
  apply IH.
  - now apply ends_in_number_tail in M.
  - cbn [Text.lower] in K. now apply contains_false_tail in K.
Qed.

End Before_the_number.

(** ** The balance pattern at the number *)

Lemma number_tail_exact (t r : string) :
  number_rest t -> stops_number r -> Text.number_tail (t ++ r) = (t, r).
Proof.
  intros Ht Hr. induction Ht as [| d t Hd _ IH | d t Hd _ IH].
  - cbn [append]. destruct r as [| c r]; [reflexivity |].
    destruct Hr as [Hc1 Hc2]. cbn [Text.number_tail]. now rewrite Hc1, Hc2.
  - cbn [append Text.number_tail]. now rewrite Hd, IH.
  - cbn [append Text.number_tail].
    rewrite comma_not_digit, Ascii.eqb_refl, Hd, IH. reflexivity.
Qed.

Lemma number_exact (token r : string) :
  comma_number token -> stops_number r ->
  Text.number (token ++ r) = Some (token, r).
Proof.
  intros [d t Hd Ht] Hr. cbn [append Text.number].
  now rewrite Hd, (number_tail_exact t r Ht Hr).
Qed.

Lemma keyword_word_starts (word : string) :
  Text.lower word = "cowoncy" ->
  exists c w, word = String c w /\ Text.lower_char c = "c"%char.
Proof.
  destruct word as [| c w]; cbn; [discriminate |].
  intros [= Hc _]. now exists c, w.
Qed.

Lemma stops_number_spaces_word (spaces word suffix : string) :
  all_space spaces = true -> Text.lower word = "cowoncy" ->
  stops_number (spaces ++ word ++ suffix).
Proof.
  intros Hs Hw. destruct spaces as [| s spaces].
  - destruct (keyword_word_starts word Hw) as (c & w & -> & Hc).
    cbn. now destruct (keyword_start_stops_number c Hc) as (? & ? & _).
  - cbn in Hs. apply andb_prop in Hs as [Hs _].
    cbn. now apply space_stops_number.
Qed.

Lemma skip_spaces_exact (spaces word suffix : string) :
  all_space spaces = true -> Text.lower word = "cowoncy" ->
  Text.skip_spaces (spaces ++ word ++ suffix) = word ++ suffix.
Proof.
  intros Hs Hw. induction spaces as [| s spaces IH].
  - destruct (keyword_word_starts word Hw) as (c & w & -> & Hc).
    cbn. now destruct (keyword_start_stops_number c Hc) as (_ & _ & ->).
  - cbn in Hs. apply andb_prop in Hs as [Hs Hss].
    cbn [append Text.skip_spaces]. rewrite Hs. now apply IH.
Qed.

Lemma match_cash_at_number (token spaces word suffix : string) :
  comma_number token -> all_space spaces = true ->
  Text.lower word = "cowoncy" ->
  Text.match_cash_here (token ++ spaces ++ word ++ suffix) = Some token.
Proof.
  intros Ht Hs Hw. unfold Text.match_cash_here.
  rewrite (number_exact token _ Ht (stops_number_spaces_word _ _ suffix Hs Hw)).
  rewrite (skip_spaces_exact _ _ _ Hs Hw), lower_app, Hw.
  now rewrite starts_with_app.
Qed.

Lemma search_cash_unfold (s : string) :
  Text.search_cash s
  = match Text.match_cash_here s with
    | Some group1 => Some group1
    | None =>
        match s with
        | String _ s' => Text.search_cash s'
        | EmptyString => None
        end
    end.
Proof. destruct s; reflexivity. Qed.

(** The search returns the number that stands before the first currency
    word, whatever comes before the number. *)
Lemma search_cash_finds (prefix token spaces word suffix : string) :
  Text.contains "cowoncy" (Text.lower prefix) = false ->
  ends_in_number prefix = false ->
  comma_number token -> all_space spaces = true ->
  Text.lower word = "cowoncy" ->
  Text.search_cash (prefix ++ token ++ spaces ++ word ++ suffix) = Some token.
Proof.
  intros K M Ht Hs Hw.
  pose proof (match_cash_at_number token spaces word suffix Ht Hs Hw) as Hm.
  destruct Ht as [d t Hd Ht]. cbn [append] in *.
  rewrite (search_cash_skips d _ Hd prefix M K).
  now rewrite search_cash_unfold, Hm.
Qed.

Lemma contains_skip (p a s : string) :
  Text.contains p s = true -> Text.contains p (a ++ s) = true.
Proof.
  intros H. induction a as [| c a IH]; [exact H |].
  cbn [append]. rewrite contains_unfold, IH. apply orb_true_r.
Qed.

Lemma keyword_in_message (prefix token spaces word suffix : string) :
  Text.lower word = "cowoncy" ->
  Text.contains "cowoncy"
    (Text.lower (prefix ++ token ++ spaces ++ word ++ suffix)) = true.
Proof.
  intros Hw. rewrite !lower_app, Hw.
  do 3 apply contains_skip. apply (contains_app "cowoncy" "").
Qed.

Lemma no_keyword_no_balance (messages : list string) :
  no_keyword_in messages -> no_balance_in messages.
Proof. apply Forall_impl. intros m H. now left. Qed.

(** ** Balance extraction *)

(** C8: [check_cash] goes through the batch, most recent message first,
    to the first message with the currency word (in any case); when a
    thousands-separated number stands right before the first currency word
    of that message, with or without white space in between, it returns
    that number with the commas removed, parsed as a float: the binary64
    value nearest to it, which is the number itself up to [2 ** 53] (a
    number beyond the largest float would be read as an infinity, which the
    model does not have).  The batch of the example yields 1234567; the
    balance [2 ** 53 + 1] is read as [2 ** 53]; a batch without the
    currency word yields the sentinel 0 and leaves the engine as it was. *)
Theorem balance_read_takes_number_before_keyword
  (config : Config) (client : Client) (w : World) (self : BettingEngine) :
  (forall pre message_text rest prefix token spaces word suffix,
      client (fetches w) 10%nat = Batch (pre ++ message_text :: rest) ->
      no_keyword_in pre ->
      message_text = prefix ++ token ++ spaces ++ word ++ suffix ->
      Text.contains "cowoncy" (Text.lower prefix) = false ->
      ends_in_number prefix = false ->
      comma_number token ->
      all_space spaces = true ->
      Text.lower word = "cowoncy" ->
      inject_Z (token_value token) <= Py.max_float ->
      fst (fst (check_cash config client w self))
      = Py.fl (inject_Z (token_value token))
      /\ current_cash (snd (check_cash config client w self))
         = Py.fl (inject_Z (token_value token))
      /\ ((token_value token <= 2 ^ 53)%Z ->
          fst (fst (check_cash config client w self))
          = inject_Z (token_value token)))
  /\ fst (fst (check_cash config (scripted one_balance_message) new_world self))
     = 1234567
  /\ fst (fst (check_cash config (scripted balance_beyond_53_bits) new_world
                 self))
     = 9007199254740992
  /\ (forall messages,
        client (fetches w) 10%nat = Batch messages ->
        no_keyword_in messages ->
        check_cash config client w self
        = (0, snd (fetch client 10 (send_command "w cash" "cash_check" w)),
           self)).
Proof.
  split; [| split; [| split]].
  - intros pre message_text rest prefix token spaces word suffix
      Hc Hpre -> K M Ht Hs Hw _.
    unfold check_cash, fetch. cbn [fetches send_command]. rewrite Hc.
    rewrite (check_cash_loop_skip config pre _ self
               (no_keyword_no_balance pre Hpre)).
    rewrite (check_cash_loop_found config _ rest self token
               (keyword_in_message prefix token spaces word suffix Hw)
               (search_cash_finds prefix token spaces word suffix
                  K M Ht Hs Hw)).
    cbn [fst snd]. change (Text.float (Text.remove_char "," token))
      with (Py.fl (inject_Z (token_value token))).
    split; [reflexivity |]. split; [apply record_balance_cash |].
    intros Hsmall. apply fl_small_int.
    pose proof (int_of_digits_nonneg (Text.remove_char "," token) 0
                  ltac:(lia)) as Hpos.
    fold (token_value token) in Hpos. lia.
  - unfold check_cash, fetch, scripted, one_balance_message.
    cbn [nth fetches send_command new_world].
    rewrite (check_cash_loop_found config _ _ self "1,234,567");
      [cbn [fst]; vm_compute; reflexivity
      | vm_compute; reflexivity | vm_compute; reflexivity].
  - unfold check_cash, fetch, scripted, balance_beyond_53_bits.
    cbn [nth fetches send_command new_world].
    rewrite (check_cash_loop_found config _ _ self "9,007,199,254,740,993");
      [cbn [fst]; vm_compute; reflexivity
      | vm_compute; reflexivity | vm_compute; reflexivity].
  - intros messages Hc Hno.
    unfold check_cash, fetch. cbn [fetches send_command snd]. rewrite Hc.
    now rewrite (check_cash_loop_not_found config messages self
                   (no_keyword_no_balance messages Hno)).
Qed.

Lemma ten_thousands_is_number : comma_number "12,345".
Proof.
  constructor; [reflexivity |].
  apply rest_digit; [reflexivity |].
  apply rest_group; [reflexivity |].
  apply rest_digit; [reflexivity |].
  apply rest_digit; [reflexivity |].
  apply rest_end.
Defined.

Lemma balance_read_takes_number_before_keyword_witness :
  fst (fst (check_cash get_default_config (scripted balance_after_chatter)
              new_world (init 0))) = 12345
  /\ current_cash
       (snd (check_cash get_default_config (scripted balance_after_chatter)
               new_world (init 0))) = 12345.
Proof.
  destruct (proj1 (balance_read_takes_number_before_keyword
                     get_default_config (scripted balance_after_chatter)
                     new_world (init 0))
              ["good luck all"] "user42, you currently have 12,345 cowoncy!"
              [] "user42, you currently have " "12,345" " " "cowoncy" "!")
    as (_ & Hcash & Hexact).
  - reflexivity.
  - repeat constructor.
  - reflexivity.
  - reflexivity.
  - reflexivity.
  - apply ten_thousands_is_number.
  - reflexivity.
  - reflexivity.
  - vm_compute. discriminate.
  - split.
    + apply Hexact. vm_compute. discriminate.
    + rewrite Hcash. vm_compute. reflexivity.
Defined.

(** ** Outcome interpretation *)

Lemma updated_loop_skip amount pre l self :
  no_marker_in pre ->
  updated_loop amount (pre ++ l)%list self = updated_loop amount l self.
Proof.
  induction 1 as [| m pre [Hw Hl] _ IH]; [reflexivity |].
  cbn [app updated_loop]. now rewrite Hw, Hl.
Qed.

Lemma final_loop_none amount l self :
  no_marker_in l -> final_loop amount l self = None.
Proof.
  induction 1 as [| m l [Hw Hl] _ IH]; [reflexivity |].
  cbn [final_loop]. now rewrite Hw, Hl.
Qed.

Lemma messages_loop_skip client amount pre l w self :
  no_spend_in pre ->
  messages_loop client amount (pre ++ l)%list w self
  = messages_loop client amount l w self.
Proof.
  induction 1 as [| m pre Hm _ IH]; [reflexivity |].
  cbn [app messages_loop]. unfold spend_phrase in Hm. now rewrite Hm.
Qed.

Lemma messages_loop_none client amount l w self :
  no_spend_in l -> messages_loop client amount l w self = (Falls_through, w).
Proof.
  intros H. rewrite <- (app_nil_r l). now rewrite messages_loop_skip.
Qed.

(** The first message with the spend phrase. *)
Lemma first_spend (l : list string) :
  Exists (fun m => spend_phrase m = true) l ->
  exists pre m rest,
    l = (pre ++ m :: rest)%list /\ no_spend_in pre /\ spend_phrase m = true.
Proof.
  induction l as [| a l IH]; intros H; [inversion H |].
  destruct (spend_phrase a) eqn:E.
  - exists [], a, l. repeat split; [constructor | exact E].
  - inversion H as [? ? Ha | ? ? Hl]; subst; [congruence |].
    destruct (IH Hl) as (pre & m & rest & -> & Hpre & Hm).
    exists (a :: pre), m, rest. repeat split; [now constructor | exact Hm].
Qed.

(** The first pass: the bet is shown in the first batch and its outcome is
    found in the refreshed batch. *)
Lemma place_coinflip_bet_first_pass
  client amount w self first_batch updated_messages r self' :
  client (fetches w) 5%nat = Batch first_batch ->
  Exists (fun m => spend_phrase m = true) first_batch ->
  client (S (fetches w)) 5%nat = Batch updated_messages ->
  updated_loop (Py.round amount) updated_messages (record_placement amount self)
  = Some (r, self') ->
  fst (place_coinflip_bet client amount w self) = (r,
    {| fetches := S (S (fetches w));
       sent := ("w cf " ++ Text.str (Py.round amount), "bet") :: sent w |})
  /\ snd (place_coinflip_bet client amount w self) = self'.
Proof.
  intros H1 Hspend H2 Hu.
  destruct (first_spend first_batch Hspend) as (pre & m & rest & -> & Hpre & Hm).
  unfold place_coinflip_bet, fetch. cbn [fetches send_command]. rewrite H1.
  rewrite (messages_loop_skip client _ pre (m :: rest) _ _ Hpre).
  cbn [messages_loop]. unfold spend_phrase in Hm. rewrite Hm.
  unfold fetch. cbn [fetches sent]. rewrite H2.
  unfold record_placement in Hu. cbn [total_bets set_current_bet].
  rewrite Hu. split; reflexivity.
Qed.

Lemma final_loop_no_decision amount l self :
  no_decision_in amount l -> final_loop amount l self = None.
Proof.
  induction 1 as [| m l [Hw Hl] _ IH]; [reflexivity |].
  cbn [final_loop]. unfold final_win, final_loss in Hw, Hl.
  now rewrite Hw, Hl.
Qed.

Lemma final_loop_after_no_decision amount before l self :
  no_decision_in amount before ->
  final_loop amount (before ++ l)%list self = final_loop amount l self.
Proof.
  induction 1 as [| m before [Hw Hl] _ IH]; [reflexivity |].
  cbn [app final_loop]. unfold final_win, final_loss in Hw, Hl.
  now rewrite Hw, Hl.
Qed.

(** A batch without markers decides nothing in the last pass. *)
Lemma no_marker_no_decision amount l :
  no_marker_in l -> no_decision_in amount l.
Proof.
  apply Forall_impl. intros m [Hw Hl]. unfold final_win, final_loss.
  now rewrite Hw, Hl.
Qed.

(** The last pass: no message of the first batch shows the bet, so the
    batch fetched last decides. *)
Lemma place_coinflip_bet_last_pass
  client amount w self first_batch final_messages :
  client (fetches w) 5%nat = Batch first_batch ->
  no_spend_in first_batch ->
  client (S (fetches w)) 10%nat = Batch final_messages ->
  place_coinflip_bet client amount w self
  = match final_loop (Py.round amount) final_messages
            (record_placement amount self) with
    | Some (r, self') =>
        (r, {| fetches := S (S (fetches w));
               sent := ("w cf " ++ Text.str (Py.round amount), "bet")
                       :: sent w |}, self')
    | None =>
        (BetUnknown,
         {| fetches := S (S (fetches w));
            sent := ("w cf " ++ Text.str (Py.round amount), "bet") :: sent w |},
         record_placement amount self)
    end.
Proof.
  intros H1 Hnone H2.
  unfold place_coinflip_bet, fetch. cbn [fetches send_command]. rewrite H1.
  rewrite (messages_loop_none client _ first_batch _ _ Hnone).
  cbn [fetches sent]. rewrite H2. unfold record_placement.
  cbn [total_bets set_current_bet].
  destruct (final_loop (Py.round amount) final_messages _) as [[r self'] |];
    reflexivity.
Qed.

(** C7, as the code has it.  When the first batch shows the bet (a message
    with the spend and spin phrases), the first message of the refreshed
    batch that has a marker decides: the message "You won **200**!!" is a
    win with the extracted amount 200; any message with the win marker is a
    win, of the extracted amount or, when none can be extracted, of twice
    the bet, also when it has the loss marker too; the loss marker without
    the win marker is a loss, whatever the amount.  When no message of the
    first batch shows the bet, the batch fetched last decides, and there a
    marker counts only in a message that also holds the digits of the bet:
    the first such message is a win of twice the bet or a loss; when there
    is none, as in a batch of unrelated text or one whose loss message
    lacks the amount, the outcome is unknown and the win, loss and streak
    counters stay as they were. *)
Theorem outcome_interpretation
  (client : Client) (w : World) (self : BettingEngine) (amount : Q) :
  (forall first_batch before updated_text after,
      client (fetches w) 5%nat = Batch first_batch ->
      Exists (fun m => spend_phrase m = true) first_batch ->
      client (S (fetches w)) 5%nat
      = Batch (before ++ updated_text :: after)%list ->
      no_marker_in before ->
      (updated_text = "You won **200**!!" ->
       fst (fst (place_coinflip_bet client amount w self))
       = BetWon (inl "200"))
      /\ (Text.contains "you won" (Text.lower updated_text) = true ->
          fst (fst (place_coinflip_bet client amount w self))
          = BetWon
              match Text.search_won (Text.lower updated_text) with
              | Some group1 => inl (Text.remove_char "," group1)
              | None => inr (Py.round amount * 2)%Z
              end)
      /\ (Text.contains "you won" (Text.lower updated_text) = false ->
          Text.contains "lost it all" (Text.lower updated_text) = true ->
          fst (fst (place_coinflip_bet client amount w self)) = BetLost))
  /\ (forall first_batch final_messages,
        client (fetches w) 5%nat = Batch first_batch ->
        no_spend_in first_batch ->
        client (S (fetches w)) 10%nat = Batch final_messages ->
        (forall before message_text after,
            final_messages = (before ++ message_text :: after)%list ->
            no_decision_in (Py.round amount) before ->
            (final_win (Py.round amount) message_text = true ->
             fst (fst (place_coinflip_bet client amount w self))
             = BetWon (inr (Py.round amount * 2)%Z))
            /\ (final_win (Py.round amount) message_text = false ->
                final_loss (Py.round amount) message_text = true ->
                fst (fst (place_coinflip_bet client amount w self))
                = BetLost))
        /\ (no_decision_in (Py.round amount) final_messages ->
            fst (fst (place_coinflip_bet client amount w self)) = BetUnknown
            /\ total_wins (snd (place_coinflip_bet client amount w self))
               = total_wins self
            /\ total_losses (snd (place_coinflip_bet client amount w self))
               = total_losses self
            /\ consecutive_losses
                 (snd (place_coinflip_bet client amount w self))
               = consecutive_losses self)
        /\ (no_marker_in final_messages ->
            fst (fst (place_coinflip_bet client amount w self)) = BetUnknown)).
Proof.
  split.
  - intros first_batch before updated_text after H1 Hspend H2 Hbefore.
    assert (Hpass : forall r self',
               updated_loop (Py.round amount) (updated_text :: after)
                 (record_placement amount self) = Some (r, self') ->
               fst (fst (place_coinflip_bet client amount w self)) = r).
    { intros r self' Hu.
      rewrite <- (updated_loop_skip _ before _ _ Hbefore) in Hu.
      destruct (place_coinflip_bet_first_pass client amount w self
                  first_batch _ r self' H1 Hspend H2 Hu) as [-> _].
      reflexivity. }
    split; [| split].
    + intros ->. eapply Hpass. cbn [updated_loop].
      replace (Text.contains "you won" (Text.lower "You won **200**!!"))
        with true by (vm_compute; reflexivity).
      replace (Text.search_won (Text.lower "You won **200**!!"))
        with (Some "200") by (vm_compute; reflexivity).
      reflexivity.
    + intros Hw. eapply Hpass. cbn [updated_loop].
      rewrite Hw. reflexivity.
    + intros Hw Hl. eapply Hpass. cbn [updated_loop].
      rewrite Hw, Hl. reflexivity.
  - intros first_batch final_messages H1 Hnone H2.
    rewrite (place_coinflip_bet_last_pass client amount w self first_batch
               final_messages H1 Hnone H2).
    split; [| split].
    + intros before message_text after -> Hbefore.
      rewrite (final_loop_after_no_decision _ before _ _ Hbefore).
      cbn [final_loop]. unfold final_win, final_loss. split.
      * intros Hw. rewrite Hw. reflexivity.
      * intros Hw Hl. rewrite Hw, Hl. reflexivity.
    + intros Hno. rewrite (final_loop_no_decision _ _ _ Hno).
      repeat split.
    + intros Hno.
      rewrite (final_loop_no_decision _ _ _
                 (no_marker_no_decision _ _ Hno)).
      reflexivity.
Qed.

(** C7 as worded fails for the loss marker: a bet of 100 that the first
    batch does not show, with a last batch whose one message is the loss
    message without the amount, has an unknown outcome, not a loss. *)
Lemma loss_marker_without_amount_is_unknown :
  ~ (forall amount message_text,
       Text.contains "lost it all" (Text.lower message_text) = true ->
       Text.contains "you won" (Text.lower message_text) = false ->
       fst (fst (place_coinflip_bet (scripted (last_batch_of_one message_text))
                   amount new_world (init 0))) = BetLost).
Proof.
  intros H.
  specialize (H 100 "and you lost it all... :c"
                ltac:(vm_compute; reflexivity) ltac:(vm_compute; reflexivity)).
  vm_compute in H. discriminate H.
Qed.

(** In the refreshed batch the win marker is tested first: a message with
    both markers is a win, here of twice the bet of 100. *)
Lemma both_markers_is_a_win :
  fst (fst (place_coinflip_bet (scripted both_markers) 100 new_world (init 0)))
  = BetWon (inr 200%Z).
Proof. vm_compute. reflexivity. Qed.

(** A bet of 100 won with the payout 200 in the refreshed batch. *)
Lemma outcome_interpretation_witness :
  fst (fst (place_coinflip_bet (scripted won_200) 100 new_world (init 0)))
  = BetWon (inl "200").
Proof.
  destruct (outcome_interpretation (scripted won_200) new_world (init 0) 100)
    as [Hfirst _].
  assert (Hspend : Exists (fun m => spend_phrase m = true) (nth 0 won_200 [])).
  { apply Exists_cons_hd. reflexivity. }
  destruct (Hfirst (nth 0 won_200 []) [] "You won **200**!!" []
              eq_refl Hspend eq_refl (Forall_nil _)) as [Hwin _].
  apply Hwin. reflexivity.
Defined.

(** ** The Discord client *)

(** [DiscordClient.get_recent_messages] catches its own errors: the engine
    never sees it raise. *)
Lemma discord_client_never_raises page k limit :
  discord_client page k limit <> Raise.
Proof. unfold discord_client. discriminate. Qed.

(** It returns at most [limit] messages, for a positive limit. *)
Lemma get_recent_messages_at_most limit dom :
  (0 < limit)%nat ->
  (List.length (get_recent_messages limit dom) <= limit)%nat.
Proof.
  intros Hl. destruct dom as [messages |]; cbn; [| lia].
  destruct limit as [| n]; [lia |].
  rewrite length_rev, length_skipn. lia.
Qed.

(** The most recent message comes first. *)
Lemma get_recent_messages_latest_first limit older latest :
  (0 < limit)%nat ->
  hd_error (get_recent_messages limit (Some (older ++ [latest])%list))
  = Some latest.
Proof.
  intros Hl. cbn. destruct limit as [| n]; [lia |].
  rewrite length_app. cbn [List.length].
  replace (List.length older + 1 - S n)%nat
    with (List.length older - n)%nat by lia.
  rewrite skipn_app.
  replace (List.length older - n - List.length older)%nat with 0%nat by lia.
  cbn [skipn]. rewrite rev_app_distr. reflexivity.
Qed.

(** * Further properties of the engine *)

(** ** Fields that the risk check and the bets leave alone *)

Lemma risk_keeps_counters config s :
  total_profit (_check_risk_conditions config s) = total_profit s
  /\ consecutive_losses (_check_risk_conditions config s) = consecutive_losses s
  /\ current_bet (_check_risk_conditions config s) = current_bet s.
Proof.
  unfold _check_risk_conditions. split_ifs; cbn; repeat split.
Qed.

Lemma bet_keeps_balances amount r s :
  current_cash (record_result r (record_placement amount s)) = current_cash s
  /\ starting_balance (record_result r (record_placement amount s))
     = starting_balance s
  /\ total_profit (record_result r (record_placement amount s))
     = total_profit s.
Proof.
  unfold record_result, record_win, record_loss, record_placement.
  destruct r; split_ifs; cbn; repeat split.
Qed.

Lemma bet_keeps_flags amount r s :
  stop_loss_triggered (record_result r (record_placement amount s))
  = stop_loss_triggered s
  /\ profit_target_reached (record_result r (record_placement amount s))
     = profit_target_reached s
  /\ max_losses_reached (record_result r (record_placement amount s))
     = max_losses_reached s.
Proof.
  unfold record_result, record_win, record_loss, record_placement.
  destruct r; split_ifs; cbn; repeat split.
Qed.

Lemma bet_sets_current_bet amount r s :
  current_bet (record_result r (record_placement amount s)) = Py.round amount.
Proof.
  unfold record_result, record_win, record_loss, record_placement.
  destruct r; split_ifs; reflexivity.
Qed.

(** A session in the form of its final engine. *)
Lemma session_related_snd
  (R : list bet_result -> BettingEngine -> BettingEngine -> Prop)
  (config : Config) :
  (forall s, R [] s s) ->
  (forall l1 l2 a b c, R l1 a b -> R l2 b c -> R (l1 ++ l2)%list a c) ->
  (forall v s, R [] s (record_balance config v s)) ->
  (forall s, R [] s (_check_risk_conditions config s)) ->
  (forall amount r s, R [r] s (record_result r (record_placement amount s))) ->
  forall client ops w self,
    R (fst (fst (session config client ops w self))) self
      (snd (session config client ops w self)).
Proof.
  intros H1 H2 H3 H4 H5 client ops w self.
  destruct (session config client ops w self) as [[rs w'] self'] eqn:S.
  apply (session_related R config H1 H2 H3 H4 H5 client ops w self rs w' self' S).
Qed.

(** ** The stored profit *)

Lemma profit_consistent_balance config v s :
  profit_consistent (record_balance config v s).
Proof.
  unfold profit_consistent, record_balance.
  set (s1 := if Py.eqb _ 0 then _ else _).
  set (s2 := set_total_profit _ s1).
  rewrite (proj1 (risk_keeps_balances config s2)),
    (proj2 (risk_keeps_balances config s2)),
    (proj1 (risk_keeps_counters config s2)).
  reflexivity.
Qed.

(** X1: in every session of a new engine, the stored profit is the balance
    minus the starting balance (a float subtraction), whatever the client
    answers. *)
Theorem total_profit_is_balance_minus_start
  (config : Config) (client : Client) (ops : list operation) (w : World)
  (now : Q) :
  total_profit (snd (session config client ops w (init now)))
  == Py.sub (current_cash (snd (session config client ops w (init now))))
            (starting_balance (snd (session config client ops w (init now)))).
Proof.
  apply (session_related_snd
           (fun _ s s' => profit_consistent s -> profit_consistent s') config).
  - auto.
  - auto.
  - intros v s _. apply profit_consistent_balance.
  - intros s. unfold profit_consistent.
    now rewrite (proj1 (risk_keeps_balances config s)),
      (proj2 (risk_keeps_balances config s)),
      (proj1 (risk_keeps_counters config s)).
  - intros amount r s. unfold profit_consistent.
    destruct (bet_keeps_balances amount r s) as (-> & -> & ->). auto.
  - reflexivity.
Qed.

(** ** The loss streak *)

Lemma streak_after_app c l1 l2 :
  streak_after c (l1 ++ l2) = streak_after (streak_after c l1) l2.
Proof.
  revert c. induction l1 as [| r l1 IH]; intros c; [reflexivity |].
  destruct r; cbn; apply IH.
Qed.

Lemma streak_after_nonneg c rs : (0 <= c)%Z -> (0 <= streak_after c rs)%Z.
Proof.
  revert c. induction rs as [| r rs IH]; intros c Hc; [exact Hc |].
  destruct r; cbn; apply IH; lia.
Qed.

Lemma trailing_losses_snoc rs r :
  trailing_losses (rs ++ [r])
  = match r with
    | BetWon _ => 0%Z
    | BetLost => (trailing_losses rs + 1)%Z
    | BetUnknown => trailing_losses rs
    end.
Proof.
  unfold trailing_losses. rewrite filter_app.
  destruct r; cbn [filter is_unknown negb]; rewrite ?app_nil_r;
    try reflexivity; rewrite rev_app_distr; cbn [rev app leading_losses].
  - reflexivity.
  - lia.
Qed.

Lemma streak_is_trailing_losses rs : streak_after 0 rs = trailing_losses rs.
Proof.
  induction rs as [| r rs IH] using rev_ind; [reflexivity |].
  rewrite streak_after_app, trailing_losses_snoc, IH.
  destruct r; reflexivity.
Qed.

Lemma streak_bet amount r s :
  (0 <= consecutive_losses s)%Z ->
  consecutive_losses (record_result r (record_placement amount s))
  = streak_after (consecutive_losses s) [r].
Proof.
  intros Hc. unfold record_result, record_win, record_loss, record_placement.
  destruct r; cbn; [| reflexivity | reflexivity].
  destruct (0 <? consecutive_losses s)%Z eqn:E; cbn; [reflexivity |].
  apply Z.ltb_ge in E. lia.
Qed.

(** X2: in every session of a new engine, [consecutive_losses] is the
    length of the run of losses that ends the resolved bets so far: a win
    puts it back to 0, a loss adds one, a bet of unknown outcome leaves it. *)
Theorem consecutive_losses_is_trailing_run
  (config : Config) (client : Client) (ops : list operation) (w : World)
  (now : Q) :
  consecutive_losses (snd (session config client ops w (init now)))
  = trailing_losses (fst (fst (session config client ops w (init now)))).
Proof.
  rewrite <- streak_is_trailing_losses.
  apply (session_related_snd
           (fun rs s s' =>
              (0 <= consecutive_losses s)%Z ->
              consecutive_losses s' = streak_after (consecutive_losses s) rs)
           config).
  - intros s _. reflexivity.
  - intros l1 l2 a b c Hab Hbc Ha. rewrite streak_after_app.
    rewrite <- (Hab Ha). apply Hbc. rewrite (Hab Ha).
    now apply streak_after_nonneg.
  - intros v s _. unfold record_balance.
    rewrite (proj1 (proj2 (risk_keeps_counters config _))). cbn.
    destruct (Py.eqb (starting_balance s) 0); reflexivity.
  - intros s _. apply risk_keeps_counters.
  - intros amount r s. apply streak_bet.
  - cbn. lia.
Qed.

(** ** The thresholds of the risk check *)

Lemma nonzero_of_pos (S : Q) : 0 < S -> ~ S == 0.
Proof. intros HS Z0. rewrite Z0 in HS. now apply Qlt_irrefl in HS. Qed.

Lemma check_cash_loop_none_inv config messages self :
  check_cash_loop config messages self = None -> no_balance_in messages.
Proof.
  induction messages as [| message_text rest IH]; cbn; [constructor |].
  destruct (Text.contains "cowoncy" (Text.lower message_text)) eqn:K.
  - destruct (Text.search_cash message_text) eqn:M; [discriminate |].
    intros H. constructor; [now right | now apply IH].
  - intros H. constructor; [now left | now apply IH].
Qed.

(** A read from a batch that holds a balance: the engine is the old one
    with a whole-number balance recorded. *)
Lemma check_cash_success config client w self messages :
  client (fetches w) 10%nat = Batch messages ->
  ~ no_balance_in messages ->
  exists n : Z,
    fst (fst (check_cash config client w self)) = inject_Z n
    /\ snd (check_cash config client w self)
       = record_balance config (inject_Z n) self.
Proof.
  intros Hc Hsome. unfold check_cash, fetch. cbn [fetches send_command].
  rewrite Hc.
  destruct (check_cash_loop config messages self) as [[cash self'] |] eqn:L.
  - clear Hsome Hc. revert L.
    induction messages as [| message_text rest IH]; cbn; [discriminate |].
    destruct (Text.contains "cowoncy" (Text.lower message_text)); [| exact IH].
    destruct (Text.search_cash message_text) as [group1 |]; [| exact IH].
    intros [= <- <-].
    destruct (fl_of_whole (Text.int_of_digits 0 (Text.remove_char "," group1)))
      as [n Hn].
    exists n. cbn [fst snd]. unfold Text.float. rewrite Hn.
    split; [| reflexivity].
    apply (record_balance_cash config (inject_Z n) self).
  - exfalso. apply Hsome. now apply check_cash_loop_none_inv in L.
Qed.

Lemma risk_stop_loss_iff config s :
  stop_loss_triggered (_check_risk_conditions config s) = true
  <-> stop_loss_triggered s = true
      \/ (enable_stop_loss (risk_management config) = true
          /\ 0 < starting_balance s
          /\ stop_loss_percentage (risk_management config)
             <= computed_loss_percentage (starting_balance s)
                  (current_cash s)).
Proof.
  unfold _check_risk_conditions, computed_loss_percentage.
  rewrite <- ltb_spec, <- leb_spec.
  set (stop := if enable_stop_loss (risk_management config) && _ then _ else s).
  set (profit := if enable_profit_target (risk_management config) && _
                 then _ else stop).
  assert (Hp : stop_loss_triggered
                 (if (max_consecutive_losses (betting config)
                      <=? consecutive_losses profit)%Z
                  then set_max_losses_reached true profit
                  else profit)
               = stop_loss_triggered stop)
    by (unfold profit; split_ifs; reflexivity).
  rewrite Hp. unfold stop.
  destruct (enable_stop_loss (risk_management config));
    destruct (Py.ltb 0 (starting_balance s));
    destruct (Py.leb (stop_loss_percentage (risk_management config)) _);
    cbn; intuition congruence.
Qed.

Lemma risk_profit_target_iff config s :
  profit_target_reached (_check_risk_conditions config s) = true
  <-> profit_target_reached s = true
      \/ (enable_profit_target (risk_management config) = true
          /\ 0 < starting_balance s
          /\ profit_target_percentage (risk_management config)
             <= computed_profit_percentage (starting_balance s)
                  (total_profit s)).
Proof.
  unfold _check_risk_conditions, computed_profit_percentage.
  rewrite <- ltb_spec, <- leb_spec.
  set (stop := if enable_stop_loss (risk_management config) && _ then _ else s).
  assert (Hs : starting_balance stop = starting_balance s
               /\ total_profit stop = total_profit s
               /\ profit_target_reached stop = profit_target_reached s)
    by (unfold stop; split_ifs; cbn; repeat split).
  destruct Hs as (Hs1 & Hs2 & Hs3). rewrite Hs1, Hs2, <- Hs3.
  destruct (enable_profit_target (risk_management config));
    destruct (Py.ltb 0 (starting_balance s));
    destruct (Py.leb (profit_target_percentage (risk_management config)) _);
    cbn [andb]; split_ifs; cbn; intuition congruence.
Qed.

Lemma risk_max_losses_iff config s :
  max_losses_reached (_check_risk_conditions config s) = true
  <-> max_losses_reached s = true
      \/ (max_consecutive_losses (betting config) <= consecutive_losses s)%Z.
Proof.
  unfold _check_risk_conditions.
  set (stop := if enable_stop_loss (risk_management config) && _ then _ else s).
  set (profit := if enable_profit_target (risk_management config) && _
                 then _ else stop).
  assert (Hp : consecutive_losses profit = consecutive_losses s
               /\ max_losses_reached profit = max_losses_reached s)
    by (unfold profit, stop; split_ifs; cbn; repeat split).
  destruct Hp as (Hp1 & Hp2). rewrite Hp1, <- Hp2, <- Z.leb_le.
  destruct (max_consecutive_losses (betting config) <=? consecutive_losses s)%Z;
    cbn; intuition congruence.
Qed.

Lemma record_balance_started config v s :
  0 < starting_balance s ->
  record_balance config v s
  = _check_risk_conditions config
      (set_total_profit (Py.sub v (starting_balance s))
         (set_current_cash v s)).
Proof.
  intros HS. unfold record_balance. cbn.
  destruct (Py.eqb (starting_balance s) 0) eqn:E; [| reflexivity].
  apply eqb_spec in E. now apply nonzero_of_pos in HS.
Qed.

(** The computed loss percentage does not grow with the balance, and is not
    positive from the starting balance upward. *)
Lemma loss_percentage_falls (S a b : Q) :
  0 < S -> a <= b ->
  computed_loss_percentage S b <= computed_loss_percentage S a.
Proof.
  intros HS Hab. unfold computed_loss_percentage, Py.mul, Py.div, Py.sub.
  apply fl_mono. apply Qmult_le_compat_r; [| discriminate].
  apply fl_mono. apply div_le; [exact HS |].
  apply fl_mono. lra.
Qed.

Lemma loss_percentage_not_positive (S a : Q) :
  0 < S -> S <= a -> computed_loss_percentage S a <= 0.
Proof.
  intros HS Ha. unfold computed_loss_percentage, Py.mul, Py.div, Py.sub.
  assert (H1 : Py.fl (S - a) <= 0) by (apply fl_nonpos; lra).
  assert (H2 : Py.fl (Py.fl (S - a) / S) <= 0).
  { apply fl_nonpos. setoid_replace 0 with (0 / S) by (unfold Qdiv; ring).
    now apply div_le. }
  apply fl_nonpos.
  set (d := Py.fl (Py.fl (S - a) / S)) in *. clearbody d. lra.
Qed.

(** The computed profit percentage does not fall when the balance grows,
    and is not positive up to the starting balance. *)
Lemma profit_percentage_grows (S a b : Q) :
  0 < S -> a <= b ->
  computed_profit_percentage S (Py.sub a S)
  <= computed_profit_percentage S (Py.sub b S).
Proof.
  intros HS Hab. unfold computed_profit_percentage, Py.mul, Py.div, Py.sub.
  apply fl_mono. apply Qmult_le_compat_r; [| discriminate].
  apply fl_mono. apply div_le; [exact HS |].
  apply fl_mono. lra.
Qed.

Lemma profit_percentage_not_positive (S a : Q) :
  0 < S -> a <= S -> computed_profit_percentage S (Py.sub a S) <= 0.
Proof.
  intros HS Ha. unfold computed_profit_percentage, Py.mul, Py.div, Py.sub.
  assert (H1 : Py.fl (a - S) <= 0) by (apply fl_nonpos; lra).
  assert (H2 : Py.fl (Py.fl (a - S) / S) <= 0).
  { apply fl_nonpos. setoid_replace 0 with (0 / S) by (unfold Qdiv; ring).
    now apply div_le. }
  apply fl_nonpos.
  set (d := Py.fl (Py.fl (a - S) / S)) in *. clearbody d. lra.
Qed.

(** X3: a balance read that finds a balance, in an engine whose starting
    balance [S] is positive, keeps [S] and raises the flags by these tests:
    stop loss when enabled and the loss percentage, computed in binary64
    from [S] and the balance, reaches [stop_loss_percentage]; profit target
    when enabled and the computed profit percentage reaches
    [profit_target_percentage]; max losses when the loss streak is at least
    [max_consecutive_losses].  A flag that was set stays set.  The computed
    loss percentage does not grow with the balance and is not positive from
    [S] upward; the computed profit percentage does not fall when the balance
    grows and is not positive up to [S]. *)
Theorem risk_thresholds_at_balance_read
  (config : Config) (client : Client) (w : World) (self : BettingEngine)
  (messages : list string) :
  client (fetches w) 10%nat = Batch messages ->
  ~ no_balance_in messages ->
  0 < starting_balance self ->
  current_cash (snd (check_cash config client w self))
  = fst (fst (check_cash config client w self))
  /\ starting_balance (snd (check_cash config client w self))
     = starting_balance self
  /\ (stop_loss_triggered (snd (check_cash config client w self)) = true
      <-> stop_loss_triggered self = true
          \/ (enable_stop_loss (risk_management config) = true
              /\ stop_loss_percentage (risk_management config)
                 <= computed_loss_percentage (starting_balance self)
                      (fst (fst (check_cash config client w self)))))
  /\ (profit_target_reached (snd (check_cash config client w self)) = true
      <-> profit_target_reached self = true
          \/ (enable_profit_target (risk_management config) = true
              /\ profit_target_percentage (risk_management config)
                 <= computed_profit_percentage (starting_balance self)
                      (Py.sub (fst (fst (check_cash config client w self)))
                              (starting_balance self))))
  /\ (max_losses_reached (snd (check_cash config client w self)) = true
      <-> max_losses_reached self = true
          \/ (max_consecutive_losses (betting config)
              <= consecutive_losses self)%Z)
  /\ (forall lower higher,
        lower <= higher ->
        computed_loss_percentage (starting_balance self) higher
        <= computed_loss_percentage (starting_balance self) lower
        /\ computed_profit_percentage (starting_balance self)
             (Py.sub lower (starting_balance self))
           <= computed_profit_percentage (starting_balance self)
                (Py.sub higher (starting_balance self)))
  /\ (forall balance,
        (starting_balance self <= balance ->
         computed_loss_percentage (starting_balance self) balance <= 0)
        /\ (balance <= starting_balance self ->
            computed_profit_percentage (starting_balance self)
              (Py.sub balance (starting_balance self)) <= 0)).
Proof.
  intros Hc Hsome HS.
  destruct (check_cash_success config client w self messages Hc Hsome)
    as (n & -> & ->).
  split; [apply record_balance_cash |].
  split; [apply start_kept_balance; now apply nonzero_of_pos |].
  rewrite (record_balance_started config (inject_Z n) self HS).
  rewrite risk_stop_loss_iff, risk_profit_target_iff, risk_max_losses_iff.
  cbn [starting_balance current_cash total_profit consecutive_losses
       stop_loss_triggered profit_target_reached max_losses_reached
       set_total_profit set_current_cash].
  split; [tauto |]. split; [tauto |]. split; [tauto |]. split.
  - intros lower higher Hle. split.
    + now apply loss_percentage_falls.
    + now apply profit_percentage_grows.
  - intros balance. split; intros Hb.
    + now apply loss_percentage_not_positive.
    + now apply profit_percentage_not_positive.
Qed.

(** Rounding moves the thresholds: started at 100 with a stop loss of 29
    percent, a balance of 71 is a loss of exactly 29 percent, but the
    computed percentage is 28.999999999999996 and the flag stays down. *)
Lemma stop_loss_29_percent_is_missed :
  71 <= 100 * (1 - 29 / 100)
  /\ computed_loss_percentage 100 71 < 29
  /\ stop_loss_triggered
       (record_balance (config_stop_loss 29) 71
          (record_balance (config_stop_loss 29) 100 (init 0))) = false.
Proof. vm_compute. repeat split; discriminate. Qed.

Lemma drop_to_400_holds_balance : ~ no_balance_in (nth 0 drop_to_400 []).
Proof.
  intros H. inversion H as [| m l [K | K] _]; vm_compute in K; discriminate K.
Defined.

Lemma risk_thresholds_at_balance_read_witness :
  current_cash
    (snd (check_cash get_default_config (scripted drop_to_400) new_world
            started_at_1000)) = 400
  /\ stop_loss_triggered
       (snd (check_cash get_default_config (scripted drop_to_400) new_world
               started_at_1000)) = true.
Proof.
  destruct (risk_thresholds_at_balance_read get_default_config
              (scripted drop_to_400) new_world started_at_1000
              (nth 0 drop_to_400 []) eq_refl drop_to_400_holds_balance
              eq_refl) as (Hcash & _ & Hstop & _).
  split.
  - rewrite Hcash. vm_compute. reflexivity.
  - apply Hstop. right. split; [reflexivity |]. vm_compute. discriminate.
Defined.

(** ** One pass of the loop *)

Lemma should_stop_false_inv config now self :
  fst (should_stop_betting config now self) = false ->
  flagged self = false /\ 0 < current_cash self.
Proof.
  unfold should_stop_betting, flagged.
  destruct (stop_loss_triggered self); [discriminate |].
  destruct (profit_target_reached self); [discriminate |].
  destruct (max_losses_reached self); [discriminate |].
  destruct (Py.leb (current_cash self) 0) eqn:E; [discriminate |].
  intros _. split; [reflexivity | now apply leb_false in E].
Qed.

Lemma should_stop_flagged config now self :
  flagged self = true -> fst (should_stop_betting config now self) = true.
Proof.
  unfold should_stop_betting, flagged.
  destruct (stop_loss_triggered self); [reflexivity |].
  destruct (profit_target_reached self); [reflexivity |].
  destruct (max_losses_reached self); [reflexivity | discriminate].
Qed.

(** X4: a pass that gets past its stop check, is not ended by the
    verification monitor and reads a positive balance places a bet, even
    when that balance read has just raised a risk flag: the flags are
    looked at only at the start of a pass.  The flags after the pass are
    those after the balance read, and when one is set the next pass stops
    without touching the engine or the client. *)
Theorem pass_bets_before_new_flags_stop
  (config : Config) (client : Client) (now : Q) (v : verification)
  (w : World) (self : BettingEngine) :
  fst (should_stop_betting config now self) = false ->
  v <> Timed_out ->
  0 < fst (fst (check_cash config client w self)) ->
  (exists bet_amount result,
      fst (fst (betting_pass config client now v w self))
      = Bet bet_amount result)
  /\ flagged (snd (betting_pass config client now v w self))
     = flagged (snd (check_cash config client w self))
  /\ (flagged (snd (check_cash config client w self)) = true ->
      forall now' v' w',
      exists reason,
        betting_pass config client now' v' w'
          (snd (betting_pass config client now v w self))
        = (Stop reason, w', snd (betting_pass config client now v w self))).
Proof.
  intros Hstop Hv Hcash.
  assert (Hpass :
    exists bet_amount result,
      fst (fst (betting_pass config client now v w self))
      = Bet bet_amount result
      /\ flagged (snd (betting_pass config client now v w self))
         = flagged (snd (check_cash config client w self))).
  { unfold betting_pass.
    destruct (should_stop_betting config now self) as [should_stop reason].
    cbn [fst] in Hstop. subst should_stop.
    destruct (check_cash config client w self) as [[cash w1] self1].
    cbn [fst snd] in *.
    assert (E : Py.leb cash 0 = false) by now apply leb_false.
    destruct (place_coinflip_bet client
                (cap_to_balance (inject_Z (calculate_bet_amount config self1))
                   cash) w1 self1) as [[r w2] self2] eqn:P.
    apply place_coinflip_bet_effect in P. subst self2.
    destruct v; try congruence; rewrite E; cbn [fst snd];
      eexists; eexists; (split; [reflexivity |]);
      unfold flagged;
      destruct (bet_keeps_flags
                  (cap_to_balance
                     (inject_Z (calculate_bet_amount config self1)) cash)
                  r self1) as (-> & -> & ->); reflexivity. }
  destruct Hpass as (bet_amount & result & Hbet & Hflags).
  split; [now exists bet_amount, result |].
  split; [exact Hflags |].
  intros Hflagged now' v' w'. rewrite <- Hflags in Hflagged.
  pose proof (should_stop_flagged config now' _ Hflagged) as Hs.
  unfold betting_pass at 1.
  destruct (should_stop_betting config now'
              (snd (betting_pass config client now v w self)))
    as [should_stop reason].
  cbn [fst] in Hs. subst should_stop. now exists reason.
Qed.

(** The stop loss is hit by the balance read of the pass, and the pass
    still bets. *)
Lemma pass_bets_before_new_flags_stop_witness :
  flagged (snd (check_cash get_default_config (scripted drop_to_400)
                  new_world started_at_1000)) = true
  /\ exists bet_amount result,
       fst (fst (betting_pass get_default_config (scripted drop_to_400) 0
                   Inactive new_world started_at_1000))
       = Bet bet_amount result.
Proof.
  split; [reflexivity |].
  apply (pass_bets_before_new_flags_stop get_default_config
           (scripted drop_to_400) 0 Inactive new_world started_at_1000).
  - reflexivity.
  - discriminate.
  - reflexivity.
Defined.

Lemma check_cash_loop_whole config messages self cash self' :
  check_cash_loop config messages self = Some (cash, self') ->
  exists n : Z,
    cash = inject_Z n /\ self' = record_balance config (inject_Z n) self.
Proof.
  induction messages as [| message_text rest IH]; cbn; [discriminate |].
  destruct (Text.contains "cowoncy" (Text.lower message_text)); [| exact IH].
  destruct (Text.search_cash message_text) as [group1 |]; [| exact IH].
  intros [= <- <-].
  destruct (fl_of_whole (Text.int_of_digits 0 (Text.remove_char "," group1)))
    as [n Hn].
  exists n. unfold Text.float. rewrite Hn.
  split; [| reflexivity].
  apply (record_balance_cash config (inject_Z n) self).
Qed.

(** What [check_cash] gives: the sentinel 0 and the engine untouched, or a
    whole-number balance and the engine with that balance recorded. *)
Lemma check_cash_cases config client w self cash w' self' :
  check_cash config client w self = (cash, w', self') ->
  (cash = 0 /\ self' = self)
  \/ exists n : Z,
       cash = inject_Z n /\ self' = record_balance config (inject_Z n) self.
Proof.
  unfold check_cash, fetch.
  destruct (client _ 10%nat) as [messages |];
    [| intros [= <- <- <-]; now left].
  destruct (check_cash_loop config messages self) as [[cash1 self1] |] eqn:L;
    intros [= <- <- <-]; [| now left].
  right. now apply check_cash_loop_whole in L.
Qed.

Lemma cap_to_balance_le bet_amount cash : cap_to_balance bet_amount cash <= cash.
Proof.
  unfold cap_to_balance. destruct (Py.ltb cash bet_amount) eqn:E.
  - apply Qle_refl.
  - now apply ltb_false in E.
Qed.

(** X5: the bet of a pass is a whole number, at most the balance read in
    the same pass, which is positive; it is the amount stored as
    [current_bet]. *)
Theorem loop_bet_within_balance
  (config : Config) (client : Client) (now : Q) (v : verification)
  (w : World) (self : BettingEngine) (bet_amount : Q) (result : bet_result) :
  fst (fst (betting_pass config client now v w self)) = Bet bet_amount result ->
  bet_amount
  = inject_Z (current_bet (snd (betting_pass config client now v w self)))
  /\ bet_amount
     <= current_cash (snd (betting_pass config client now v w self))
  /\ 0 < current_cash (snd (betting_pass config client now v w self))
  /\ current_cash (snd (betting_pass config client now v w self))
     = fst (fst (check_cash config client w self)).
Proof.
  unfold betting_pass.
  destruct (should_stop_betting config now self) as [should_stop reason].
  destruct should_stop; [discriminate |].
  destruct (check_cash config client w self) as [[cash w1] self1] eqn:C.
  cbn [fst snd].
  assert (Hgo :
    Py.leb cash 0 = false ->
    forall r w2 self2,
      place_coinflip_bet client
        (cap_to_balance (inject_Z (calculate_bet_amount config self1)) cash)
        w1 self1 = (r, w2, self2) ->
      cap_to_balance (inject_Z (calculate_bet_amount config self1)) cash
      = inject_Z (current_bet self2)
      /\ cap_to_balance (inject_Z (calculate_bet_amount config self1)) cash
         <= current_cash self2
      /\ 0 < current_cash self2
      /\ current_cash self2 = cash).
  { intros E r w2 self2 P. apply leb_false in E.
    apply place_coinflip_bet_effect in P. subst self2.
    rewrite bet_sets_current_bet.
    rewrite (proj1 (bet_keeps_balances _ r self1)).
    apply check_cash_cases in C. destruct C as [[-> _] | (n & -> & ->)].
    - now apply Qlt_irrefl in E.
    - rewrite record_balance_cash.
      assert (W : exists m,
                 cap_to_balance
                   (inject_Z
                      (calculate_bet_amount config
                         (record_balance config (inject_Z n) self)))
                   (inject_Z n) = inject_Z m).
      { unfold cap_to_balance. destruct (Py.ltb _ _); eexists; reflexivity. }
      destruct W as [m W]. split; [| split; [| split]].
      + rewrite W, round_whole. reflexivity.
      + apply cap_to_balance_le.
      + exact E.
      + reflexivity. }
  destruct v; try discriminate;
    (destruct (Py.leb cash 0) eqn:E; [discriminate |]);
    destruct (place_coinflip_bet client _ w1 self1) as [[r w2] self2] eqn:P;
    cbn [fst snd]; intros [= <- <-];
    apply (Hgo eq_refl r w2 self2 eq_refl).
Qed.

Lemma loop_bet_within_balance_witness :
  (4 : Q)
  = inject_Z
      (current_bet
         (snd (betting_pass get_default_config (scripted drop_to_400) 0
                 Inactive new_world started_at_1000)))
  /\ 4 <= current_cash
            (snd (betting_pass get_default_config (scripted drop_to_400) 0
                    Inactive new_world started_at_1000)).
Proof.
  destruct (loop_bet_within_balance get_default_config (scripted drop_to_400)
              0 Inactive new_world started_at_1000 4 BetLost eq_refl)
    as (Hbet & Hle & _).
  split; [exact Hbet | exact Hle].
Defined.

(** ** Session statistics *)

Lemma floor_unique (x : Q) (n : Z) :
  inject_Z n <= x -> x < inject_Z n + 1 -> Qfloor x = n.
Proof.
  intros Hlo Hhi.
  pose proof (Qfloor_le x) as H1. pose proof (Qlt_floor x) as H2.
  rewrite inject_Z_succ in H2.
  assert (A : (Qfloor x < n + 1)%Z).
  { rewrite Zlt_Qlt, inject_Z_succ. lra. }
  assert (B : (n < Qfloor x + 1)%Z).
  { rewrite Zlt_Qlt, inject_Z_succ. lra. }
  lia.
Qed.

Lemma divmod_spec (x d : Q) :
  0 < d ->
  x == inject_Z (fst (divmod x d)) * d + snd (divmod x d)
  /\ 0 <= snd (divmod x d) /\ snd (divmod x d) < d.
Proof.
  intros Hd. unfold divmod. cbn [fst snd].
  pose proof (Qfloor_le (x / d)) as H1.
  pose proof (Qlt_floor (x / d)) as H2. rewrite inject_Z_succ in H2.
  set (q := inject_Z (Qfloor (x / d))) in *. clearbody q.
  assert (Hx : x == x / d * d) by (field; now apply nonzero_of_pos).
  assert (A : q * d <= x / d * d)
    by (apply Qmult_le_compat_r; [exact H1 | now apply Qlt_le_weak]).
  assert (B : x / d * d < (q + 1) * d)
    by (apply Qmult_lt_compat_r; assumption).
  setoid_replace ((q + 1) * d) with (q * d + d) in B by ring.
  set (y := x / d * d) in *. clearbody y.
  set (z := q * d) in *. clearbody z.
  repeat split; lra.
Qed.

Lemma truncate_nonneg (x : Q) : 0 <= x -> truncate x = Qfloor x.
Proof.
  intros H. unfold truncate. apply Qle_bool_iff in H. now rewrite H.
Qed.

(** X6: the three numbers of the runtime shown by [get_statistics] are the
    whole seconds since the start of the session, split into hours, minutes
    below 60 and seconds below 60. *)
Theorem runtime_parts_split (now : Q) (self : BettingEngine) :
  let '(hours, minutes, seconds) := runtime_parts now self in
  (0 <= minutes < 60)%Z
  /\ (0 <= seconds < 60)%Z
  /\ (hours * 3600 + minutes * 60 + seconds)%Z
     = Qfloor ((now - session_start_time self) * 3600)
  /\ Stats.runtime (get_statistics now self)
     = pad2 hours ++ ":" ++ pad2 minutes ++ ":" ++ pad2 seconds.
Proof.
  unfold get_statistics, runtime_parts.
  set (x := (now - session_start_time self) * 3600).
  destruct (divmod_spec x 3600 eq_refl) as (Hx & Hr0 & Hr1).
  destruct (divmod x 3600) as [hours remainder]. cbn [fst snd] in *.
  destruct (divmod_spec remainder 60 eq_refl) as (Hm & Hs0 & Hs1).
  destruct (divmod remainder 60) as [minutes seconds]. cbn [fst snd] in *.
  rewrite (truncate_nonneg seconds Hs0).
  pose proof (Qfloor_le seconds) as F1.
  pose proof (Qlt_floor seconds) as F2. rewrite inject_Z_succ in F2.
  assert (M0 : (0 <= minutes)%Z).
  { assert (A : (-1 < minutes)%Z); [| lia].
    rewrite Zlt_Qlt. change (inject_Z (-1)) with (-1). lra. }
  assert (M1 : (minutes < 60)%Z).
  { rewrite Zlt_Qlt. change (inject_Z 60) with 60. lra. }
  assert (S0 : (0 <= Qfloor seconds)%Z).
  { assert (A : (-1 < Qfloor seconds)%Z); [| lia].
    rewrite Zlt_Qlt. change (inject_Z (-1)) with (-1). lra. }
  assert (S1 : (Qfloor seconds < 60)%Z).
  { rewrite Zlt_Qlt. change (inject_Z 60) with 60. lra. }
  repeat split; try assumption.
  symmetry. apply floor_unique;
    rewrite !inject_Z_plus, !inject_Z_mult;
    change (inject_Z 3600) with 3600; change (inject_Z 60) with 60; lra.
Qed.

Lemma counted_in_session config client ops w now :
  counted (fst (fst (session config client ops w (init now)))) (init now)
    (snd (session config client ops w (init now))).
Proof.
  apply (session_related_snd counted config).
  - apply counted_refl.
  - apply counted_app.
  - apply counted_balance.
  - apply counted_risk.
  - apply counted_bet.
Qed.

(** X7: in every session of a new engine the wins are between 0 and the
    number of bets, so the win rate of [get_statistics], a float, is between
    0 and 100; with no bet placed it is 0. *)
Theorem win_rate_is_a_percentage
  (config : Config) (client : Client) (ops : list operation) (w : World)
  (now later : Q) :
  0 <= Stats.win_rate
         (get_statistics later (snd (session config client ops w (init now))))
  /\ Stats.win_rate
       (get_statistics later (snd (session config client ops w (init now))))
     <= 100
  /\ (total_bets (snd (session config client ops w (init now))) = 0%Z ->
      Stats.win_rate
        (get_statistics later (snd (session config client ops w (init now))))
      = 0).
Proof.
  destruct (counted_in_session config client ops w now) as (Hb & Hw & _).
  pose proof (results_partition
                (fst (fst (session config client ops w (init now))))) as Hp.
  set (self' := snd (session config client ops w (init now))) in *.
  set (rs := fst (fst (session config client ops w (init now)))) in *.
  cbn [total_bets total_wins init] in Hb, Hw.
  assert (Hwins : (0 <= total_wins self' <= total_bets self')%Z).
  { unfold won, lost, undetermined in *. lia. }
  unfold get_statistics.
  destruct (runtime_parts later self') as [[hours minutes] seconds].
  cbn [Stats.win_rate].
  destruct (0 <? total_bets self')%Z eqn:E.
  - apply Z.ltb_lt in E.
    assert (Hbq : 0 < inject_Z (total_bets self'))
      by (change 0 with (inject_Z 0); now rewrite <- Zlt_Qlt).
    assert (Hw0 : 0 <= inject_Z (total_wins self'))
      by (change 0 with (inject_Z 0); rewrite <- Zle_Qle; lia).
    assert (Hw1 : inject_Z (total_wins self') <= inject_Z (total_bets self'))
      by (rewrite <- Zle_Qle; lia).
    assert (R0 : 0 <= inject_Z (total_wins self') / inject_Z (total_bets self'))
      by (apply Qle_shift_div_l; [exact Hbq | lra]).
    assert (R1 : inject_Z (total_wins self') / inject_Z (total_bets self') <= 1)
      by (apply Qle_shift_div_r; [exact Hbq | lra]).
    unfold Py.mul, Py.div.
    set (q := inject_Z (total_wins self') / inject_Z (total_bets self')) in *.
    clearbody q.
    destruct (fl_between q 0 1 ltac:(cbn; lia) ltac:(cbn; lia))
      as [Q0 Q1]; [split; assumption |].
    change (inject_Z 0) with 0 in Q0. change (inject_Z 1) with 1 in Q1.
    set (d := Py.fl q) in *. clearbody d.
    destruct (fl_between (d * 100) 0 100 ltac:(cbn; lia) ltac:(cbn; lia))
      as [P0 P1].
    { change (inject_Z 0) with 0. change (inject_Z 100) with 100.
      split; lra. }
    change (inject_Z 0) with 0 in P0. change (inject_Z 100) with 100 in P1.
    repeat split; try assumption. intros Z0. lia.
  - repeat split; lra.
Qed.

(** ** Commands and fetches of the engine *)

Lemma messages_loop_world client amount messages w self e w' :
  messages_loop client amount messages w self = (e, w') ->
  sent w' = sent w
  /\ (fetches w <= fetches w' <= fetches w + List.length messages)%nat.
Proof.
  revert w. induction messages as [| message_text rest IH]; intros w;
    cbn [messages_loop List.length].
  - intros [= <- <-]. split; [reflexivity | lia].
  - destruct (Text.contains "spent" (Text.lower message_text)
              && Text.contains "coin spins" (Text.lower message_text)).
    + unfold fetch.
      destruct (client (fetches w) 5%nat) as [updated_messages |].
      * destruct (updated_loop amount updated_messages self)
          as [[r self1] |].
        -- intros [= <- <-]. cbn. split; [reflexivity | lia].
        -- intros H. apply IH in H. cbn in H. split; [apply H | lia].
      * intros [= <- <-]. cbn. split; [reflexivity | lia].
    + intros H. apply IH in H. split; [apply H | lia].
Qed.

(** X8: [check_cash] sends the one command [w cash] and fetches once;
    [place_coinflip_bet] sends the one command [w cf] with the rounded
    amount and fetches at least once and at most twice more than the first
    batch has messages, so at most 7 times through the Discord client,
    whose batches of limit 5 hold at most 5 messages. *)
Theorem commands_and_fetches
  (config : Config) (client : Client) (amount : Q) (w : World)
  (self : BettingEngine) :
  (sent (snd (fst (check_cash config client w self)))
   = ("w cash", "cash_check") :: sent w
   /\ fetches (snd (fst (check_cash config client w self)))
      = S (fetches w))
  /\ sent (snd (fst (place_coinflip_bet client amount w self)))
     = ("w cf " ++ Text.str (Py.round amount), "bet") :: sent w
  /\ (fetches w
      < fetches (snd (fst (place_coinflip_bet client amount w self))))%nat
  /\ (forall first_batch,
        client (fetches w) 5%nat = Batch first_batch ->
        (fetches (snd (fst (place_coinflip_bet client amount w self)))
         <= fetches w + 2 + List.length first_batch)%nat)
  /\ (forall page,
        client = discord_client page ->
        (fetches (snd (fst (place_coinflip_bet client amount w self)))
         <= fetches w + 7)%nat).
Proof.
  split.
  { unfold check_cash, fetch. cbn [fetches send_command sent].
    destruct (client (fetches w) 10%nat) as [messages |]; [| now split].
    destruct (check_cash_loop config messages self) as [[cash self1] |];
      now split. }
  assert (Hplace :
    sent (snd (fst (place_coinflip_bet client amount w self)))
    = ("w cf " ++ Text.str (Py.round amount), "bet") :: sent w
    /\ (fetches w
        < fetches (snd (fst (place_coinflip_bet client amount w self))))%nat
    /\ forall first_batch,
         client (fetches w) 5%nat = Batch first_batch ->
         (fetches (snd (fst (place_coinflip_bet client amount w self)))
          <= fetches w + 2 + List.length first_batch)%nat).
  { unfold place_coinflip_bet, fetch. cbn [fetches send_command sent].
    destruct (client (fetches w) 5%nat) as [messages |].
    - destruct (messages_loop client (Py.round amount) messages _ _)
        as [e w1] eqn:M.
      apply messages_loop_world in M. cbn [sent fetches] in M.
      destruct M as (Ms & Mf).
      destruct e as [r self1 | |]; cbn [fst snd].
      + repeat split; [exact Ms | lia |].
        intros first_batch [= <-]. lia.
      + destruct (client (fetches w1) 10%nat) as [final_messages |].
        * destruct (final_loop (Py.round amount) final_messages _)
            as [[r self1] |]; cbn [fst snd sent fetches];
            (repeat split; [exact Ms | lia |]);
            intros first_batch [= <-]; lia.
        * cbn [fst snd sent fetches]. repeat split; [exact Ms | lia |].
          intros first_batch [= <-]. lia.
      + repeat split; [exact Ms | lia |].
        intros first_batch [= <-]. lia.
    - cbn [fst snd sent fetches]. repeat split; [lia |]. discriminate. }
  destruct Hplace as (Hs & Hlo & Hhi).
  repeat split; try assumption.
  intros page ->.
  specialize (Hhi (get_recent_messages 5 (page (fetches w))) eq_refl).
  pose proof (get_recent_messages_at_most 5 (page (fetches w))
                ltac:(lia)) as Hlen.
  lia.
Qed.

Lemma commands_and_fetches_witness :
  (fetches
     (snd (fst (place_coinflip_bet (discord_client quiet_page) 100 new_world
                  (init 0))))
   <= fetches new_world + 7)%nat.
Proof.
  apply (proj2 (proj2 (proj2 (proj2
           (commands_and_fetches get_default_config
              (discord_client quiet_page) 100 new_world (init 0)))))
           quiet_page eq_refl).
Defined.

(** ** The last pass *)

Lemma final_loop_skip amount before l self :
  Forall (fun m => final_win amount m = false /\ final_loss amount m = false)
         before ->
  final_loop amount (before ++ l)%list self = final_loop amount l self.
Proof.
  induction 1 as [| m before [Hw Hl] _ IH]; [reflexivity |].
  cbn [app final_loop]. unfold final_win, final_loss in Hw, Hl.
  now rewrite Hw, Hl.
Qed.

Lemma final_loop_without_amount amount l self :
  Forall (fun m => Text.contains (Text.str amount) m = false) l ->
  final_loop amount l self = None.
Proof.
  intros H. rewrite <- (app_nil_r l). rewrite final_loop_skip; [reflexivity |].
  eapply Forall_impl; [| exact H]. intros m Hm. unfold final_win, final_loss.
  rewrite Hm, !andb_false_r. now split.
Qed.

(** X9: when the first batch does not show the bet, the last batch
    decides, and there a marker counts only in a message that also holds
    the digits of the bet: with no such message the outcome is unknown
    whatever markers there are; otherwise the first message with a marker
    and the digits decides, as a win of twice the bet or as a loss. *)
Theorem last_pass_needs_the_amount
  (client : Client) (w : World) (self : BettingEngine) (amount : Q)
  (first_batch final_messages : list string) :
  client (fetches w) 5%nat = Batch first_batch ->
  no_spend_in first_batch ->
  client (S (fetches w)) 10%nat = Batch final_messages ->
  (Forall (fun m => Text.contains (Text.str (Py.round amount)) m = false)
          final_messages ->
   fst (fst (place_coinflip_bet client amount w self)) = BetUnknown)
  /\ (forall before message_text after,
        final_messages = (before ++ message_text :: after)%list ->
        Forall (fun m => final_win (Py.round amount) m = false
                         /\ final_loss (Py.round amount) m = false) before ->
        (final_win (Py.round amount) message_text = true ->
         fst (fst (place_coinflip_bet client amount w self))
         = BetWon (inr (Py.round amount * 2)%Z))
        /\ (final_win (Py.round amount) message_text = false ->
            final_loss (Py.round amount) message_text = true ->
            fst (fst (place_coinflip_bet client amount w self)) = BetLost)).
Proof.
  intros H1 Hnone H2.
  assert (Hlast : forall res,
             final_loop (Py.round amount) final_messages
               (record_placement amount self) = res ->
             fst (fst (place_coinflip_bet client amount w self))
             = match res with Some (r, _) => r | None => BetUnknown end).
  { intros res Hres. unfold place_coinflip_bet, fetch.
    cbn [fetches send_command]. rewrite H1.
    rewrite (messages_loop_none client _ first_batch _ _ Hnone).
    cbn [fetches]. rewrite H2. unfold record_placement in Hres.
    cbn [total_bets set_current_bet]. rewrite Hres.
    destruct res as [[r self1] |]; reflexivity. }
  split.
  - intros Hno. rewrite (Hlast None); [reflexivity |].
    now apply final_loop_without_amount.
  - intros before message_text after -> Hbefore. split.
    + intros Hw. erewrite Hlast; [| rewrite final_loop_skip by exact Hbefore;
        cbn [final_loop]; unfold final_win in Hw; rewrite Hw; reflexivity].
      reflexivity.
    + intros Hw Hl.
      erewrite Hlast; [| rewrite final_loop_skip by exact Hbefore;
        cbn [final_loop]; unfold final_win in Hw; unfold final_loss in Hl;
        rewrite Hw, Hl; reflexivity].
      reflexivity.
Qed.

(** A bet of 100: the loss message without the amount is passed over and
    the win message of an older bet, which holds the digits 100, counts. *)
Lemma last_pass_needs_the_amount_witness :
  fst (fst (place_coinflip_bet (scripted old_win_with_100) 100 new_world
              (init 0)))
  = BetWon (inr 200%Z).
Proof.
  destruct (last_pass_needs_the_amount (scripted old_win_with_100) new_world
              (init 0) 100 (nth 0 old_win_with_100 [])
              (nth 1 old_win_with_100 []) eq_refl
              ltac:(repeat constructor) eq_refl) as [_ Hfirst].
  destruct (Hfirst ["and you lost it all... :c"] "you won 1,100!!" []
              eq_refl ltac:(repeat constructor)) as [Hwin _].
  apply Hwin. reflexivity.
Defined.

(** ** The Discord client: recent messages *)

(** X10: for a positive limit [get_recent_messages] returns the first
    [limit] messages of the page read from the latest one back; a limit of
    0 returns the whole page, not nothing; when reading the page raises it
    returns no message. *)
Theorem get_recent_messages_is_latest_first (limit : nat) (messages : list string) :
  ((0 < limit)%nat ->
   get_recent_messages limit (Some messages) = firstn limit (rev messages))
  /\ get_recent_messages 0 (Some messages) = rev messages
  /\ get_recent_messages limit None = [].
Proof.
  split; [| split; reflexivity].
  intros Hl. cbn. destruct limit as [| n]; [lia |].
  now rewrite firstn_rev.
Qed.

Lemma get_recent_messages_is_latest_first_witness :
  get_recent_messages 2 (Some ["oldest"; "older"; "latest"])
  = firstn 2 (rev ["oldest"; "older"; "latest"]).
Proof.
  apply (proj1 (get_recent_messages_is_latest_first 2
                  ["oldest"; "older"; "latest"])).
  lia.
Defined.

(** ** The Discord client: random commands *)

Lemma dict_get_set_same d k v : dict_get (dict_set d k v) k = Some v.
Proof.
  induction d as [| [k' v'] d IH]; cbn.
  - now rewrite String.eqb_refl.
  - destruct (String.eqb k' k) eqn:E; cbn.
    + now rewrite String.eqb_refl.
    + now rewrite E.
Qed.

Lemma dict_get_set_other d k v k' :
  k <> k' -> dict_get (dict_set d k v) k' = dict_get d k'.
Proof.
  intros Hk. induction d as [| [k0 v0] d IH]; cbn.
  - apply String.eqb_neq in Hk. now rewrite Hk.
  - destruct (String.eqb k0 k) eqn:E; cbn.
    + apply String.eqb_eq in E. subst k0.
      apply String.eqb_neq in Hk. now rewrite Hk.
    + destruct (String.eqb k0 k'); [reflexivity | exact IH].
Qed.

Lemma dict_set_keeps_keys d k v k' :
  dict_get d k' <> None -> dict_get (dict_set d k v) k' <> None.
Proof.
  intros H. destruct (string_dec k k') as [-> | Hk].
  - rewrite dict_get_set_same. discriminate.
  - now rewrite dict_get_set_other.
Qed.

Lemma available_loop_spec cooldown current_time self commands :
  (forall c, In c commands -> dict_get (last_command_time self) c <> None) ->
  exists available,
    available_loop cooldown current_time self commands = Some available
    /\ forall c, In c available ->
         In c commands
         /\ exists last,
              dict_get (last_command_time self) c = Some last
              /\ cooldown <= current_time - last.
Proof.
  induction commands as [| cmd rest IH]; intros Hkeys.
  - exists []. split; [reflexivity | intros c []].
  - destruct IH as (available & Ha & Hspec).
    { intros c Hc. apply Hkeys. now right. }
    cbn [available_loop].
    destruct (dict_get (last_command_time self) cmd) as [last |] eqn:G;
      [| exfalso; now apply (Hkeys cmd (or_introl eq_refl))].
    rewrite Ha.
    destruct (Py.leb cooldown (current_time - last)) eqn:E.
    + exists (cmd :: available). split; [reflexivity |].
      intros c [<- | Hc].
      * split; [now left |]. exists last. split; [exact G |].
        now apply leb_spec.
      * destruct (Hspec c Hc) as [Hin Hl]. split; [now right | exact Hl].
    + exists available. split; [reflexivity |].
      intros c Hc. destruct (Hspec c Hc) as [Hin Hl].
      split; [now right | exact Hl].
Qed.

(** One call: it does not raise; when it sends, the command sent was off
    cooldown and its time is recorded; the other times are kept. *)
Lemma send_random_command_spec automation current_time pick w self :
  has_both_keys self ->
  exists was_sent w' self',
    send_random_command automation current_time pick w self
    = Some (was_sent, w', self')
    /\ has_both_keys self'
    /\ (was_sent = false -> w' = w /\ self' = self)
    /\ (was_sent = true ->
        exists command last,
          sent w' = (command, "random") :: sent w
          /\ dict_get (last_command_time self) command = Some last
          /\ random_command_cooldown automation <= current_time - last
          /\ last_command_time self'
             = dict_set (last_command_time self) command current_time).
Proof.
  intros [Kb Kh]. unfold send_random_command.
  destruct (enable_random_commands automation); cbn [negb].
  2: { exists false, w, self. repeat split; try assumption; discriminate. }
  destruct (available_loop_spec (random_command_cooldown automation)
              current_time self ["w b"; "w h"]) as (available & -> & Hspec).
  { intros c [<- | [<- | []]]; assumption. }
  destruct available as [| a available].
  - exists false, w, self. repeat split; try assumption; discriminate.
  - set (l := a :: available) in *.
    assert (Hin : In (nth (pick mod List.length l) l "") l).
    { apply nth_In. apply Nat.mod_upper_bound. discriminate. }
    destruct (Hspec _ Hin) as (_ & last & Hg & Hle).
    eexists true, _, _. split; [reflexivity |].
    split; [| split; [discriminate |]].
    + split; cbn [last_command_time]; now apply dict_set_keeps_keys.
    + intros _. exists (nth (pick mod List.length l) l ""), last.
      repeat split; assumption.
Qed.

Lemma random_commands_spec automation calls :
  0 <= random_command_cooldown automation ->
  forall w self,
    has_both_keys self ->
    exists events w' self',
      random_commands automation calls w self = Some (events, w', self')
      /\ separated (random_command_cooldown automation) events
      /\ Forall (fun e =>
                   forall last,
                     dict_get (last_command_time self) (snd e) = Some last ->
                     random_command_cooldown automation <= fst e - last)
                events.
Proof.
  intros Hcool.
  induction calls as [| [current_time pick] rest IH]; intros w self Hkeys.
  - exists [], w, self. repeat split. constructor.
  - cbn [random_commands].
    destruct (send_random_command_spec automation current_time pick w self
                Hkeys) as (was_sent & w1 & self1 & -> & Hkeys1 & Hno & Hyes).
    destruct (IH w1 self1 Hkeys1) as (events & w2 & self2 & -> & Hsep & Hall).
    destruct was_sent.
    + destruct (Hyes eq_refl) as (command & last & Hsent & Hg & Hle & Hset).
      rewrite Hsent.
      exists ((current_time, command) :: events), w2, self2.
      split; [reflexivity |].
      assert (Hafter :
        Forall (fun e => snd e = command ->
                         random_command_cooldown automation
                         <= fst e - current_time) events).
      { eapply Forall_impl; [| exact Hall]. intros [t c] H Hc.
        cbn [fst snd] in *. subst c. apply H.
        rewrite Hset. apply dict_get_set_same. }
      split; [split; assumption |].
      constructor.
      * cbn [fst snd]. intros last' Hg'. congruence.
      * rewrite Forall_forall in Hall, Hafter |- *.
        intros [t c] He last' Hg'. cbn [fst snd] in *.
        destruct (string_dec command c) as [<- | Hc].
        -- pose proof (Hafter _ He eq_refl) as H1. cbn [fst] in H1.
           assert (last' = last) by congruence. subst last'. lra.
        -- apply (Hall _ He). cbn [snd]. rewrite Hset.
           now rewrite dict_get_set_other.
    + destruct (Hno eq_refl) as [-> ->].
      exists events, w2, self2. repeat split; assumption.
Qed.

Lemma new_client_has_both_keys : has_both_keys new_client.
Proof. split; discriminate. Qed.

Lemma separated_pair cooldown a t1 c b t2 d :
  separated cooldown (a ++ (t1, c) :: b ++ (t2, c) :: d) ->
  cooldown <= t2 - t1.
Proof.
  induction a as [| [t0 c0] a IH]; cbn.
  - intros [H _]. rewrite Forall_app in H. destruct H as [_ H].
    inversion H as [| e l He _]; subst. now apply He.
  - intros [_ H]. now apply IH.
Qed.

(** X11: with a cooldown that is not negative, calls of
    [send_random_command] on a new client never raise, and two sends of the
    same command are never closer than the cooldown, whatever the times of
    the calls and the draws. *)
Theorem random_commands_respect_cooldown
  (automation : Automation) (calls : list (Q * nat)) (w : World) :
  0 <= random_command_cooldown automation ->
  exists events w' self',
    random_commands automation calls w new_client = Some (events, w', self')
    /\ forall a t1 c b t2 d,
         events = (a ++ (t1, c) :: b ++ (t2, c) :: d)%list ->
         random_command_cooldown automation <= t2 - t1.
Proof.
  intros Hcool.
  destruct (random_commands_spec automation calls Hcool w new_client
              new_client_has_both_keys)
    as (events & w' & self' & Hrun & Hsep & _).
  exists events, w', self'. split; [exact Hrun |].
  intros a t1 c b t2 d ->. now apply separated_pair in Hsep.
Qed.

Lemma random_commands_respect_cooldown_witness :
  exists events w' self',
    random_commands default_automation
      [(100, 0%nat); (105, 0%nat); (110, 1%nat); (120, 0%nat)]
      new_world new_client = Some (events, w', self')
    /\ forall a t1 c b t2 d,
         events = (a ++ (t1, c) :: b ++ (t2, c) :: d)%list ->
         random_command_cooldown default_automation <= t2 - t1.
Proof.
  apply (random_commands_respect_cooldown default_automation
           [(100, 0%nat); (105, 0%nat); (110, 1%nat); (120, 0%nat)] new_world).
  vm_compute. discriminate.
Defined.

(** ** The verification check *)

Lemma pattern_loop_true patterns message_lower :
  pattern_loop patterns message_lower = true
  <-> exists pattern,
        In pattern patterns /\ Re.search pattern message_lower = true.
Proof.
  induction patterns as [| p rest IH]; cbn [pattern_loop].
  - split; [discriminate | intros (p & [] & _)].
  - destruct (Re.search p message_lower) eqn:E.
    + split; [| reflexivity]. intros _. exists p. split; [now left | exact E].
    + rewrite IH. split.
      * intros (q & Hq & Hs). exists q. split; [now right | exact Hs].
      * intros (q & [<- | Hq] & Hs); [congruence |]. now exists q.
Qed.

Lemma verification_loop_true messages :
  verification_loop messages = true <-> Exists verification_hit messages.
Proof.
  induction messages as [| m rest IH]; cbn [verification_loop].
  - split; [discriminate | intros H; inversion H].
  - unfold verification_hit at 1.
    destruct (pattern_loop verification_patterns (Text.lower m)) eqn:P.
    + split; [| reflexivity]. intros _. apply Exists_cons_hd. left.
      now apply pattern_loop_true.
    + destruct (keyword_combination m) eqn:K.
      * split; [| reflexivity]. intros _. apply Exists_cons_hd. now right.
      * rewrite IH. split; [apply Exists_cons_tl |].
        intros H. inversion H as [? ? [Hp | Hk] | ? ? Ht]; subst.
        -- apply pattern_loop_true in Hp. congruence.
        -- congruence.
        -- exact Ht.
Qed.

(** X12: [check_for_verification] is true exactly when the protection is
    enabled, the fetch of the last 15 messages does not raise and some
    fetched message, at any place in the batch, matches one of the four
    patterns or has one of the keyword combinations; with the protection
    disabled it does not fetch at all. *)
Theorem verification_found_iff_some_message_hits
  (verification : Verification) (client : Client) (w : World) :
  (fst (check_for_verification verification client w) = true
   <-> enable_verification_protection verification = true
       /\ exists messages,
            client (fetches w) 15%nat = Batch messages
            /\ Exists verification_hit messages)
  /\ (enable_verification_protection verification = false ->
      check_for_verification verification client w = (false, w))
  /\ sent (snd (check_for_verification verification client w)) = sent w.
Proof.
  unfold check_for_verification, fetch.
  destruct (enable_verification_protection verification); cbn [negb].
  - destruct (client (fetches w) 15%nat) as [messages |] eqn:C;
      cbn [fst snd sent].
    + split; [split | split; [discriminate | reflexivity]].
      * intros Hfound. split; [reflexivity |].
        exists messages. split; [reflexivity |].
        now apply verification_loop_true.
      * intros (_ & messages' & [= <-] & Hhit).
        now apply verification_loop_true.
    + split; [split | split; [discriminate | reflexivity]].
      * discriminate.
      * intros (_ & messages' & [=] & _).
  - cbn [fst snd]. split; [split | split; reflexivity].
    + discriminate.
    + intros [[=] _].
Qed.

Lemma verification_found_iff_some_message_hits_witness :
  fst (check_for_verification default_verification (scripted verify_or_ban)
         new_world) = true.
Proof.
  apply (proj1 (verification_found_iff_some_message_hits default_verification
                  (scripted verify_or_ban) new_world)).
  split; [reflexivity |].
  exists (nth 0 verify_or_ban []). split; [reflexivity |].
  apply Exists_cons_tl, Exists_cons_hd. left.
  exists (nth 3 verification_patterns Re.Never).
  split; [cbn; tauto | vm_compute; reflexivity].
Defined.

(** ** The alert loop *)

Lemma check_for_verification_world verification client w :
  sent (snd (check_for_verification verification client w)) = sent w
  /\ (fetches w <= fetches (snd (check_for_verification verification client w))
      <= S (fetches w))%nat.
Proof.
  unfold check_for_verification, fetch.
  destruct (enable_verification_protection verification); cbn [negb].
  - destruct (client (fetches w) 15%nat); cbn; split; (reflexivity || lia).
  - cbn. split; (reflexivity || lia).
Qed.

Lemma alerts_sent_step first n :
  alerts_sent first (S n)
  = (alerts_sent (S first) n ++ [(alert_message first, "alert")])%list.
Proof.
  unfold alerts_sent. cbn [seq rev]. now rewrite map_app.
Qed.

Lemma alert_while_spec verification client stop remaining :
  forall ping_count w self,
    let '(n, w', self') :=
      alert_while verification client stop remaining ping_count w self in
    (ping_count <= n <= ping_count + remaining)%nat
    /\ sent w' = (alerts_sent (S ping_count) (n - ping_count) ++ sent w)%list
    /\ (fetches w' <= fetches w + (n - ping_count) + 1)%nat
    /\ should_stop_monitoring self' = should_stop_monitoring self
    /\ ((n < ping_count + remaining)%nat -> stop n = false ->
        verification_detected self' = false).
Proof.
  induction remaining as [| remaining IH]; intros ping_count w self;
    cbn [alert_while].
  - cbv beta iota. rewrite Nat.sub_diag. cbn. repeat split; lia.
  - destruct (stop ping_count) eqn:St.
    { cbv beta iota. rewrite Nat.sub_diag. cbn. repeat split; try lia.
      congruence. }
    destruct (check_for_verification_world verification client w)
      as (Hs & Hf).
    destruct (check_for_verification verification client w) as [found w1].
    cbn [snd] in Hs, Hf. destruct found.
    + specialize (IH (S ping_count)
                    (send_command (alert_message (S ping_count)) "alert" w1)
                    self).
      destruct (alert_while verification client stop remaining
                  (S ping_count) _ self) as [[n w2] self2].
      destruct IH as (Hn & Hsent & Hfetch & Hstop & Hdet).
      cbn [sent fetches send_command] in Hsent, Hfetch.
      repeat split; try lia.
      * replace (n - ping_count)%nat with (S (n - S ping_count)) by lia.
        rewrite alerts_sent_step, <- app_assoc. cbn [app].
        now rewrite Hsent, Hs.
      * exact Hstop.
      * intros Hlt. apply Hdet. lia.
    + destruct (verification_detected self) eqn:D; cbv beta iota;
        rewrite Nat.sub_diag; cbn;
        repeat split; try lia; try assumption; try reflexivity;
        intros _ _; exact D.
Qed.

(** X13: [_alert_loop] sends at most 50 alerts; the alerts sent are
    numbered 1, 2, ... without a gap and nothing else is sent; the loop
    fetches at most once more than it alerts; and when it ends before the
    50th alert without a stop request, [verification_detected] is false
    afterwards. *)
Theorem alert_loop_is_bounded
  (verification : Verification) (client : Client) (stop : nat -> bool)
  (w : World) (self : VerificationMonitor) :
  let '(n, w', self') := _alert_loop verification client stop w self in
  (n <= 50)%nat
  /\ sent w' = (alerts_sent 1 n ++ sent w)%list
  /\ (fetches w' <= fetches w + n + 1)%nat
  /\ ((n < 50)%nat -> stop n = false -> verification_detected self' = false).
Proof.
  unfold _alert_loop.
  pose proof (alert_while_spec verification client stop 50 0 w self) as H.
  destruct (alert_while verification client stop 50 0 w self)
    as [[n w'] self'].
  destruct H as (Hn & Hsent & Hfetch & _ & Hdet).
  rewrite Nat.sub_0_r in Hsent, Hfetch.
  repeat split; try lia; assumption.
Qed.

(** While the request stays on the page the loop sends all 50 alerts. *)
Lemma alert_loop_is_bounded_witness :
  fst (fst (_alert_loop default_verification always_asking
              (fun _ => false) new_world
              {| verification_detected := true;
                 should_stop_monitoring := false |})) = 50%nat
  /\ (fst (fst (_alert_loop default_verification always_asking
                  (fun _ => false) new_world
                  {| verification_detected := true;
                     should_stop_monitoring := false |})) <= 50)%nat.
Proof.
  split; [vm_compute; reflexivity |].
  pose proof (alert_loop_is_bounded default_verification always_asking
                (fun _ => false) new_world
                {| verification_detected := true;
                   should_stop_monitoring := false |}) as H.
  destruct (_alert_loop default_verification always_asking (fun _ => false)
              new_world _) as [[n w'] self'].
  exact (proj1 H).
Defined.

(** ** The choice of a configuration *)

Lemma py_index_in {A : Type} (l : list A) (i : Z) (x : A) :
  py_index l i = Some x -> In x l.
Proof.
  unfold py_index.
  destruct (0 <=? i)%Z; [apply nth_error_In |].
  destruct (- Z.of_nat (List.length l) <=? i)%Z; [apply nth_error_In |].
  discriminate.
Qed.

(** X14: for a list of configurations that is not empty, the choice in
    [load_config] never fails and always names a listed configuration.
    Nothing typed, something that is not a number, or a number out of
    range gives the first one; a number [n] from 1 to the length gives the
    [n]-th one; and a number from 0 down to one minus the length counts
    from the end, so that typing 0 gives the last one. *)
Theorem config_choice (typed : string) (first : string) (others : list string) :
  let configs := first :: others in
  let len := Z.of_nat (List.length configs) in
  (exists config_name,
      chosen_config typed configs = Some config_name
      /\ In config_name configs)
  /\ (py_int (strip typed) = None -> chosen_config typed configs = Some first)
  /\ (forall n,
        py_int (strip typed) = Some n ->
        ((1 <= n <= len)%Z ->
         chosen_config typed configs
         = nth_error configs (Z.to_nat (n - 1)))
        /\ ((1 - len <= n <= 0)%Z ->
            chosen_config typed configs
            = nth_error configs (Z.to_nat (len + n - 1)))
        /\ ((len < n)%Z \/ (n < 1 - len)%Z ->
            chosen_config typed configs = Some first)).
Proof.
  intros configs len.
  assert (Hlen : (0 < len)%Z) by (unfold len, configs; cbn; lia).
  split; [| split].
  - unfold chosen_config.
    destruct (match strip typed with
              | EmptyString => Some 0%Z
              | String _ _ =>
                  option_map (fun n => (n - 1)%Z) (py_int (strip typed))
              end) as [i |].
    + destruct (py_index configs i) as [c |] eqn:E.
      * exists c. split; [reflexivity | now apply py_index_in in E].
      * exists first. split; [reflexivity | now left].
    + exists first. split; [reflexivity | now left].
  - intros Hnone. unfold chosen_config.
    destruct (strip typed) as [| c s]; [reflexivity |].
    now rewrite Hnone.
  - intros n Hn. unfold chosen_config.
    destruct (strip typed) as [| c s] eqn:S; [discriminate Hn |].
    rewrite Hn. cbn [option_map]. unfold py_index. fold len.
    split; [| split].
    + intros Hr.
      destruct (0 <=? n - 1)%Z eqn:E; [| apply Z.leb_gt in E; lia].
      destruct (nth_error configs (Z.to_nat (n - 1))) eqn:N; [reflexivity |].
      apply nth_error_None in N. unfold len in Hr. lia.
    + intros Hr.
      destruct (0 <=? n - 1)%Z eqn:E; [apply Z.leb_le in E; lia |].
      destruct (- len <=? n - 1)%Z eqn:F; [| apply Z.leb_gt in F; lia].
      replace (len + (n - 1))%Z with (len + n - 1)%Z by lia.
      destruct (nth_error configs (Z.to_nat (len + n - 1))) eqn:N;
        [reflexivity |].
      apply nth_error_None in N. unfold len in Hr, N. lia.
    + intros Hr.
      destruct (0 <=? n - 1)%Z eqn:E.
      * apply Z.leb_le in E.
        destruct (nth_error configs (Z.to_nat (n - 1))) eqn:N;
          [| reflexivity].
        assert (Hsome : nth_error configs (Z.to_nat (n - 1)) <> None)
          by congruence.
        apply nth_error_Some in Hsome. unfold len in Hr. lia.
      * apply Z.leb_gt in E.
        destruct (- len <=? n - 1)%Z eqn:F; [| reflexivity].
        apply Z.leb_le in F. lia.
Qed.

(** Typing 0 in front of three configurations gives the third. *)
Lemma config_choice_witness :
  chosen_config "0" ["alpha"; "beta"; "gamma"] = Some "gamma".
Proof.
  destruct (config_choice "0" "alpha" ["beta"; "gamma"]) as (_ & _ & Hn).
  destruct (Hn 0%Z eq_refl) as (_ & Hback & _).
  rewrite Hback; [reflexivity | cbn; lia].
Defined.

(** ** Whole passes of the strategy loop *)

Lemma resolved_counted rs s s' :
  counted rs s s' -> resolved s' = (resolved s + won rs + lost rs)%Z.
Proof. unfold counted, resolved. lia. Qed.

(** The engine after a pass that placed a bet. *)
Lemma betting_pass_bet_effect config client now v w self bet_amount result :
  fst (fst (betting_pass config client now v w self)) = Bet bet_amount result ->
  exists self1,
    snd (betting_pass config client now v w self)
    = record_result result (record_placement bet_amount self1)
    /\ resolved self1 = resolved self.
Proof.
  unfold betting_pass.
  destruct (should_stop_betting config now self) as [should_stop reason].
  destruct should_stop; [discriminate |].
  destruct (check_cash config client w self) as [[cash w1] self1] eqn:C.
  assert (Hres : resolved self1 = resolved self).
  { apply (check_cash_related counted config counted_refl
             (counted_balance config)) in C.
    apply resolved_counted in C. unfold won, lost in C. cbn in C. lia. }
  destruct v; try discriminate;
    (destruct (Py.leb cash 0); [discriminate |]);
    destruct (place_coinflip_bet client _ w1 self1) as [[r w2] self2] eqn:P;
    apply place_coinflip_bet_effect in P; cbn [fst snd];
    intros [= <- <-]; exists self1; split; assumption.
Qed.

(** The engine is untouched in what it counts by a pass without a bet. *)
Lemma betting_pass_counted config client now v w self :
  counted (match fst (fst (betting_pass config client now v w self)) with
           | Bet _ r => [r]
           | _ => []
           end)
    self (snd (betting_pass config client now v w self)).
Proof.
  pose proof (perform_related counted config counted_refl counted_app
                (counted_balance config) (counted_risk config) counted_bet
                client (Betting_pass now v) w self) as H.
  unfold perform in H.
  destruct (betting_pass config client now v w self) as [[e w1] self1].
  cbn [fst snd].
  destruct e; now apply (H _ w1 self1).
Qed.

Lemma note_after_bet bet_amount result self1 won losses :
  returned result = Some won ->
  note_result won (record_result result (record_placement bet_amount self1))
  <> Recovery_successful losses.
Proof.
  unfold note_result. destruct result; cbn [returned]; intros [= <-];
    [| discriminate].
  unfold record_result, record_win.
  destruct (0 <? consecutive_losses
                   (set_total_wins
                      (total_wins (record_placement bet_amount self1) + 1)
                      (record_placement bet_amount self1)))%Z eqn:E;
    cbn.
  - discriminate.
  - cbn in E. rewrite E. discriminate.
Qed.

(** What a whole pass does to the counts, the notes and the statistics. *)
Lemma strategy_pass_spec config automation logging client now v draw bot :
  let step :=
    fst (strategy_pass config automation logging client now v draw bot) in
  let bot' :=
    snd (strategy_pass config automation logging client now v draw bot) in
  (bet_count bot' = bet_count bot
   /\ resolved (bot_engine bot') = resolved (bot_engine bot)
   /\ notes bot' = notes bot
   /\ statistics_logged bot' = statistics_logged bot)
  \/ (bet_count bot' = (bet_count bot + 1)%Z
      /\ resolved (bot_engine bot') = (resolved (bot_engine bot) + 1)%Z
      /\ (exists note,
             notes bot' = note :: notes bot
             /\ forall losses, note <> Recovery_successful losses)
      /\ ((log_statistics_interval logging = 0%Z
           /\ step = Fails
           /\ statistics_logged bot' = statistics_logged bot)
          \/ (log_statistics_interval logging <> 0%Z
              /\ statistics_logged bot'
                 = if (bet_count bot' mod log_statistics_interval logging
                       =? 0)%Z
                   then bet_count bot' :: statistics_logged bot
                   else statistics_logged bot))).
Proof.
  unfold strategy_pass.
  pose proof (betting_pass_counted config client now v (bot_world bot)
                (bot_engine bot)) as Hc.
  pose proof (betting_pass_bet_effect config client now v (bot_world bot)
                (bot_engine bot)) as He.
  destruct (betting_pass config client now v (bot_world bot) (bot_engine bot))
    as [[e w] self].
  cbn [fst snd] in Hc, He.
  apply resolved_counted in Hc. unfold won, lost in Hc.
  destruct e as [reason | | | bet_amount result];
    try (left; cbn in *; repeat split; lia).
  destruct (He bet_amount result eq_refl) as (self1 & Hself & _).
  destruct (returned result) as [won |] eqn:R.
  - right.
    assert (Hone : resolved self = (resolved (bot_engine bot) + 1)%Z)
      by (destruct result; cbn in R, Hc; try discriminate; lia).
    assert (Hnote : forall losses,
               note_result won self <> Recovery_successful losses)
      by (intros losses; rewrite Hself; now apply note_after_bet).
    destruct (log_statistics_interval logging =? 0)%Z eqn:I.
    + apply Z.eqb_eq in I. cbn. repeat split; try assumption.
      * eexists. split; [reflexivity | exact Hnote].
      * left. repeat split. exact I.
    + apply Z.eqb_neq in I.
      destruct (enable_random_commands automation
                && Py.ltb (random_value draw)
                     (random_command_chance automation)).
      * destruct (send_random_command automation (time_value draw)
                    (choice_index draw) w (bot_client bot))
          as [[[was_sent w2] discord] |]; cbn; repeat split;
          try assumption;
          try (eexists; split; [reflexivity | exact Hnote]);
          (right; split; [exact I | reflexivity]).
      * cbn. repeat split; try assumption.
        -- eexists. split; [reflexivity | exact Hnote].
        -- right. split; [exact I | reflexivity].
  - left. destruct result; cbn in R, Hc; try discriminate.
    cbn. repeat split; lia.
Qed.

Lemma passes_relation_refl interval bot :
  passes_relation interval bot Goes_on bot.
Proof.
  unfold passes_relation. repeat split; try lia; try tauto.
  intros [Hin | Hin]; [exact Hin | lia].
Qed.

Lemma passes_relation_any_step interval bot step bot' :
  passes_relation interval bot Goes_on bot' ->
  passes_relation interval bot step bot'.
Proof.
  intros (A1 & A2 & A3 & A4 & A5). unfold passes_relation.
  split; [exact A1 |]. split; [exact A2 |]. split; [exact A3 |].
  split; [| exact A5].
  intros I. destruct (A4 I) as (B1 & B2 & B3).
  split; [exact B1 |]. split; [exact B2 |].
  intros E. specialize (B3 E). discriminate B3.
Qed.

Lemma passes_relation_trans interval bot bot1 step bot' :
  passes_relation interval bot Goes_on bot1 ->
  passes_relation interval bot1 step bot' ->
  passes_relation interval bot step bot'.
Proof.
  intros (A1 & A2 & A3 & A4 & A5) (B1 & B2 & B3 & B4 & B5).
  unfold passes_relation. split; [lia |]. split; [lia |].
  split; [auto |]. split.
  - intros I. destruct (A4 I) as (A41 & A42 & A43).
    destruct (B4 I) as (B41 & B42 & B43).
    assert (E : bet_count bot1 = bet_count bot).
    { destruct (Z.eq_dec (bet_count bot1) (bet_count bot + 1)) as [E | E];
        [specialize (A43 E); discriminate | lia]. }
    rewrite E in *. repeat split; [lia | congruence | exact B43].
  - intros I c. rewrite (B5 I c), (A5 I c). split.
    + intros [[H | H] | H]; [now left | right | right];
        (split; [lia | tauto]).
    + intros [H | [H1 H2]]; [now left; left |].
      destruct (Z_le_gt_dec c (bet_count bot1)).
      * left. right. split; [lia | exact H2].
      * right. split; [lia | exact H2].
Qed.

Lemma strategy_pass_relation config automation logging client now v draw bot :
  passes_relation (log_statistics_interval logging) bot
    (fst (strategy_pass config automation logging client now v draw bot))
    (snd (strategy_pass config automation logging client now v draw bot)).
Proof.
  pose proof (strategy_pass_spec config automation logging client now v draw
                bot) as H.
  cbv zeta in H.
  set (step := fst _) in *. set (bot' := snd _) in *. clearbody step bot'.
  unfold passes_relation.
  destruct H as [(H1 & H2 & H3 & H4) | (H1 & H2 & (note & H3 & Hn) & H4)].
  - rewrite H1, H2, H3, H4. repeat split; try lia; try tauto.
    intros [Hin | Hin]; [exact Hin | lia].
  - rewrite H1, H2, H3. split; [lia |]. split; [lia |]. split.
    { intros losses [E | E]; [now apply Hn in E | exact E]. }
    destruct H4 as [(I & Hs & Hl) | (I & Hl)]; split.
    + intros _. repeat split; [lia | exact Hl | now intros _].
    + intros I0. contradiction.
    + intros I0. contradiction.
    + intros _ c. rewrite Hl, H1.
      destruct ((bet_count bot + 1) mod log_statistics_interval logging =? 0)%Z
        eqn:M.
      * apply Z.eqb_eq in M. cbn [In]. split.
        -- intros [<- | Hin]; [right; split; [lia | exact M] | now left].
        -- intros [Hin | [Hc Hm]]; [now right |]. left. lia.
      * apply Z.eqb_neq in M. split; [now left |].
        intros [Hin | [Hc Hm]]; [exact Hin |].
        assert (c = (bet_count bot + 1)%Z) by lia. subst c. contradiction.
Qed.

Lemma strategy_loop_relation passes config automation logging client clock
  monitor draws :
  forall k bot,
    passes_relation (log_statistics_interval logging) bot
      (fst (strategy_loop passes config automation logging client clock
              monitor draws k bot))
      (snd (strategy_loop passes config automation logging client clock
              monitor draws k bot)).
Proof.
  induction passes as [| passes IH]; intros k bot; cbn [strategy_loop].
  - apply passes_relation_refl.
  - pose proof (strategy_pass_relation config automation logging client
                  (clock k) (monitor k) (draws k) bot) as H1.
    destruct (strategy_pass config automation logging client (clock k)
                (monitor k) (draws k) bot) as [step bot1].
    cbn [fst snd] in H1.
    destruct step; [| exact H1 | exact H1].
    apply (passes_relation_trans _ bot bot1 _ _ H1 (IH (S k) bot1)).
Qed.

Lemma run_whole_strategy_relation passes config automation logging client
  clock monitor draws now :
  passes_relation (log_statistics_interval logging) (new_bot now)
    (fst (run_whole_strategy passes config automation logging client clock
            monitor draws (new_bot now)))
    (snd (run_whole_strategy passes config automation logging client clock
            monitor draws (new_bot now))).
Proof.
  unfold run_whole_strategy.
  destruct (check_cash config client (bot_world (new_bot now))
              (bot_engine (new_bot now))) as [[cash w] self] eqn:C.
  assert (Hres : resolved self = resolved (init now)).
  { apply (check_cash_related counted config counted_refl
             (counted_balance config)) in C.
    apply resolved_counted in C. unfold won, lost in C. cbn in C.
    cbn. lia. }
  set (bot0 := {| bot_world := w; bot_engine := self |}).
  assert (H0 : passes_relation (log_statistics_interval logging)
                 (new_bot now) Goes_on bot0).
  { unfold passes_relation, bot0. cbn [bet_count bot_engine notes
      statistics_logged new_bot new_client]. rewrite Hres.
    repeat split; try lia; try tauto. intros [Hin | Hin]; [exact Hin | lia]. }
  destruct (Py.leb cash 0).
  - cbn [fst snd]. now apply passes_relation_any_step.
  - apply (passes_relation_trans _ _ bot0 _ _ H0).
    apply strategy_loop_relation.
Qed.

(** X15: the loop never logs a successful recovery: when a bet is won,
    [place_coinflip_bet] has put [consecutive_losses] back to 0 before the
    loop looks at it, so in every run of the strategy every note on a won
    bet is the one of a continued winning streak. *)
Theorem recovery_is_never_noted
  (passes : nat) (config : Config) (automation : Automation)
  (logging : Logging) (client : Client) (clock : nat -> Q)
  (monitor : nat -> verification) (draws : nat -> Draw) (now : Q) :
  Forall (fun note => is_recovery note = false)
         (notes (snd (run_whole_strategy passes config automation logging
                        client clock monitor draws (new_bot now)))).
Proof.
  destruct (run_whole_strategy_relation passes config automation logging
              client clock monitor draws now) as (_ & _ & Hn & _).
  apply Forall_forall. intros note Hin.
  destruct note as [losses | |]; try reflexivity.
  destruct (Hn losses Hin).
Qed.

(** X16: in every run of the strategy [bet_count] is the number of bets
    that were resolved as a win or a loss.  With a statistics interval
    other than 0, [log_statistics] is called in the loop exactly at the
    counts from 1 to [bet_count] that are multiples of the interval.  With
    an interval of 0 the loop ends with an error at the first resolved bet
    and logs no statistics. *)
Theorem statistics_every_interval
  (passes : nat) (config : Config) (automation : Automation)
  (logging : Logging) (client : Client) (clock : nat -> Q)
  (monitor : nat -> verification) (draws : nat -> Draw) (now : Q) :
  let step :=
    fst (run_whole_strategy passes config automation logging client clock
           monitor draws (new_bot now)) in
  let bot' :=
    snd (run_whole_strategy passes config automation logging client clock
           monitor draws (new_bot now)) in
  bet_count bot'
  = (total_wins (bot_engine bot') + total_losses (bot_engine bot'))%Z
  /\ (log_statistics_interval logging <> 0%Z ->
      forall c,
        In c (statistics_logged bot')
        <-> (1 <= c <= bet_count bot')%Z
            /\ (c mod log_statistics_interval logging = 0)%Z)
  /\ (log_statistics_interval logging = 0%Z ->
      (bet_count bot' <= 1)%Z
      /\ statistics_logged bot' = []
      /\ (bet_count bot' = 1%Z -> step = Fails)).
Proof.
  intros step bot'.
  destruct (run_whole_strategy_relation passes config automation logging
              client clock monitor draws now) as (H1 & H2 & _ & H4 & H5).
  fold step in H4. fold bot' in H1, H2, H4, H5.
  cbn [new_bot bet_count statistics_logged bot_engine] in *.
  unfold resolved in H2. cbn [init total_wins total_losses] in H2.
  split; [lia |]. split.
  - intros I c. rewrite (H5 I c). cbn [In]. split.
    + intros [[] | [Hc Hm]]. split; [lia | exact Hm].
    + intros [Hc Hm]. right. split; [lia | exact Hm].
  - intros I. destruct (H4 I) as (A & B & C).
    repeat split; [lia | exact B | exact C].
Qed.

Lemma statistics_every_interval_witness :
  fst (three_losses_run 0) = Fails /\ bet_count (snd (three_losses_run 0)) = 1%Z.
Proof.
  assert (Hcount : bet_count (snd (three_losses_run 0)) = 1%Z)
    by (vm_compute; reflexivity).
  split; [| exact Hcount].
  destruct (statistics_every_interval 3 config_no_limit default_automation
              (logging_every 0)
              (scripted (["You currently have 1,000 cowoncy!"]
                         :: three_lost_bets))
              (fun _ => 0) (fun _ => Inactive) (fun _ => no_random_command) 0)
    as (_ & _ & Hzero).
  destruct (Hzero eq_refl) as (_ & _ & Hfails).
  apply Hfails. exact Hcount.
Defined.

(** ** Creating a configuration *)

Lemma ask_float_nothing float_of typed current :
  nothing_typed typed -> ask_float float_of typed current = current.
Proof. unfold nothing_typed, ask_float. now intros ->. Qed.

Lemma ask_int_nothing typed current :
  nothing_typed typed -> ask_int typed current = current.
Proof. unfold nothing_typed, ask_int. now intros ->. Qed.

Lemma said_yes_nothing typed : nothing_typed typed -> said_yes typed = false.
Proof. unfold nothing_typed, said_yes. now intros ->. Qed.

(** X17: whatever is typed, [create_config] leaves the minimum bet at 1,
    the max-bet limit enabled and the session time limit disabled, and it
    enables the stop loss exactly when the answer to its question is [y]
    or [yes]; so with nothing typed at any prompt the result is not the
    default configuration: it is the default with the stop loss off. *)
Theorem create_config_defaults
  (float_of : string -> option Q) (answers : Answers) :
  min_bet_amount (betting (create_config float_of answers)) = 1
  /\ enable_max_bet_limit (risk_management (create_config float_of answers))
     = true
  /\ enable_session_time_limit
       (risk_management (create_config float_of answers)) = false
  /\ (enable_stop_loss (risk_management (create_config float_of answers))
      = true
      <-> Text.lower (strip (typed_stop_loss answers)) = "y"
          \/ Text.lower (strip (typed_stop_loss answers)) = "yes")
  /\ (nothing_typed (typed_bet_percentage answers) ->
      nothing_typed (typed_multiplier answers) ->
      nothing_typed (typed_max_losses answers) ->
      nothing_typed (typed_stop_loss answers) ->
      nothing_typed (typed_profit_target answers) ->
      nothing_typed (typed_max_bet answers) ->
      create_config float_of answers = default_without_stop_loss).
Proof.
  split; [reflexivity |]. split; [reflexivity |]. split; [reflexivity |].
  split.
  - cbn [create_config risk_management enable_stop_loss]. unfold said_yes.
    rewrite orb_true_iff, !String.eqb_eq. reflexivity.
  - intros H1 H2 H3 H4 H5 H6. unfold create_config.
    rewrite (said_yes_nothing _ H4), (said_yes_nothing _ H5).
    rewrite !(ask_float_nothing float_of _ _ H1),
      !(ask_float_nothing float_of _ _ H2),
      !(ask_float_nothing float_of _ _ H6), (ask_int_nothing _ _ H3).
    reflexivity.
Qed.

Lemma create_config_defaults_witness :
  create_config (fun _ => None) all_enter = default_without_stop_loss
  /\ enable_stop_loss (risk_management get_default_config) = true.
Proof.
  split; [| reflexivity].
  apply (proj2 (proj2 (proj2 (proj2
           (create_config_defaults (fun _ => None) all_enter)))));
    reflexivity.
Defined.

Lemma win_rate_is_a_percentage_witness :
  Stats.win_rate
    (get_statistics 1
       (snd (session get_default_config (scripted unrelated_chatter) []
               new_world (init 0)))) = 0.
Proof.
  apply (proj2 (proj2 (win_rate_is_a_percentage get_default_config
                         (scripted unrelated_chatter) [] new_world 0 1))).
  reflexivity.
Defined.
